(** * The resumable page pipeline of [src/main.ts]

    A shallow embedding of the OCR driver: the resume tracker
    ([getLastProcessedPageByTex]), the context window ([getImageBuffer]),
    the recognition call ([processPageWithGemini]), the retry loop and the
    assembly of [main.tex] ([processPdfDocument]).

    Conventions of the embedding.
    - A JavaScript string is a [string]: the sequence of the bytes of its
      UTF-8 encoding.  The source only searches for ASCII patterns and
      splices at the indices it found, so byte indices and UTF-16 indices
      select the same cuts.
    - A JavaScript number that the code uses as a counter or page index is
      a [Z].  The numbers of the code are doubles: they are exact for
      integers up to [JS.MAX_SAFE_INTEGER] = 2^53 - 1, and from 2^53 on
      [parseInt] and [+ 1] round.  A statement whose truth depends on the
      value of an index therefore assumes the indices to lie within this
      bound.
    - A thrown value is the string that [error.toString()] yields, the only
      thing the source ever inspects of an error.
    - The output directory is a finite map from file names to contents. *)

From Stdlib Require Import ZArith List String Ascii Lia Bool.
From Stdlib Require Import Decimal DecimalString DecimalZ DecimalPos.
From Stdlib Require Import Permutation Sorted.
From stdpp Require Import gmap strings list fin_maps.

Local Open Scope Z_scope.

(* ================================================================== *)
(** ** JavaScript string primitives used by the source                 *)
(* ================================================================== *)

Module JS.

(** Line feed, the [\n] of the template literals. *)
Definition nl : string := String "010"%char EmptyString.

(** The double quote character. *)
Definition dq : string := String "034"%char EmptyString.

(** [\d] of a JavaScript regular expression: the ten ASCII digits. *)
Definition isDigit (c : ascii) : bool :=
  let n := N_of_ascii c in ((48 <=? n) && (n <=? 57))%N.

Definition digitVal (c : ascii) : Z := Z.of_N (N_of_ascii c) - 48.

(** The longest run of digits a string starts with, and what follows. *)
Fixpoint takeDigits (s : string) : string :=
  match s with
  | String c s' => if isDigit c then String c (takeDigits s') else EmptyString
  | EmptyString => EmptyString
  end.

Fixpoint dropDigits (s : string) : string :=
  match s with
  | String c s' => if isDigit c then dropDigits s' else s
  | EmptyString => EmptyString
  end.

Fixpoint allDigits (s : string) : bool :=
  match s with
  | String c s' => isDigit c && allDigits s'
  | EmptyString => true
  end.

Definition nonEmpty (s : string) : bool :=
  match s with EmptyString => false | String _ _ => true end.

(** [s.startsWith(p)] together with the rest of [s] after [p]. *)
Fixpoint stripPrefix (p s : string) : option string :=
  match p with
  | EmptyString => Some s
  | String a p' =>
      match s with
      | String b s' => if Ascii.eqb a b then stripPrefix p' s' else None
      | EmptyString => None
      end
  end.

Definition startsWith (p s : string) : bool :=
  match stripPrefix p s with Some _ => true | None => false end.

(** [s.includes(m)]. *)
Fixpoint includes (m s : string) : bool :=
  startsWith m s ||
  match s with
  | String _ s' => includes m s'
  | EmptyString => false
  end.

(** [s.lastIndexOf(m)]: the largest index at which [m] occurs, or -1. *)
Fixpoint lastIndexOf (m s : string) : Z :=
  match s with
  | EmptyString => if startsWith m EmptyString then 0 else -1
  | String _ s' =>
      let r := lastIndexOf m s' in
      if 0 <=? r then r + 1
      else if startsWith m s then 0 else -1
  end.

Fixpoint take (n : nat) (s : string) : string :=
  match n, s with
  | S n', String c s' => String c (take n' s')
  | _, _ => EmptyString
  end.

Fixpoint drop (n : nat) (s : string) : string :=
  match n, s with
  | S n', String _ s' => drop n' s'
  | _, _ => s
  end.

(** An index argument of [slice]: negative values count from the end,
    and everything is clamped to the length. *)
Definition sliceIndex (i : Z) (s : string) : nat :=
  let len := Z.of_nat (String.length s) in
  Z.to_nat (if i <? 0 then Z.max (len + i) 0 else Z.min i len).

(** [s.slice(0, i)] and [s.slice(i)]. *)
Definition sliceTo (i : Z) (s : string) : string := take (sliceIndex i s) s.
Definition sliceFrom (i : Z) (s : string) : string := drop (sliceIndex i s) s.

(** [Number.MAX_SAFE_INTEGER]: up to here the integers are doubles, and
    so is the successor of each. *)
Definition MAX_SAFE_INTEGER : Z := 2 ^ 53 - 1.

(** [parseInt(ds, 10)] on a string that starts with a digit: the value of
    its leading digit run.  (The source only applies it to a capture of
    [\d+].)  This is the exact value; the code's is the nearest double,
    which is the same as long as the value is at most
    [MAX_SAFE_INTEGER]. *)
Fixpoint parseDigits (acc : Z) (s : string) : Z :=
  match s with
  | String c s' => if isDigit c then parseDigits (10 * acc + digitVal c) s' else acc
  | EmptyString => acc
  end.

Definition parseInt (s : string) : Z := parseDigits 0 s.

(** The text a template literal substitutes for an integer number. *)
Definition numToString (n : Z) : string := NilZero.string_of_int (Z.to_int n).

(** The first match of [/\d+/] in [s]: the first maximal digit run. *)
Fixpoint firstDigitRun (s : string) : option string :=
  match s with
  | String c s' => if isDigit c then Some (takeDigits s) else firstDigitRun s'
  | EmptyString => None
  end.

(** [Math.max] of a first number and the remaining ones. *)
Definition mathMax (n : Z) (ns : list Z) : Z := fold_left Z.max ns n.

End JS.

(* ================================================================== *)
(** ** Resume tracker                                                  *)
(* ================================================================== *)

(** [/^page\d+\.tex$/.test(f)] *)
Definition isPageTex (f : string) : bool :=
  match JS.stripPrefix "page" f with
  | Some rest =>
      JS.nonEmpty (JS.takeDigits rest) && String.eqb (JS.dropDigits rest) ".tex"
  | None => false
  end.

(** [parseInt(f.match(/\d+/)![0], 10)].  The non-null assertion is backed by
    the filter: a name that passed [isPageTex] has a digit run (lemma
    [firstDigitRun_pageTex]); the branch without one is never reached from
    [getLastProcessedPageByTex]. *)
Definition pageNumberOf (f : string) : Z :=
  match JS.firstDigitRun f with
  | Some ds => JS.parseInt ds
  | None => 0
  end.

(** [getLastProcessedPageByTex], on the listing [fs.readdir] returned. *)
Definition getLastProcessedPageByTex (files : list string) : Z :=
  let pageTexFiles := List.filter isPageTex files in
  match List.map pageNumberOf pageTexFiles with
  | [] => 0
  | n :: ns => JS.mathMax n ns
  end.

(** The first page the driver's loop visits: [i = lastProcessedPage],
    [pageNum = i + 1]. *)
Definition startPage (files : list string) : Z :=
  getLastProcessedPageByTex files + 1.

(** [pageTexPath], as a name in [OUTPUT_DIR]: [`page${pageNum}.tex`]. *)
Definition pageTexPath (n : Z) : string :=
  "page" +:+ JS.numToString n +:+ ".tex".

(* ================================================================== *)
(** ** The master document [main.tex]                                  *)
(* ================================================================== *)

(** [MAIN_TEX_PATH], as a name in [OUTPUT_DIR]. *)
Definition MAIN_TEX_PATH : string := "main.tex".

(** The closing marker. *)
Definition endDocument : string := "\end{document}".

(** The preamble [setupWorkspace] writes when there is no [main.tex]. *)
Definition initialContent : string :=
  "\documentclass[12pt, a4paper]{article}" +:+ JS.nl +:+
  "\usepackage[utf8]{inputenc}" +:+ JS.nl +:+
  "\usepackage{fontspec} % Für die Verwendung gotischer Schriftarten (falls nötig)" +:+ JS.nl +:+
  "\usepackage{geometry}" +:+ JS.nl +:+
  "\geometry{a4paper, margin=1in}" +:+ JS.nl +:+
  JS.nl +:+
  "\title{Christliche Dogmatik - Band 1}" +:+ JS.nl +:+
  "\author{Francis Pieper}" +:+ JS.nl +:+
  "\date{}" +:+ JS.nl +:+
  JS.nl +:+
  "\begin{document}" +:+ JS.nl +:+
  "\maketitle" +:+ JS.nl +:+
  JS.nl +:+
  "% Die einzelnen Seiten werden hier inkludiert" +:+ JS.nl.

(** An inclusion reference: [\include{page<n>}]. *)
Definition includeRef (pageNum : Z) : string :=
  "\include{page" +:+ JS.numToString pageNum +:+ "}".

(** [const includeLine = `\n\\include{page${pageNum}}`] *)
Definition includeLine (pageNum : Z) : string := JS.nl +:+ includeRef pageNum.

(** The text finalization appends: ["\n\n\\end{document}\n"]. *)
Definition closingText : string := JS.nl +:+ JS.nl +:+ endDocument +:+ JS.nl.

(** The manifest update of one recorded page (lines 292-304), as a
    function from the content read to the content left in the file:
    splice before the last closing marker, or append. *)
Definition updateManifest (pageNum : Z) (mainTexContent : string) : string :=
  if JS.includes endDocument mainTexContent then
    let idx := JS.lastIndexOf endDocument mainTexContent in
    JS.sliceTo idx mainTexContent +:+ includeLine pageNum +:+ JS.nl +:+
    JS.sliceFrom idx mainTexContent
  else mainTexContent +:+ includeLine pageNum.

(** Finalization (lines 346-349), likewise. *)
Definition finalizeManifest (finalContent : string) : string :=
  if JS.includes endDocument finalContent then finalContent
  else finalContent +:+ closingText.

(** One try of [/\\include{page(\d+)}/] at the start of [s]: the captured
    number and the length of the match.  This is the pattern with which the
    earlier revision of the driver ([getLastProcessedPage]) read the
    inclusion references back from the manifest. *)
Definition matchInclude (s : string) : option (Z * nat) :=
  match JS.stripPrefix "\include{page" s with
  | Some rest =>
      let ds := JS.takeDigits rest in
      if JS.nonEmpty ds && JS.startsWith "}" (JS.dropDigits rest)
      then Some (JS.parseInt ds, (13 + String.length ds + 1)%nat)
      else None
  | None => None
  end.

(** All matches of the global pattern, left to right; after a match the
    search resumes behind it ([skip] characters are passed over). *)
Fixpoint includeRefsFrom (skip : nat) (s : string) : list Z :=
  match s with
  | EmptyString => []
  | String _ s' =>
      match skip with
      | S k => includeRefsFrom k s'
      | O =>
          match matchInclude s with
          | Some (n, len) => n :: includeRefsFrom (Nat.pred len) s'
          | None => includeRefsFrom 0 s'
          end
      end
  end.

(** The page indices of the inclusion references of a manifest, in the
    order in which they appear. *)
Definition includeRefs (content : string) : list Z := includeRefsFrom 0 content.

(** How many times [m] occurs in [s]. *)
Fixpoint countOccurrences (m s : string) : nat :=
  ((if JS.startsWith m s then 1 else 0) +
   match s with
   | String _ s' => countOccurrences m s'
   | EmptyString => 0
   end)%nat.

(* ================================================================== *)
(** ** Effects: the output directory, the observable trace, exceptions *)
(* ================================================================== *)

(** What a run does that can be observed from outside, in program order:
    calls of the collaborators and the console lines that report the
    progress of the retry loop. *)
Inductive Event :=
  | EvPageStart (pageNum totalPages : Z)           (* "Beginne Verarbeitung von Seite ..." *)
  | EvRender (pageIdx : Z)                         (* converter(pageIdx) *)
  | EvRecognize (images : list string)             (* generateContent with these images *)
  | EvQuotaWait (seconds : Z)                      (* setTimeout(resolve, seconds * 1000) *)
  | EvAttemptFailed (pageNum attempt : Z) (err : string)  (* "Fehler bei der Verarbeitung ..., Versuch a von 3" *)
  | EvPageDone (pageNum : Z)                       (* "Seite ... erfolgreich verarbeitet" *)
  | EvNotify (message : string)                    (* sendPushoverNotification(message) *)
  | EvHalt (pageNum : Z) (lastError : option string)  (* "... Das Skript wird angehalten." *)
  | EvFinished.                                    (* "PDF-Verarbeitung abgeschlossen." *)

Record World := mkWorld {
  dir : gmap string string;   (* OUTPUT_DIR: file name -> content *)
  log : list Event            (* trace so far, oldest first *)
}.

Definition emptyWorld : World := {| dir := ∅; log := [] |}.

(** The world after a file has been written, and after events have been
    observed. *)
Definition putFile (name content : string) (w : World) : World :=
  {| dir := <[name := content]> (dir w); log := log w |}.

Definition addEvents (evs : list Event) (w : World) : World :=
  {| dir := dir w; log := log w ++ evs |}.

Inductive Result (A : Type) :=
  | Ok (a : A)
  | Throw (err : string).
Arguments Ok {A} a.
Arguments Throw {A} err.

(** Computations that read and write the world and may throw; the world
    changes made before a throw stay. *)
Definition M (A : Type) : Type := World -> Result A * World.

Definition ret {A} (a : A) : M A := fun w => (Ok a, w).

Definition throw {A} (err : string) : M A := fun w => (Throw err, w).

Definition bind {A B} (m : M A) (k : A -> M B) : M B :=
  fun w =>
    match m w with
    | (Ok a, w') => k a w'
    | (Throw err, w') => (Throw err, w')
    end.

Notation "'let*' x ':=' m 'in' k" := (bind m (fun x => k))
  (at level 10, x name, m at level 100, k at level 200).
Notation "m '>>>' k" := (bind m (fun _ => k))
  (at level 100, k at level 200, right associativity).

(** [try { body } catch (error) { handler(error) }] *)
Definition tryCatch {A} (body : M A) (handler : string -> M A) : M A :=
  fun w =>
    match body w with
    | (Ok a, w') => (Ok a, w')
    | (Throw err, w') => handler err w'
    end.

Definition emit (ev : Event) : M unit :=
  fun w => (Ok tt, addEvents [ev] w).

Module Fs.

(** [fs.readFile(path, "utf-8")]; rejects when the file does not exist. *)
Definition readFile (name : string) : M string :=
  fun w =>
    match dir w !! name with
    | Some content => (Ok content, w)
    | None => (Throw ("Error: ENOENT: no such file or directory, open " +:+ name), w)
    end.

Definition writeFile (name content : string) : M unit :=
  fun w => (Ok tt, putFile name content w).

(** [fs.appendFile]: creates the file when it does not exist. *)
Definition appendFile (name content : string) : M unit :=
  fun w =>
    (Ok tt, putFile name (default EmptyString (dir w !! name) +:+ content) w).

(** [fs.access(path)] *)
Definition access (name : string) : M unit :=
  fun w =>
    match dir w !! name with
    | Some _ => (Ok tt, w)
    | None => (Throw ("Error: ENOENT: no such file or directory, access " +:+ name), w)
    end.

(** [fs.readdir(OUTPUT_DIR)], in whatever order the map enumerates. *)
Definition readdir : M (list string) :=
  fun w => (Ok (map fst (map_to_list (dir w))), w).

End Fs.

(** [setupWorkspace]: [mkdir] is idempotent; [access] decides whether the
    preamble is written. *)
Definition setupWorkspace : M unit :=
  tryCatch (Fs.access MAIN_TEX_PATH) (fun _ => Fs.writeFile MAIN_TEX_PATH initialContent).

(* ================================================================== *)
(** ** The collaborators, as the script of one attempt                 *)
(* ================================================================== *)

(** What [converter(pageIdx)] followed by [fs.readFile(result.path)] does.
    The renderer is configured with [savePath: OUTPUT_DIR, format: "png"]:
    an image it produces is left in the output directory under a name that
    ends in [.png] (line 244: the PNG is no longer deleted). *)
Inductive RenderOutcome :=
  | RenderThrows (err : string)             (* the converter or the read rejects *)
  | RenderNoPath                            (* [result.path] is undefined *)
  | RenderFile (stem : string) (buf : string).  (* [stem.png] with content [buf] *)

(** What [parsedJson?.content] evaluates to once [JSON.parse] has accepted
    the text of the response: [undefined] (the parsed value is null, is
    not an object, or is an object without the property, as for the texts
    [null], [42], [[]] and [{}]), [null], or a string.  The request asks
    for a string under [content] (response schema, lines 147-153, and the
    type [OcrResponse]); a [content] of another type is not modelled. *)
Inductive ContentField :=
  | ContentUndefined
  | ContentNull
  | ContentText (text : string).

(** What [generateContent] does: reject, or resolve to a result whose
    [text] is not a string, is a string [JSON.parse] rejects, or is a
    string that parses to a value. *)
Inductive GenerateOutcome :=
  | ApiThrows (err : string)
  | TextMissing
  | TextNotJson
  | TextJson (content : ContentField).

Record AttemptEnv := mkEnv {
  converter : Z -> RenderOutcome;
  apiKey : bool;                      (* GEMINI_API_KEY is set *)
  generateContent : GenerateOutcome
}.

(* ================================================================== *)
(** ** Context window                                                  *)
(* ================================================================== *)

(** [getImageBuffer] (lines 236-248). *)
Definition getImageBuffer (e : AttemptEnv) (totalPages pageIdx : Z)
  : M (option string) :=
  if (pageIdx <? 1) || (pageIdx >? totalPages) then ret None
  else
    emit (EvRender pageIdx) >>>
    match converter e pageIdx with
    | RenderThrows err => throw err
    | RenderNoPath => ret None
    | RenderFile stem buf =>
        Fs.writeFile (stem +:+ ".png") buf >>>
        ret (if (0 <? String.length buf)%nat then Some buf else None)
    end.

(* ================================================================== *)
(** ** Recognition call                                                *)
(* ================================================================== *)

(** [parsedJson?.content ?? ""] *)
Definition contentOrEmpty (content : ContentField) : string :=
  match content with
  | ContentText text => text
  | ContentUndefined | ContentNull => EmptyString
  end.

Definition errApiKey : string :=
  "Error: GEMINI_API_KEY Umgebungsvariable nicht gesetzt.".
Definition errNotString : string := "Error: Antwort war kein String.".
Definition errSyntax : string := "SyntaxError: Unexpected token in JSON".
Definition errNotJson : string :=
  "Error: Antwort konnte nicht als JSON-Objekt interpretiert werden.".
Definition errApiFailed : string := "Error: API-Anfrage fehlgeschlagen.".

(** [.map(buf => buf ? part(buf) : null).filter(Boolean)] *)
Definition imageParts (pageImageBuffers : list (option string)) : list string :=
  omap id pageImageBuffers.

(** [processPageWithGemini] (lines 108-199). *)
Definition processPageWithGemini (e : AttemptEnv)
    (pageImageBuffers : list (option string)) : M string :=
  if negb (apiKey e) then throw errApiKey
  else
    tryCatch
      (emit (EvRecognize (imageParts pageImageBuffers)) >>>
       match generateContent e with
       | ApiThrows err => throw err
       | TextMissing =>
           tryCatch (throw errNotString) (fun _ => throw errNotJson)
       | TextNotJson =>
           tryCatch (throw errSyntax) (fun _ => throw errNotJson)
       | TextJson content =>
           tryCatch (ret (contentOrEmpty content)) (fun _ => throw errNotJson)
       end)
      (fun _ => throw errApiFailed).

(* ================================================================== *)
(** ** One attempt, the retry loop and the driver                      *)
(* ================================================================== *)

Definition MAX_RETRIES : Z := 3.

(** The test both [catch] blocks apply to [error.toString()]. *)
Definition isQuotaError (errStr : string) : bool :=
  JS.includes "ApiError" errStr &&
  JS.includes "RESOURCE_EXHAUSTED" errStr &&
  JS.includes "retryDelay" errStr.

(** [errStr.match(/"retryDelay":"(\d+)s"/)]: the capture of the first
    match. *)
Definition retryDelayPrefix : string := JS.dq +:+ "retryDelay" +:+ JS.dq +:+ ":" +:+ JS.dq.

Definition matchRetryDelayAt (s : string) : option string :=
  match JS.stripPrefix retryDelayPrefix s with
  | Some rest =>
      let ds := JS.takeDigits rest in
      if JS.nonEmpty ds && JS.startsWith ("s" +:+ JS.dq) (JS.dropDigits rest)
      then Some ds else None
  | None => None
  end.

Fixpoint matchRetryDelay (s : string) : option string :=
  match matchRetryDelayAt s with
  | Some ds => Some ds
  | None =>
      match s with
      | String _ s' => matchRetryDelay s'
      | EmptyString => None
      end
  end.

(** [match ? parseInt(match[1], 10) : 20] *)
Definition retryDelaySeconds (errStr : string) : Z :=
  match matchRetryDelay errStr with
  | Some ds => JS.parseInt ds
  | None => 20
  end.

Definition errNoImage : string :=
  "Error: Seitenbild konnte nicht extrahiert werden.".

(** Lines 291-304: read [main.tex], splice or append, write back. *)
Definition recordInManifest (pageNum : Z) : M unit :=
  let* mainTexContent := Fs.readFile MAIN_TEX_PATH in
  if JS.includes endDocument mainTexContent then
    Fs.writeFile MAIN_TEX_PATH (updateManifest pageNum mainTexContent)
  else Fs.appendFile MAIN_TEX_PATH (includeLine pageNum).

(** The three slots of the context window (lines 250-252): previous,
    current and next page, rendered in this order. *)
Definition contextWindow (e : AttemptEnv) (totalPages pageNum : Z)
  : M (option string * option string * option string) :=
  let* prevBuffer := getImageBuffer e totalPages (pageNum - 1) in
  let* currBuffer := getImageBuffer e totalPages pageNum in
  let* nextBuffer := getImageBuffer e totalPages (pageNum + 1) in
  ret (prevBuffer, currBuffer, nextBuffer).

(** The body of the [try] block of one attempt (lines 234-310). *)
Definition attemptBody (e : AttemptEnv) (totalPages pageNum : Z) : M unit :=
  let* window := contextWindow e totalPages pageNum in
  let '(prevBuffer, currBuffer, nextBuffer) := window in
  match currBuffer with
  | None => throw errNoImage
  | Some _ =>
      let* ocrContent :=
        tryCatch
          (processPageWithGemini e [prevBuffer; currBuffer; nextBuffer])
          (fun errStr =>
             if isQuotaError errStr then
               emit (EvQuotaWait (retryDelaySeconds errStr)) >>> throw errStr
             else throw errStr) in
      Fs.writeFile (pageTexPath pageNum) ocrContent >>>
      recordInManifest pageNum >>>
      emit (EvPageDone pageNum)
  end.

(** How the retry loop of one page ends.  [ScriptEnded] is not a state of
    the program: the script of the collaborators was used up while the
    loop was still running. *)
Inductive PageEnd :=
  | PageSucceeded
  | PageFailed (lastError : option string)
  | ScriptEnded.

(** [for (let attempt = 1; attempt <= MAX_RETRIES; attempt++)] with its
    [catch] (lines 233-332).  Each attempt consumes one entry of the
    script. *)
Fixpoint retryLoop (envs : list AttemptEnv) (totalPages pageNum attempt : Z)
    (lastError : option string) (w : World)
  : PageEnd * list AttemptEnv * World :=
  if attempt <=? MAX_RETRIES then
    match envs with
    | [] => (ScriptEnded, [], w)
    | e :: envs' =>
        match attemptBody e totalPages pageNum w with
        | (Ok _, w') => (PageSucceeded, envs', w')
        | (Throw err, w') =>
            if isQuotaError err then
              retryLoop envs' totalPages pageNum ((attempt - 1) + 1) (Some err) w'
            else
              retryLoop envs' totalPages pageNum (attempt + 1) (Some err)
                (snd (emit (EvAttemptFailed pageNum attempt err) w'))
        end
    end
  else (PageFailed lastError, envs, w).

(** [sendPushoverNotification]: the call is what is observed; whether the
    message is delivered depends on the credentials and the network, and
    the function never throws. *)
Definition sendPushoverNotification (message : string) : M unit :=
  emit (EvNotify message).

Definition notifyMessage (pageNum : Z) : string :=
  "Seite " +:+ JS.numToString pageNum +:+ " konnte nach " +:+
  JS.numToString MAX_RETRIES +:+ " Versuchen nicht verarbeitet werden.".

(** How the page loop ends. *)
Inductive LoopEnd :=
  | AllPagesDone
  | Halted (pageNum : Z)
  | OutOfScript.

(** [for (let i = lastProcessedPage; i < totalPages; i++)] (lines 227-343).
    [fuel] bounds the number of iterations; [Z.to_nat (totalPages - i)]
    is enough (lemma [pageLoop_fuel]). *)
Fixpoint pageLoop (fuel : nat) (envs : list AttemptEnv) (totalPages i : Z)
    (w : World) : LoopEnd * World :=
  match fuel with
  | O => (AllPagesDone, w)
  | S fuel' =>
      if i <? totalPages then
        let pageNum := i + 1 in
        let w1 := snd (emit (EvPageStart pageNum totalPages) w) in
        match retryLoop envs totalPages pageNum 1 None w1 with
        | (PageSucceeded, envs', w2) => pageLoop fuel' envs' totalPages (i + 1) w2
        | (PageFailed lastError, _, w2) =>
            (Halted pageNum,
             snd ((sendPushoverNotification (notifyMessage pageNum) >>>
                   emit (EvHalt pageNum lastError)) w2))
        | (ScriptEnded, _, w2) => (OutOfScript, w2)
        end
      else (AllPagesDone, w)
  end.

(** Lines 345-351. *)
Definition finalizeDocument : M unit :=
  let* finalContent := Fs.readFile MAIN_TEX_PATH in
  (if JS.includes endDocument finalContent then ret tt
   else Fs.appendFile MAIN_TEX_PATH closingText) >>>
  emit EvFinished.

(** [processPdfDocument] for a document of [totalPages] pages, against the
    script [envs] of the collaborators.  A run whose script ends early is
    cut there, before finalization. *)
Definition processPdfDocument (envs : list AttemptEnv) (totalPages : Z)
  : M LoopEnd :=
  setupWorkspace >>>
  let* files := Fs.readdir in
  let lastProcessedPage := getLastProcessedPageByTex files in
  fun w =>
    match pageLoop (Z.to_nat (totalPages - lastProcessedPage)) envs
            totalPages lastProcessedPage w with
    | (OutOfScript, w') => (Ok OutOfScript, w')
    | (r, w') => (let* _ := finalizeDocument in ret r) w'
    end.

(* ================================================================== *)
(** ** Notions used to state the properties                            *)
(* ================================================================== *)

(** What follows a maximal digit run does not start with a digit. *)
Definition noLeadingDigit (s : string) : bool :=
  match s with
  | String c _ => negb (JS.isDigit c)
  | EmptyString => true
  end.

Definition backslash : ascii := "\"%char.

(** Every backslash of [s] is followed by a character other than [x]:
    no command [\x...] starts in [s], whatever is appended to it. *)
Fixpoint noEscape (x : ascii) (s : string) : bool :=
  match s with
  | EmptyString => true
  | String c s' =>
      (if Ascii.eqb c backslash then
         match s' with
         | String d _ => negb (Ascii.eqb d x)
         | EmptyString => false
         end
       else true) && noEscape x s'
  end.

(** The part of a manifest between the preamble and the closing marker:
    line feeds and inclusion references, here with the page indices of the
    references from left to right. *)
Inductive Body : list Z -> string -> Prop :=
  | Body_nil : Body [] EmptyString
  | Body_nl ps b : Body ps b -> Body ps (b +:+ JS.nl)
  | Body_ref ps b p :
      Body ps b -> 0 <= p -> Body (ps ++ [p]) (b +:+ includeRef p).

(** A manifest the driver has produced: the preamble, a body, and the
    closing marker with its line feed if the manifest is closed. *)
Definition Manifest (ps : list Z) (closed : bool) (content : string) : Prop :=
  exists b,
    Body ps b /\
    content = initialContent +:+ b +:+
              (if closed then endDocument +:+ JS.nl else EmptyString).

(** Strictly increasing lists of page indices. *)
Definition increasing (ps : list Z) : Prop := StronglySorted Z.lt ps.

Definition isRenderEvent (ev : Event) : bool :=
  match ev with EvRender _ => true | _ => false end.

(** The changes that building a context window can make: raster
    artifacts, whose names end in [.png], and render requests. *)
Definition rasterOnly (w w1 : World) : Prop :=
  (forall f, (forall stem, f <> stem +:+ ".png") -> dir w1 !! f = dir w !! f) /\
  (forall f, is_Some (dir w !! f) -> is_Some (dir w1 !! f)) /\
  exists evs, log w1 = log w ++ evs /\ Forall (fun ev => isRenderEvent ev = true) evs.

(** The listing [fs.readdir] returns in world [w]. *)
Definition listing (w : World) : list string := map fst (map_to_list (dir w)).

(** [main.tex] holds a manifest with the references [ps], strictly
    increasing, and the fragment of every referenced page exists. *)
Definition Assembled (w : World) (ps : list Z) (closed : bool) : Prop :=
  (exists content, dir w !! MAIN_TEX_PATH = Some content /\ Manifest ps closed content) /\
  increasing ps /\
  (forall p, In p ps -> is_Some (dir w !! pageTexPath p)).

(** If there is a [main.tex] at all, it is an assembled one. *)
Definition WorldInv (w : World) : Prop :=
  forall content, dir w !! MAIN_TEX_PATH = Some content ->
    exists ps closed, Assembled w ps closed.

(** The page units with an index below [s] are the same in both worlds. *)
Definition frameBelow (s : Z) (w w' : World) : Prop :=
  forall f, isPageTex f = true -> pageNumberOf f < s -> dir w' !! f = dir w !! f.

(** No file disappears. *)
Definition persists (w w' : World) : Prop :=
  forall f, is_Some (dir w !! f) -> is_Some (dir w' !! f).

(** The world in which the page loop starts: [main.tex] exists. *)
Definition afterSetup (w : World) : World :=
  match dir w !! MAIN_TEX_PATH with
  | Some _ => w
  | None => putFile MAIN_TEX_PATH initialContent w
  end.

(** The world a run leaves when the process is killed during the first
    attempt for its start page, right after the fragment has been written
    (line 289) and before [main.tex] is read.  (The raster artifacts and
    the trace of that attempt are left out; nothing below depends on
    them.) *)
Definition interrupted (text : string) (w : World) : World :=
  putFile (pageTexPath (startPage (listing w))) text (afterSetup w).

(** The states the output directory can be in: empty, after a run of the
    driver (complete, halted, or cut where the script ends), and after a
    run that was killed between the two writes of a page. *)
Inductive Reachable : World -> Prop :=
  | Reachable_empty : Reachable emptyWorld
  | Reachable_run w envs totalPages :
      Reachable w -> Reachable (snd (processPdfDocument envs totalPages w))
  | Reachable_interrupted w text :
      Reachable w -> Reachable (interrupted text w).

(** The pages whose processing a trace reports as begun, in order. *)
Definition pagesStarted (evs : list Event) : list Z :=
  omap (fun ev => match ev with EvPageStart p _ => Some p | _ => None end) evs.

(** The pages a trace reports as recorded, in order. *)
Definition pagesDone (evs : list Event) : list Z :=
  omap (fun ev => match ev with EvPageDone p => Some p | _ => None end) evs.

(** The render requests of a trace, in order. *)
Definition renderRequests (evs : list Event) : list Z :=
  omap (fun ev => match ev with EvRender i => Some i | _ => None end) evs.

(** The quota waits of a trace. *)
Definition quotaWaits (evs : list Event) : list Z :=
  omap (fun ev => match ev with EvQuotaWait s => Some s | _ => None end) evs.

(** The events one attempt can produce by itself. *)
Definition isAttemptEvent (ev : Event) : bool :=
  match ev with
  | EvRender _ | EvRecognize _ | EvPageDone _ => true
  | _ => false
  end.

(** The events the retry loop of page [n] can produce. *)
Definition isRetryEvent (n : Z) (ev : Event) : bool :=
  match ev with
  | EvRender _ | EvRecognize _ => true
  | EvPageDone p => p =? n
  | EvAttemptFailed p _ _ => p =? n
  | _ => false
  end.

(** [l] counts up from [s]: [s; s+1; s+2; ...]. *)
Fixpoint countsFrom (s : Z) (l : list Z) : Prop :=
  match l with
  | [] => True
  | x :: l' => x = s /\ countsFrom (s + 1) l'
  end.

(** The attempt numbers of the counted failures a trace reports. *)
Definition failedAttempts (evs : list Event) : list Z :=
  omap (fun ev => match ev with EvAttemptFailed _ k _ => Some k | _ => None end) evs.

(** The errors of the renderer do not read like quota errors of the
    service. *)
Definition plainRenderer (e : AttemptEnv) : Prop :=
  forall j err, converter e j = RenderThrows err -> isQuotaError err = false.

(** The slot a render outcome that does not throw fills: the image, or
    nothing when there is no path or the image has length zero. *)
Definition slotOf (o : RenderOutcome) : option string :=
  match o with
  | RenderFile _ buf => if (0 <? String.length buf)%nat then Some buf else None
  | _ => None
  end.

(** The world after the renderer was asked for page [i] and answered [o]
    without throwing. *)
Definition rendered (i : Z) (o : RenderOutcome) (w : World) : World :=
  match o with
  | RenderFile stem buf => putFile (stem +:+ ".png") buf (addEvents [EvRender i] w)
  | _ => addEvents [EvRender i] w
  end.

(** The world a successful attempt leaves: recognition was called with
    [imgs], the fragment [text] and the manifest were written. *)
Definition recorded (n : Z) (imgs : list string) (text content : string)
    (w1 : World) : World :=
  addEvents [EvPageDone n]
    (putFile MAIN_TEX_PATH (updateManifest n content)
       (putFile (pageTexPath n) text (addEvents [EvRecognize imgs] w1))).

(** The counted failures of page [p] a trace reports, by attempt number. *)
Definition failedAttemptsOf (p : Z) (evs : list Event) : list Z :=
  omap (fun ev => match ev with
                  | EvAttemptFailed q k _ => if q =? p then Some k else None
                  | _ => None
                  end) evs.

(* ================================================================== *)
(** ** Scripts used in the examples                                    *)
(* ================================================================== *)

(** A renderer that produces a three-byte image for every page. *)
Definition pngOf (i : Z) : RenderOutcome :=
  RenderFile ("untitled." +:+ JS.numToString i) "PNG".

(** An attempt in which everything works and the service answers with
    [{ content: text }]. *)
Definition okEnv (text : string) : AttemptEnv :=
  {| converter := pngOf;
     apiKey := true;
     generateContent := TextJson (ContentText text) |}.

(** The text of a quota error of the service: status RESOURCE_EXHAUSTED
    and a retry delay of five seconds. *)
Definition quotaErrorText : string :=
  "ApiError: {" +:+ JS.dq +:+ "error" +:+ JS.dq +:+ ":{" +:+
  JS.dq +:+ "code" +:+ JS.dq +:+ ":429," +:+
  JS.dq +:+ "status" +:+ JS.dq +:+ ":" +:+ JS.dq +:+ "RESOURCE_EXHAUSTED" +:+ JS.dq +:+ "," +:+
  JS.dq +:+ "details" +:+ JS.dq +:+ ":[{" +:+
  JS.dq +:+ "retryDelay" +:+ JS.dq +:+ ":" +:+ JS.dq +:+ "5s" +:+ JS.dq +:+ "}]}}".

(** An attempt in which the service is out of quota. *)
Definition quotaEnv : AttemptEnv :=
  {| converter := pngOf; apiKey := true; generateContent := ApiThrows quotaErrorText |}.

(** An attempt in which the service answers with the JSON text [{}]. *)
Definition emptyObjectEnv : AttemptEnv :=
  {| converter := pngOf; apiKey := true; generateContent := TextJson ContentUndefined |}.

(** An attempt in which the service answers with text that is not JSON. *)
Definition notJsonEnv : AttemptEnv :=
  {| converter := pngOf; apiKey := true; generateContent := TextNotJson |}.

(** An attempt in which the renderer returns images of length zero for
    the pages in [empty] and three-byte images for the others. *)
Definition emptyImageEnv (empty : list Z) (text : string) : AttemptEnv :=
  {| converter := fun i =>
       if existsb (Z.eqb i) empty
       then RenderFile ("untitled." +:+ JS.numToString i) EmptyString
       else pngOf i;
     apiKey := true;
     generateContent := TextJson (ContentText text) |}.

(** A directory with the page units 2 and 10, the manifest, a raster
    artifact and a file that only looks like a page unit. *)
Definition dirC1 : World :=
  putFile "page2.tex" "b" (putFile "untitled.3.png" "PNG"
    (putFile "page10.tex" "j" (putFile "main.tex" initialContent
      (putFile "page5.tex.bak" "x" emptyWorld)))).

(** The script in which the service is out of quota three times in a row
    and would answer the fourth call. *)
Definition quotaScript : list AttemptEnv :=
  [quotaEnv; quotaEnv; quotaEnv; okEnv "text"].

(** The state two successful pages leave behind. *)
Definition worldTwoPages : World :=
  snd (processPdfDocument [okEnv "a"; okEnv "b"] 2 emptyWorld).

Definition manifestTwoPages : string :=
  default EmptyString (dir worldTwoPages !! MAIN_TEX_PATH).

(** The state one successful page leaves behind; the same after a second
    run was killed between the two writes of page 2; and what a third run
    over three pages makes of it. *)
Definition worldOnePage : World :=
  snd (processPdfDocument [okEnv "a"] 1 emptyWorld).

Definition worldInterrupted : World := interrupted "b" worldOnePage.

Definition worldAfterGap : World :=
  snd (processPdfDocument [okEnv "c"] 3 worldInterrupted).

(** An attempt in which the service fails for another reason. *)
Definition faultEnv : AttemptEnv :=
  {| converter := pngOf; apiKey := true;
     generateContent := ApiThrows "ApiError: 500 INTERNAL" |}.

(* ================================================================== *)
(** ** The retry budget, as the counting of failures                   *)
(* ================================================================== *)

(** The number of the errors in [errs] that do not pass the quota test. *)
Definition nonQuotaFailures (errs : list string) : Z :=
  Z.of_nat (length (List.filter (fun err => negb (isQuotaError err)) errs)).

(** The value of [lastError] after the errors [errs] have been caught. *)
Definition lastErrorAfter (lastError : option string) (errs : list string)
  : option string :=
  fold_left (fun _ err => Some err) errs lastError.

(** [FailedAttempts N n a w es errs w']: the attempts [es] for page [n]
    are made one after the other, the first under the attempt number [a]
    in world [w]; each of them fails, [errs] are their errors in order,
    and [w'] is the world they leave.  A failure whose error does not pass
    the quota test is reported under the number of the attempt, and the
    next attempt has the next number; a failure whose error passes the
    test is not reported, and the next attempt has the same number. *)
Inductive FailedAttempts (N n : Z)
  : Z -> World -> list AttemptEnv -> list string -> World -> Prop :=
  | FailedAttempts_nil a w : FailedAttempts N n a w [] [] w
  | FailedAttempts_counted a w e err w1 es errs w' :
      attemptBody e N n w = (Throw err, w1) ->
      isQuotaError err = false ->
      FailedAttempts N n (a + 1) (addEvents [EvAttemptFailed n a err] w1) es errs w' ->
      FailedAttempts N n a w (e :: es) (err :: errs) w'
  | FailedAttempts_quota a w e err w1 es errs w' :
      attemptBody e N n w = (Throw err, w1) ->
      isQuotaError err = true ->
      FailedAttempts N n a w1 es errs w' ->
      FailedAttempts N n a w (e :: es) (err :: errs) w'.


(** An attempt without the API key. *)
Definition noKeyEnv : AttemptEnv :=
  {| converter := pngOf; apiKey := false;
     generateContent := TextJson (ContentText "x") |}.

(** An attempt in which the renderer fails with an error whose text reads
    like a quota error of the service. *)
Definition quotaRenderEnv : AttemptEnv :=
  {| converter := fun _ => RenderThrows quotaErrorText; apiKey := true;
     generateContent := TextJson (ContentText "x") |}.

(* ================================================================== *)
(** ** The operator notification ([sendPushoverNotification])          *)
(* ================================================================== *)

Module Pushover.

(** What [axios.post] does. *)
Inductive PostOutcome :=
  | PostResolves
  | PostRejects (err : string).

(** The two environment variables and the network. *)
Record Env := mkPushover {
  PUSHOVER_USER_KEY : option string;
  PUSHOVER_API_TOKEN : option string;
  post : PostOutcome
}.

(** What the function does that can be observed, in program order. *)
Inductive Action :=
  | Warn (text : string)                       (* console.warn(text) *)
  | Post (url token user message : string)     (* axios.post(url, { token, user, message }) *)
  | Log (text : string)                        (* console.log(text) *)
  | Error (text err : string).                 (* console.error(text, err) *)

(** Truthiness of [process.env.X]: unset and the empty string are falsy. *)
Definition truthy (v : option string) : bool :=
  match v with
  | Some s => JS.nonEmpty s
  | None => false
  end.

Definition axiosPost (env : Env) (url token user message : string)
  : Result unit * list Action :=
  match post env with
  | PostResolves => (Ok tt, [Post url token user message])
  | PostRejects err => (Throw err, [Post url token user message])
  end.

(** [sendPushoverNotification] (lines 16-33). *)
Definition sendPushoverNotification (env : Env) (message : string)
  : Result unit * list Action :=
  let pushoverUserKey := PUSHOVER_USER_KEY env in
  let pushoverApiToken := PUSHOVER_API_TOKEN env in
  if negb (truthy pushoverUserKey) || negb (truthy pushoverApiToken) then
    (Ok tt, [Warn "Pushover credentials not set in environment variables."])
  else
    match axiosPost env "https://api.pushover.net/1/messages.json"
            (default EmptyString pushoverApiToken)
            (default EmptyString pushoverUserKey) message with
    | (Ok _, acts) => (Ok tt, acts ++ [Log "Pushover notification sent."])
    | (Throw err, acts) =>
        (Ok tt, acts ++ [Error "Failed to send Pushover notification:" err])
    end.

(** The requests sent to the notification service. *)
Definition posts (acts : list Action) : list (string * string * string * string) :=
  omap (fun a => match a with
                 | Post url token user message => Some (url, token, user, message)
                 | _ => None
                 end) acts.

End Pushover.

(* ================================================================== *)
(** ** The script as a whole                                           *)
(* ================================================================== *)





(* ================================================================== *)
(** ** The resume tracker of the earlier revision                      *)
(* ================================================================== *)

(** [mainTexContent.match(/\\include{page(\d+)}/g) || []]: the matched
    texts, left to right. *)
Fixpoint includeStatementsFrom (skip : nat) (s : string) : list string :=
  match s with
  | EmptyString => []
  | String _ s' =>
      match skip with
      | S k => includeStatementsFrom k s'
      | O =>
          match matchInclude s with
          | Some (_, len) => JS.take len s :: includeStatementsFrom (Nat.pred len) s'
          | None => includeStatementsFrom 0 s'
          end
      end
  end.

(** Lines 82-86 of [src/unnamed/part_000]: the number in the matched
    text, [0] where there is none. *)
Definition pageOfInclude (lastInclude : string) : Z :=
  if negb (JS.nonEmpty lastInclude) then 0
  else
    match JS.firstDigitRun lastInclude with
    | Some ds => if JS.nonEmpty ds then JS.parseInt ds else 0
    | None => 0
    end.

(** [getLastProcessedPage] of [src/unnamed/part_000] (lines 73-91). *)
Definition getLastProcessedPage : M Z :=
  tryCatch
    (let* mainTexContent := Fs.readFile MAIN_TEX_PATH in
     let includeStatements := includeStatementsFrom 0 mainTexContent in
     match last includeStatements with
     | None => ret 0
     | Some lastInclude => ret (pageOfInclude lastInclude)
     end)
    (fun _ => ret 0).

(* ================================================================== *)
(** ** The driver of the earlier revision                              *)
(* ================================================================== *)

(** [src/unnamed/part_000]: one try for each page, no notification; the
    raster artifact is deleted once it has been read; a page without an
    image is passed over. *)
Module Earlier.

(** [fsExtra.unlinkSync(path)]. *)
Definition unlinkSync (name : string) : M unit :=
  fun w =>
    match dir w !! name with
    | Some _ => (Ok tt, {| dir := delete name (dir w); log := log w |})
    | None => (Throw ("Error: ENOENT: no such file or directory, unlink " +:+ name), w)
    end.

(** [getImageBuffer] (lines 227-242). *)
Definition getImageBuffer (e : AttemptEnv) (totalPages pageIdx : Z)
  : M (option string) :=
  if (pageIdx <? 1) || (pageIdx >? totalPages) then ret None
  else
    emit (EvRender pageIdx) >>>
    match converter e pageIdx with
    | RenderThrows err => throw err
    | RenderNoPath => ret None
    | RenderFile stem buf =>
        Fs.writeFile (stem +:+ ".png") buf >>>
        tryCatch (unlinkSync (stem +:+ ".png")) (fun _ => ret tt) >>>
        ret (if (0 <? String.length buf)%nat then Some buf else None)
    end.

(** Lines 244-246. *)
Definition contextWindow (e : AttemptEnv) (totalPages pageNum : Z)
  : M (option string * option string * option string) :=
  let* prevBuffer := getImageBuffer e totalPages (pageNum - 1) in
  let* currBuffer := getImageBuffer e totalPages pageNum in
  let* nextBuffer := getImageBuffer e totalPages (pageNum + 1) in
  ret (prevBuffer, currBuffer, nextBuffer).

(** [processPageWithGemini] (lines 110-196): there is no test of the type
    of the text; a text that is missing goes to [JSON.parse], which
    rejects it. *)
Definition processPageWithGemini (e : AttemptEnv)
    (pageImageBuffers : list (option string)) : M string :=
  if negb (apiKey e) then throw errApiKey
  else
    tryCatch
      (emit (EvRecognize (imageParts pageImageBuffers)) >>>
       match generateContent e with
       | ApiThrows err => throw err
       | TextMissing | TextNotJson =>
           tryCatch (throw errSyntax) (fun _ => throw errNotJson)
       | TextJson content =>
           tryCatch (ret (contentOrEmpty content)) (fun _ => throw errNotJson)
       end)
      (fun _ => throw errApiFailed).

(** How the [try] block ends for a page when it does not throw: at its
    end, or at [continue]. *)
Inductive PageOutcome :=
  | PageRecorded
  | PagePassedOver.

(** The body of the [try] block (lines 225-280). *)
Definition pageBody (e : AttemptEnv) (totalPages pageNum : Z) : M PageOutcome :=
  let* window := contextWindow e totalPages pageNum in
  let '(prevBuffer, currBuffer, nextBuffer) := window in
  match currBuffer with
  | None => ret PagePassedOver
  | Some _ =>
      let* ocrContent :=
        processPageWithGemini e [prevBuffer; currBuffer; nextBuffer] in
      Fs.writeFile (pageTexPath pageNum) ocrContent >>>
      recordInManifest pageNum >>>
      emit (EvPageDone pageNum) >>>
      ret PageRecorded
  end.

(** [for (let i = lastProcessedPage; i < totalPages; i++)] (lines
    221-288): [continue] and the end of the block go on with the next
    page, the [catch] block ends the loop.  Each page consumes one entry
    of the script. *)
Fixpoint pageLoop (fuel : nat) (envs : list AttemptEnv) (totalPages i : Z)
    (w : World) : LoopEnd * World :=
  match fuel with
  | O => (AllPagesDone, w)
  | S fuel' =>
      if i <? totalPages then
        let pageNum := i + 1 in
        let w1 := snd (emit (EvPageStart pageNum totalPages) w) in
        match envs with
        | [] => (OutOfScript, w1)
        | e :: envs' =>
            match pageBody e totalPages pageNum w1 with
            | (Ok _, w2) => pageLoop fuel' envs' totalPages (i + 1) w2
            | (Throw err, w2) =>
                (Halted pageNum, snd (emit (EvHalt pageNum (Some err)) w2))
            end
        end
      else (AllPagesDone, w)
  end.

(** [processPdfDocument] (lines 201-297). *)
Definition processPdfDocument (envs : list AttemptEnv) (totalPages : Z)
  : M LoopEnd :=
  setupWorkspace >>>
  let* files := Fs.readdir in
  let lastProcessedPage := getLastProcessedPageByTex files in
  fun w =>
    match pageLoop (Z.to_nat (totalPages - lastProcessedPage)) envs
            totalPages lastProcessedPage w with
    | (OutOfScript, w') => (Ok OutOfScript, w')
    | (r, w') => (let* _ := finalizeDocument in ret r) w'
    end.

End Earlier.

(* ================================================================== *)
(** ** Further notions used to state properties                        *)
(* ================================================================== *)

(** The calls of the recognition service a trace reports, each with the
    images it was given. *)
Definition recognitions (evs : list Event) : list (list string) :=
  omap (fun ev => match ev with EvRecognize imgs => Some imgs | _ => None end) evs.

(** [s; s+1; ...], [n] numbers. *)
Definition pagesFrom (s : Z) (n : nat) : list Z :=
  List.map (fun k => s + Z.of_nat k) (seq 0 n).

(** The text an attempt records when the service answers with JSON. *)
Definition answerOf (e : AttemptEnv) : string :=
  match generateContent e with
  | TextJson v => contentOrEmpty v
  | _ => EmptyString
  end.

(** An attempt for page [n] in which nothing fails: the key is set, the
    renderer does not throw and yields an image for page [n], and the
    service answers with JSON. *)
Definition succeeds (e : AttemptEnv) (n : Z) : Prop :=
  apiKey e = true /\
  (forall j err, converter e j <> RenderThrows err) /\
  is_Some (slotOf (converter e n)) /\
  exists v, generateContent e = TextJson v.


(** Whether the character [c] occurs in [s]. *)
Fixpoint hasChar (c : ascii) (s : string) : bool :=
  match s with
  | String d s' => Ascii.eqb c d || hasChar c s'
  | EmptyString => false
  end.

(** The characters that end every attempt to match the reference pattern
    [/\\include{page(\d+)}/] behind its first position. *)
Definition breaksInclude (c : ascii) : Prop :=
  JS.isDigit c = false /\ hasChar c "include{page}" = false.

(** The manifest after the pages [done] have been recorded one after the
    other. *)
Definition recordAll (done : list Z) (content : string) : string :=
  fold_left (fun c q => updateManifest q c) done content.

(** The manifest a run starts with: the one found, or the new one. *)
Definition manifestAtStart (w : World) : string :=
  default initialContent (dir w !! MAIN_TEX_PATH).

(** The failures a trace reports: page, attempt number and error. *)
Definition reportedFailures (evs : list Event) : list (Z * Z * string) :=
  omap (fun ev => match ev with
                  | EvAttemptFailed p k err => Some (p, k, err)
                  | _ => None
                  end) evs.

(** An attempt in which the renderer works (it does not throw, and it
    yields an image of page [n]). *)
Definition renders (e : AttemptEnv) (n : Z) : Prop :=
  (forall j err, converter e j <> RenderThrows err) /\
  is_Some (slotOf (converter e n)).

(** An attempt in which the renderer fails for every page with an error
    whose text passes the quota test. *)
Definition rendererOutOfQuota (e : AttemptEnv) : Prop :=
  forall j, exists err, converter e j = RenderThrows err /\ isQuotaError err = true.


(** An attempt in which the renderer does not throw and yields no image
    of page [n]: no file, or a file of length zero. *)
Definition withoutImage (e : AttemptEnv) (n : Z) : Prop :=
  (forall j err, converter e j <> RenderThrows err) /\
  slotOf (converter e n) = None.

(* ================================================================== *)
(** * Facts about the string primitives                                *)
(* ================================================================== *)

(** [simpl] may unfold an append whose first argument starts with a
    constructor. *)
#[local] Arguments String.append !s1 s2.

Section StringFacts.

Implicit Types s t p m : string.

Lemma app_assoc_s s t u : (s +:+ t) +:+ u = s +:+ t +:+ u.
Proof. induction s as [|c s IH]; simpl; [reflexivity | now rewrite IH]. Qed.

Lemma app_nil_r_s s : s +:+ EmptyString = s.
Proof. induction s as [|c s IH]; simpl; [reflexivity | now rewrite IH]. Qed.

Lemma length_app_s s t :
  String.length (s +:+ t) = (String.length s + String.length t)%nat.
Proof. induction s as [|c s IH]; simpl; [reflexivity | now rewrite IH]. Qed.

Lemma stripPrefix_app p s : JS.stripPrefix p (p +:+ s) = Some s.
Proof.
  induction p as [|a p IH]; simpl; [reflexivity|].
  now rewrite Ascii.eqb_refl.
Qed.

Lemma stripPrefix_Some p s r : JS.stripPrefix p s = Some r -> s = p +:+ r.
Proof.
  revert s; induction p as [|a p IH]; intros s H; simpl in *.
  - now inversion H.
  - destruct s as [|b s]; [discriminate|].
    destruct (Ascii.eqb_spec a b) as [->|]; [|discriminate].
    now rewrite (IH _ H).
Qed.

Lemma startsWith_app p s : JS.startsWith p (p +:+ s) = true.
Proof. unfold JS.startsWith. now rewrite stripPrefix_app. Qed.

Lemma startsWith_true p s : JS.startsWith p s = true -> exists r, s = p +:+ r.
Proof.
  unfold JS.startsWith. destruct (JS.stripPrefix p s) eqn:E; [|discriminate].
  intros _. eexists. eapply stripPrefix_Some, E.
Qed.

(** A pattern that starts with [a] cannot match a string that starts
    with another character. *)
Lemma startsWith_head a p b s :
  a <> b -> JS.startsWith (String a p) (String b s) = false.
Proof.
  intros Hne. unfold JS.startsWith. simpl.
  destruct (Ascii.eqb_spec a b); [contradiction | reflexivity].
Qed.

Lemma takeDigits_dropDigits s : JS.takeDigits s +:+ JS.dropDigits s = s.
Proof.
  induction s as [|c s IH]; simpl; [reflexivity|].
  destruct (JS.isDigit c); simpl; [now rewrite IH | reflexivity].
Qed.

Lemma allDigits_takeDigits s : JS.allDigits (JS.takeDigits s) = true.
Proof.
  induction s as [|c s IH]; simpl; [reflexivity|].
  destruct (JS.isDigit c) eqn:E; simpl; [now rewrite E | reflexivity].
Qed.

Lemma noLeadingDigit_dropDigits s : noLeadingDigit (JS.dropDigits s) = true.
Proof.
  induction s as [|c s IH]; simpl; [reflexivity|].
  destruct (JS.isDigit c) eqn:E; simpl; [exact IH | now rewrite E].
Qed.

Lemma takeDigits_app ds s :
  JS.allDigits ds = true -> noLeadingDigit s = true ->
  JS.takeDigits (ds +:+ s) = ds.
Proof.
  intros Hd Hs. induction ds as [|c ds IH]; simpl in *.
  - destruct s as [|c s]; simpl in *; [reflexivity|].
    now destruct (JS.isDigit c).
  - apply andb_true_iff in Hd as [Hc Hd]. rewrite Hc. now rewrite IH.
Qed.

Lemma dropDigits_app ds s :
  JS.allDigits ds = true -> noLeadingDigit s = true ->
  JS.dropDigits (ds +:+ s) = s.
Proof.
  intros Hd Hs. induction ds as [|c ds IH]; simpl in *.
  - destruct s as [|c s]; simpl in *; [reflexivity|].
    now destruct (JS.isDigit c).
  - apply andb_true_iff in Hd as [Hc Hd]. rewrite Hc. now apply IH.
Qed.

Lemma parseDigits_allDigits_app acc ds s :
  JS.allDigits ds = true -> noLeadingDigit s = true ->
  JS.parseDigits acc (ds +:+ s) = JS.parseDigits acc ds.
Proof.
  intros Hd Hs. revert acc. induction ds as [|c ds IH]; intros acc; simpl in *.
  - destruct s as [|c s]; simpl in *; [reflexivity|].
    now destruct (JS.isDigit c).
  - apply andb_true_iff in Hd as [Hc Hd]. rewrite Hc. now apply IH.
Qed.

(** *** Decimal numerals *)

Lemma allDigits_string_of_uint d :
  JS.allDigits (NilEmpty.string_of_uint d) = true.
Proof. induction d; simpl; auto. Qed.

Lemma parseDigits_string_of_uint_pos d acc :
  JS.parseDigits (Z.pos acc) (NilEmpty.string_of_uint d)
  = Z.pos (Pos.of_uint_acc d acc).
Proof.
  revert acc. induction d; intros acc; simpl; try reflexivity;
    unfold JS.digitVal; simpl;
    match goal with
    | |- JS.parseDigits ?z _ = _ =>
        match goal with
        | |- _ = Z.pos (Pos.of_uint_acc _ ?q) =>
            replace z with (Z.pos q) by lia
        end
    end; apply IHd.
Qed.

Lemma parseDigits_string_of_uint d :
  JS.parseDigits 0 (NilEmpty.string_of_uint d) = Z.of_N (Pos.of_uint d).
Proof.
  induction d; simpl; try reflexivity; unfold JS.digitVal; simpl;
    try apply IHd; apply (parseDigits_string_of_uint_pos d).
Qed.

Lemma numToString_pos (p : positive) :
  JS.numToString (Z.pos p) = NilEmpty.string_of_uint (Pos.to_uint p).
Proof.
  unfold JS.numToString; simpl.
  pose proof (Unsigned.to_uint_nonnil p) as H.
  now destruct (Pos.to_uint p).
Qed.

Lemma allDigits_numToString n : 0 <= n -> JS.allDigits (JS.numToString n) = true.
Proof.
  intros Hn. destruct n as [|p|p]; [reflexivity| |lia].
  rewrite numToString_pos. apply allDigits_string_of_uint.
Qed.

Lemma nonEmpty_numToString n : JS.nonEmpty (JS.numToString n) = true.
Proof.
  destruct n as [|p|p]; [reflexivity| |reflexivity].
  rewrite numToString_pos.
  pose proof (Unsigned.to_uint_nonnil p) as H.
  now destruct (Pos.to_uint p).
Qed.

(** [parseInt] reads back what a template literal printed. *)
Lemma parseInt_numToString n : 0 <= n -> JS.parseInt (JS.numToString n) = n.
Proof.
  intros Hn. destruct n as [|p|p]; [reflexivity| |lia].
  rewrite numToString_pos. unfold JS.parseInt.
  rewrite parseDigits_string_of_uint, Unsigned.of_to. reflexivity.
Qed.

Lemma parseDigits_nonneg s acc : 0 <= acc -> 0 <= JS.parseDigits acc s.
Proof.
  revert acc. induction s as [|c s IH]; intros acc Hacc; simpl; [exact Hacc|].
  destruct (JS.isDigit c) eqn:E; [|exact Hacc].
  apply IH. unfold JS.isDigit in E. apply andb_true_iff in E as [E1 E2].
  apply N.leb_le in E1. unfold JS.digitVal. lia.
Qed.

Lemma digits_nonEmpty_app ds s :
  JS.nonEmpty ds = true -> JS.nonEmpty (ds +:+ s) = true.
Proof. now destruct ds. Qed.

End StringFacts.

(* ================================================================== *)
(** * The resume tracker                                               *)
(* ================================================================== *)

Section ResumeTracker.

Lemma firstDigitRun_digit c s :
  JS.isDigit c = true ->
  JS.firstDigitRun (String c s) = Some (JS.takeDigits (String c s)).
Proof. intros H. simpl. now rewrite H. Qed.

Lemma firstDigitRun_digits ds s :
  JS.nonEmpty ds = true -> JS.allDigits ds = true ->
  JS.firstDigitRun (ds +:+ s) = Some (JS.takeDigits (ds +:+ s)).
Proof.
  destruct ds as [|c ds]; [discriminate|]. intros _ H. simpl in H.
  apply andb_true_iff in H as [Hc _].
  change (String c ds +:+ s) with (String c (ds +:+ s)).
  now apply firstDigitRun_digit.
Qed.

(** A name accepted by the pattern is [page], digits, [.tex]. *)
Lemma isPageTex_inv f :
  isPageTex f = true ->
  exists ds, JS.nonEmpty ds = true /\ JS.allDigits ds = true /\
             f = "page" +:+ ds +:+ ".tex".
Proof.
  unfold isPageTex. destruct (JS.stripPrefix "page" f) as [rest|] eqn:E; [|discriminate].
  intros H. apply andb_true_iff in H as [Hne Heq].
  apply String.eqb_eq in Heq. apply stripPrefix_Some in E.
  exists (JS.takeDigits rest). split; [exact Hne|]. split; [apply allDigits_takeDigits|].
  rewrite E. f_equal. rewrite <- Heq. symmetry. apply takeDigits_dropDigits.
Qed.

Lemma isPageTex_intro ds :
  JS.nonEmpty ds = true -> JS.allDigits ds = true ->
  isPageTex ("page" +:+ ds +:+ ".tex") = true.
Proof.
  intros Hne Hd. unfold isPageTex. rewrite stripPrefix_app.
  rewrite takeDigits_app, dropDigits_app by (auto; reflexivity).
  now rewrite Hne.
Qed.

Lemma pageNumberOf_digits ds :
  JS.nonEmpty ds = true -> JS.allDigits ds = true ->
  pageNumberOf ("page" +:+ ds +:+ ".tex") = JS.parseInt ds.
Proof.
  intros Hne Hd. unfold pageNumberOf.
  change (JS.firstDigitRun ("page" +:+ ds +:+ ".tex"))
    with (JS.firstDigitRun (ds +:+ ".tex")).
  rewrite firstDigitRun_digits by assumption.
  now rewrite takeDigits_app by (auto; reflexivity).
Qed.

(** The non-null assertion of line 99 never fails on a filtered name. *)
Lemma firstDigitRun_pageTex f :
  isPageTex f = true -> exists ds, JS.firstDigitRun f = Some ds.
Proof.
  intros H. apply isPageTex_inv in H as (ds & Hne & Hd & ->).
  change (JS.firstDigitRun ("page" +:+ ds +:+ ".tex"))
    with (JS.firstDigitRun (ds +:+ ".tex")).
  rewrite firstDigitRun_digits by assumption. eauto.
Qed.

Lemma isPageTex_pageTexPath n : 0 <= n -> isPageTex (pageTexPath n) = true.
Proof.
  intros Hn. apply isPageTex_intro;
    [apply nonEmpty_numToString | now apply allDigits_numToString].
Qed.

Lemma pageNumberOf_pageTexPath n : 0 <= n -> pageNumberOf (pageTexPath n) = n.
Proof.
  intros Hn. unfold pageTexPath. rewrite pageNumberOf_digits.
  - now apply parseInt_numToString.
  - apply nonEmpty_numToString.
  - now apply allDigits_numToString.
Qed.

Lemma pageNumberOf_nonneg f : 0 <= pageNumberOf f.
Proof.
  unfold pageNumberOf. destruct (JS.firstDigitRun f); [|lia].
  now apply parseDigits_nonneg.
Qed.

Lemma pageTexPath_inj n k : 0 <= n -> 0 <= k -> pageTexPath n = pageTexPath k -> n = k.
Proof.
  intros Hn Hk E. rewrite <- (pageNumberOf_pageTexPath n Hn), E.
  now apply pageNumberOf_pageTexPath.
Qed.

(** Two strings with equally long tails agree on the tails. *)
Lemma app_tail_eq (a b x y : string) :
  a +:+ x = b +:+ y -> String.length x = String.length y -> x = y.
Proof.
  revert b. induction a as [|c a IH]; intros b E L.
  - destruct b as [|d b]; [exact E|]. exfalso.
    apply (f_equal String.length) in E. simpl in E.
    rewrite length_app_s in E. lia.
  - destruct b as [|d b].
    + exfalso. apply (f_equal String.length) in E. simpl in E.
      rewrite length_app_s in E. lia.
    + simpl in E. injection E as _ E. now apply (IH b).
Qed.

(** Names that do not end in [.tex] are not page units: the raster
    artifacts of the renderer in particular. *)
Lemma isPageTex_png stem : isPageTex (stem +:+ ".png") = false.
Proof.
  destruct (isPageTex (stem +:+ ".png")) eqn:E; [|reflexivity].
  apply isPageTex_inv in E as (ds & _ & _ & E).
  rewrite <- app_assoc_s in E.
  apply app_tail_eq in E; [discriminate | reflexivity].
Qed.

Lemma isPageTex_main : isPageTex MAIN_TEX_PATH = false.
Proof. reflexivity. Qed.

Lemma png_not_main stem : stem +:+ ".png" <> MAIN_TEX_PATH.
Proof.
  intros E. change MAIN_TEX_PATH with ("main" +:+ ".tex") in E.
  apply app_tail_eq in E; [discriminate | reflexivity].
Qed.

Lemma pageTexPath_not_main n : pageTexPath n <> MAIN_TEX_PATH.
Proof. unfold pageTexPath, MAIN_TEX_PATH. simpl. discriminate. Qed.

Lemma png_not_pageTexPath stem n : 0 <= n -> stem +:+ ".png" <> pageTexPath n.
Proof.
  intros Hn E. pose proof (isPageTex_pageTexPath n Hn) as H.
  rewrite <- E, isPageTex_png in H. discriminate.
Qed.

(** *** [Math.max] *)

Lemma mathMax_ge_first n ns : n <= JS.mathMax n ns.
Proof.
  unfold JS.mathMax. revert n. induction ns as [|k ns IH]; intros n; simpl; [lia|].
  specialize (IH (Z.max n k)). lia.
Qed.

Lemma mathMax_ge n ns k : In k ns -> k <= JS.mathMax n ns.
Proof.
  unfold JS.mathMax. revert n. induction ns as [|j ns IH]; intros n [].
  - subst. simpl. pose proof (mathMax_ge_first (Z.max n k) ns) as H.
    unfold JS.mathMax in H. lia.
  - simpl. now apply IH.
Qed.

Lemma mathMax_In n ns : In (JS.mathMax n ns) (n :: ns).
Proof.
  unfold JS.mathMax. revert n. induction ns as [|j ns IH]; intros n; simpl.
  - now left.
  - destruct (IH (Z.max n j)) as [H|H].
    + rewrite <- H. destruct (Z.max_spec n j) as [[_ ->]|[_ ->]]; auto.
    + auto.
Qed.

(** *** What [getLastProcessedPageByTex] computes *)

Lemma getLast_upper files f :
  In f files -> isPageTex f = true ->
  pageNumberOf f <= getLastProcessedPageByTex files.
Proof.
  intros Hin Hp. unfold getLastProcessedPageByTex.
  assert (Hm : In (pageNumberOf f) (List.map pageNumberOf (List.filter isPageTex files))).
  { apply in_map, filter_In. auto. }
  destruct (List.map pageNumberOf (List.filter isPageTex files)) as [|n ns]; [destruct Hm|].
  destruct Hm as [->|Hm]; [apply mathMax_ge_first | now apply mathMax_ge].
Qed.

Lemma getLast_attained files :
  (exists f, In f files /\ isPageTex f = true) ->
  exists f, In f files /\ isPageTex f = true /\
            pageNumberOf f = getLastProcessedPageByTex files.
Proof.
  intros (f0 & Hin0 & Hp0). unfold getLastProcessedPageByTex.
  assert (Hm : In (pageNumberOf f0) (List.map pageNumberOf (List.filter isPageTex files))).
  { apply in_map, filter_In. auto. }
  destruct (List.map pageNumberOf (List.filter isPageTex files)) as [|n ns] eqn:E;
    [destruct Hm|].
  pose proof (mathMax_In n ns) as Hmax. rewrite <- E in Hmax.
  apply in_map_iff in Hmax as (f & Hf & Hfin). apply filter_In in Hfin as [? ?].
  exists f. auto.
Qed.

Lemma getLast_none files :
  (forall f, In f files -> isPageTex f = false) ->
  getLastProcessedPageByTex files = 0.
Proof.
  intros H. unfold getLastProcessedPageByTex.
  destruct (List.filter isPageTex files) as [|f fs] eqn:E; [reflexivity|].
  assert (Hin : In f (List.filter isPageTex files)) by (rewrite E; now left).
  apply filter_In in Hin as [Hin Hp]. rewrite (H f Hin) in Hp. discriminate.
Qed.

Lemma getLast_nonneg files : 0 <= getLastProcessedPageByTex files.
Proof.
  destruct (List.existsb isPageTex files) eqn:E.
  - apply existsb_exists in E. apply getLast_attained in E as (f & _ & _ & <-).
    apply pageNumberOf_nonneg.
  - rewrite getLast_none; [lia|]. intros f Hin.
    destruct (isPageTex f) eqn:Hp; [|reflexivity].
    assert (List.existsb isPageTex files = true) by (apply existsb_exists; eauto).
    congruence.
Qed.

Lemma getLast_le files1 files2 :
  (forall f, isPageTex f = true -> In f files1 -> In f files2) ->
  getLastProcessedPageByTex files1 <= getLastProcessedPageByTex files2.
Proof.
  intros H. destruct (List.existsb isPageTex files1) eqn:E.
  - apply existsb_exists in E. apply getLast_attained in E as (f & Hin & Hp & <-).
    apply getLast_upper; auto.
  - rewrite (getLast_none files1); [apply getLast_nonneg|]. intros f Hin.
    destruct (isPageTex f) eqn:Hp; [|reflexivity].
    assert (List.existsb isPageTex files1 = true) by (apply existsb_exists; eauto).
    congruence.
Qed.

(** Only the set of page-unit names in the listing matters: neither the
    order, nor repetitions, nor any other file. *)
Lemma getLast_ext files1 files2 :
  (forall f, isPageTex f = true -> In f files1 <-> In f files2) ->
  getLastProcessedPageByTex files1 = getLastProcessedPageByTex files2.
Proof.
  intros H. apply Z.le_antisymm; apply getLast_le; intros f Hp; now apply H.
Qed.

(** The true maximum of the indices of the page units present. *)
Lemma getLast_max files (ps : list Z) :
  Forall (fun p => 0 <= p) ps ->
  (forall f, isPageTex f = true -> In f files <-> In f (List.map pageTexPath ps)) ->
  getLastProcessedPageByTex files = fold_right Z.max 0 ps.
Proof.
  intros Hps H. rewrite (getLast_ext _ _ H). clear H files.
  induction Hps as [|p ps Hp Hps IH]; [reflexivity|].
  simpl fold_right. rewrite <- IH. clear IH.
  apply Z.le_antisymm.
  - destruct (getLast_attained (List.map pageTexPath (p :: ps))) as (f & Hin & Hpt & <-).
    { exists (pageTexPath p). split; [now left | now apply isPageTex_pageTexPath]. }
    destruct Hin as [<-|Hin].
    + rewrite pageNumberOf_pageTexPath by assumption. lia.
    + pose proof (getLast_upper _ _ Hin Hpt). lia.
  - apply Z.max_lub.
    + rewrite <- (pageNumberOf_pageTexPath p Hp) at 1.
      apply getLast_upper; [now left | now apply isPageTex_pageTexPath].
    + apply getLast_le. intros f _ Hin. now right.
Qed.

End ResumeTracker.

(* ================================================================== *)
(** * Searching and splicing                                           *)
(* ================================================================== *)

Section Splicing.

Implicit Types s t m : string.


Lemma take_app_length s t : JS.take (String.length s) (s +:+ t) = s.
Proof. induction s as [|c s IH]; simpl; [now destruct t | now rewrite IH]. Qed.

Lemma drop_app_length s t : JS.drop (String.length s) (s +:+ t) = t.
Proof. induction s as [|c s IH]; simpl; [now destruct t | exact IH]. Qed.

Lemma sliceIndex_in_range (i : Z) s :
  0 <= i <= Z.of_nat (String.length s) -> JS.sliceIndex i s = Z.to_nat i.
Proof.
  intros H. unfold JS.sliceIndex.
  destruct (Z.ltb_spec i 0); [lia|]. f_equal. lia.
Qed.

Lemma sliceTo_app s t : JS.sliceTo (Z.of_nat (String.length s)) (s +:+ t) = s.
Proof.
  unfold JS.sliceTo. rewrite sliceIndex_in_range.
  - rewrite Nat2Z.id. apply take_app_length.
  - rewrite length_app_s. lia.
Qed.

Lemma sliceFrom_app s t : JS.sliceFrom (Z.of_nat (String.length s)) (s +:+ t) = t.
Proof.
  unfold JS.sliceFrom. rewrite sliceIndex_in_range.
  - rewrite Nat2Z.id. apply drop_app_length.
  - rewrite length_app_s. lia.
Qed.

Lemma includes_app m s t : JS.includes m (s +:+ m +:+ t) = true.
Proof.
  induction s as [|c s IH].
  - simpl String.append. destruct (m +:+ t) eqn:E; simpl;
      rewrite <- E, startsWith_app; reflexivity.
  - change (String c s +:+ m +:+ t) with (String c (s +:+ m +:+ t)).
    simpl. rewrite IH. apply orb_true_r.
Qed.


Lemma lastIndexOf_lower m s : -1 <= JS.lastIndexOf m s.
Proof.
  induction s as [|c s IH]; simpl.
  - destruct (JS.startsWith m EmptyString); lia.
  - destruct (Z.leb_spec 0 (JS.lastIndexOf m s)); [lia|].
    destruct (JS.startsWith m (String c s)); lia.
Qed.









(** The case the driver meets: the marker and a line feed at the end. *)
Lemma lastIndexOf_closing s :
  JS.lastIndexOf endDocument (s +:+ endDocument +:+ JS.nl)
  = Z.of_nat (String.length s).
Proof.
  induction s as [|c s IH].
  - reflexivity.
  - change (String c s +:+ endDocument +:+ JS.nl)
      with (String c (s +:+ endDocument +:+ JS.nl)).
    cbn [JS.lastIndexOf]. rewrite IH.
    destruct (Z.leb_spec 0 (Z.of_nat (String.length s))); [|lia].
    cbn [String.length]. lia.
Qed.

(** *** Escapes *)

Lemma noEscape_app x s t :
  noEscape x s = true -> noEscape x t = true -> noEscape x (s +:+ t) = true.
Proof.
  intros Hs Ht. induction s as [|c s IH]; [exact Ht|].
  change (String c s +:+ t) with (String c (s +:+ t)).
  cbn [noEscape] in *. apply andb_true_iff in Hs as [Hc Hs].
  rewrite (IH Hs), andb_true_r.
  destruct (Ascii.eqb c backslash); [|reflexivity].
  destruct s as [|d s]; [discriminate | exact Hc].
Qed.

Lemma noEscape_digits x ds : JS.allDigits ds = true -> noEscape x ds = true.
Proof.
  induction ds as [|c ds IH]; [reflexivity|]. simpl.
  intros H. apply andb_true_iff in H as [Hc Hd]. rewrite (IH Hd), andb_true_r.
  destruct (Ascii.eqb_spec c backslash) as [->|]; [discriminate | reflexivity].
Qed.

(** A pattern [\x...] does not match where [noEscape x] has passed. *)
Lemma startsWith_noEscape x m s t c :
  noEscape x (String c s) = true ->
  JS.startsWith (String backslash (String x m)) (String c (s +:+ t)) = false.
Proof.
  cbn [noEscape]. intros H. apply andb_true_iff in H as [H _].
  unfold JS.startsWith. cbn [JS.stripPrefix]. rewrite (eqb_sym backslash c).
  destruct (Ascii.eqb c backslash); [|reflexivity].
  destruct s as [|d s]; [discriminate|].
  change (String d s +:+ t) with (String d (s +:+ t)).
  cbn [JS.stripPrefix].
  rewrite (eqb_sym x d). now destruct (Ascii.eqb d x).
Qed.

Lemma includes_noEscape x m s t :
  noEscape x s = true ->
  JS.includes (String backslash (String x m)) (s +:+ t)
  = JS.includes (String backslash (String x m)) t.
Proof.
  intros H. induction s as [|c s IH]; [reflexivity|].
  change (String c s +:+ t) with (String c (s +:+ t)).
  cbn [JS.includes]. rewrite (startsWith_noEscape x m s t c H).
  cbn [noEscape] in H. apply andb_true_iff in H as [_ H]. now rewrite IH.
Qed.

Lemma countOccurrences_noEscape x m s t :
  noEscape x s = true ->
  countOccurrences (String backslash (String x m)) (s +:+ t)
  = countOccurrences (String backslash (String x m)) t.
Proof.
  intros H. induction s as [|c s IH]; [reflexivity|].
  change (String c s +:+ t) with (String c (s +:+ t)).
  cbn [countOccurrences]. rewrite (startsWith_noEscape x m s t c H).
  cbn [noEscape] in H. apply andb_true_iff in H as [_ H]. now rewrite IH.
Qed.

End Splicing.

(* ================================================================== *)
(** * The shape of the manifest                                        *)
(* ================================================================== *)

Section ManifestShape.

Implicit Types s t b : string.

Lemma endDocument_escape :
  endDocument = String backslash (String "e" "nd{document}").
Proof. reflexivity. Qed.

Lemma noEscape_initial_e : noEscape "e" initialContent = true.
Proof. vm_compute. reflexivity. Qed.

Lemma noEscape_initial_i : noEscape "i" initialContent = true.
Proof. vm_compute. reflexivity. Qed.

Lemma noEscape_includeRef p : 0 <= p -> noEscape "e" (includeRef p) = true.
Proof.
  intros Hp. unfold includeRef.
  apply (noEscape_app "e" "\include{page"); [reflexivity|].
  apply noEscape_app; [|reflexivity].
  apply noEscape_digits. now apply allDigits_numToString.
Qed.

Lemma Body_noEscape ps b : Body ps b -> noEscape "e" b = true.
Proof.
  induction 1 as [|ps b _ IH|ps b p _ IH Hp]; [reflexivity| |].
  - apply noEscape_app; [exact IH | reflexivity].
  - apply noEscape_app; [exact IH | now apply noEscape_includeRef].
Qed.

Lemma Body_app ps1 b1 ps2 b2 :
  Body ps1 b1 -> Body ps2 b2 -> Body (ps1 ++ ps2) (b1 +:+ b2).
Proof.
  intros H1 H2. induction H2 as [|ps b _ IH|ps b p _ IH Hp].
  - now rewrite app_nil_r, app_nil_r_s.
  - rewrite <- app_assoc_s. now constructor.
  - rewrite <- app_assoc_s, app_assoc. now constructor.
Qed.

Lemma Body_nonneg ps b : Body ps b -> Forall (fun p => 0 <= p) ps.
Proof.
  induction 1 as [|ps b _ IH|ps b p _ IH Hp]; [constructor|exact IH|].
  apply Forall_app. split; [exact IH | now constructor].
Qed.

Lemma Body_includeLine p : 0 <= p -> Body [p] (includeLine p).
Proof.
  intros Hp. unfold includeLine.
  apply (Body_ref [] JS.nl p); [|exact Hp]. apply (Body_nl [] EmptyString). constructor.
Qed.

(** *** Searching a manifest for the closing marker *)

Lemma open_no_marker pre b :
  noEscape "e" pre = true -> noEscape "e" b = true ->
  JS.includes endDocument (pre +:+ b) = false.
Proof.
  intros Hpre Hb. rewrite <- (app_nil_r_s (pre +:+ b)), endDocument_escape.
  rewrite (includes_noEscape "e"); [reflexivity|]. now apply noEscape_app.
Qed.

Lemma closed_has_marker s t : JS.includes endDocument (s +:+ endDocument +:+ t) = true.
Proof. apply includes_app. Qed.

Lemma closed_one_marker pre b :
  noEscape "e" pre = true -> noEscape "e" b = true ->
  countOccurrences endDocument ((pre +:+ b) +:+ endDocument +:+ JS.nl) = 1%nat.
Proof.
  intros Hpre Hb. rewrite endDocument_escape at 1.
  rewrite (countOccurrences_noEscape "e"); [reflexivity|]. now apply noEscape_app.
Qed.

(** *** What the two manifest operations do to the text *)

(** No marker: the reference line goes to the end. *)
Lemma updateManifest_open p s :
  JS.includes endDocument s = false ->
  updateManifest p s = s +:+ includeLine p.
Proof. intros H. unfold updateManifest. now rewrite H. Qed.

(** A marker at the end: the reference line and a line feed go directly
    in front of it. *)
Lemma updateManifest_closed p s :
  updateManifest p (s +:+ endDocument +:+ JS.nl)
  = s +:+ includeLine p +:+ JS.nl +:+ endDocument +:+ JS.nl.
Proof.
  unfold updateManifest. rewrite closed_has_marker, lastIndexOf_closing.
  now rewrite sliceTo_app, sliceFrom_app.
Qed.


Lemma finalizeManifest_open s :
  JS.includes endDocument s = false -> finalizeManifest s = s +:+ closingText.
Proof. intros H. unfold finalizeManifest. now rewrite H. Qed.

Lemma finalizeManifest_closed s :
  JS.includes endDocument s = true -> finalizeManifest s = s.
Proof. intros H. unfold finalizeManifest. now rewrite H. Qed.

(** *** The operations keep the shape *)

Lemma Manifest_initial : Manifest [] false initialContent.
Proof. exists EmptyString. split; [constructor | reflexivity]. Qed.

Lemma Manifest_open_no_marker ps content :
  Manifest ps false content -> JS.includes endDocument content = false.
Proof.
  intros (b & Hb & ->). rewrite app_nil_r_s.
  apply open_no_marker; [apply noEscape_initial_e | eapply Body_noEscape, Hb].
Qed.

Lemma Manifest_closed_marker ps content :
  Manifest ps true content -> JS.includes endDocument content = true.
Proof. intros (b & Hb & ->). rewrite <- app_assoc_s. apply closed_has_marker. Qed.

Lemma Manifest_includes ps closed content :
  Manifest ps closed content -> JS.includes endDocument content = closed.
Proof.
  destruct closed; [apply Manifest_closed_marker | apply Manifest_open_no_marker].
Qed.

Lemma Manifest_update ps closed content p :
  Manifest ps closed content -> 0 <= p ->
  Manifest (ps ++ [p]) closed (updateManifest p content).
Proof.
  intros (b & Hb & ->) Hp. destruct closed.
  - rewrite <- app_assoc_s, updateManifest_closed.
    exists (b +:+ includeLine p +:+ JS.nl). split.
    + apply Body_app; [exact Hb|].
      apply (Body_nl [p]). now apply Body_includeLine.
    + now rewrite !app_assoc_s.
  - rewrite updateManifest_open.
    + exists (b +:+ includeLine p). split.
      * apply Body_app; [exact Hb | now apply Body_includeLine].
      * now rewrite !app_nil_r_s, !app_assoc_s.
    + eapply Manifest_open_no_marker. exists b. eauto.
Qed.

Lemma Manifest_finalize ps closed content :
  Manifest ps closed content -> Manifest ps true (finalizeManifest content).
Proof.
  intros H. destruct closed.
  - rewrite finalizeManifest_closed; [exact H | eapply Manifest_closed_marker, H].
  - rewrite finalizeManifest_open by (eapply Manifest_open_no_marker, H).
    destruct H as (b & Hb & ->). exists (b +:+ JS.nl +:+ JS.nl). split.
    + rewrite <- app_assoc_s. now do 2 constructor.
    + unfold closingText. now rewrite !app_nil_r_s, !app_assoc_s.
Qed.

Lemma Manifest_one_marker ps content :
  Manifest ps true content -> countOccurrences endDocument content = 1%nat.
Proof.
  intros (b & Hb & ->). rewrite <- app_assoc_s.
  apply closed_one_marker; [apply noEscape_initial_e | eapply Body_noEscape, Hb].
Qed.

End ManifestShape.

(* ================================================================== *)
(** * Reading the inclusion references back                            *)
(* ================================================================== *)

Section IncludeRefs.

Implicit Types s t b : string.

Lemma includeRefsFrom_skip s t :
  includeRefsFrom (String.length s) (s +:+ t) = includeRefsFrom 0 t.
Proof.
  induction s as [|c s IH]; [reflexivity|].
  change (String c s +:+ t) with (String c (s +:+ t)). exact IH.
Qed.

Lemma matchInclude_noEscape c s t :
  noEscape "i" (String c s) = true -> matchInclude (String c (s +:+ t)) = None.
Proof.
  intros H. unfold matchInclude.
  pose proof (startsWith_noEscape "i" "nclude{page" s t c H) as Hs.
  unfold JS.startsWith in Hs.
  change (String backslash (String "i" "nclude{page")) with "\include{page" in Hs.
  now destruct (JS.stripPrefix "\include{page" (String c (s +:+ t))).
Qed.

(** Text without [\i] holds no reference, whatever follows it. *)
Lemma includeRefs_noEscape s t :
  noEscape "i" s = true -> includeRefsFrom 0 (s +:+ t) = includeRefsFrom 0 t.
Proof.
  intros H. induction s as [|c s IH]; [reflexivity|].
  change (String c s +:+ t) with (String c (s +:+ t)).
  cbn [includeRefsFrom]. rewrite (matchInclude_noEscape c s t H).
  cbn [noEscape] in H. apply andb_true_iff in H as [_ H]. now apply IH.
Qed.

Lemma length_includeRef p :
  String.length (includeRef p) = (13 + String.length (JS.numToString p) + 1)%nat.
Proof.
  unfold includeRef.
  change ("\include{page" +:+ JS.numToString p +:+ "}")
    with ("\include{page" +:+ (JS.numToString p +:+ "}")).
  rewrite (length_app_s "\include{page"), length_app_s. simpl. lia.
Qed.

Lemma matchInclude_ref p t :
  0 <= p ->
  matchInclude (includeRef p +:+ t) = Some (p, String.length (includeRef p)).
Proof.
  intros Hp. unfold matchInclude, includeRef.
  rewrite !app_assoc_s, stripPrefix_app.
  rewrite takeDigits_app, dropDigits_app
    by (try reflexivity; now apply allDigits_numToString).
  rewrite nonEmpty_numToString. cbn [andb].
  change (JS.startsWith "}" ("}" +:+ t)) with true. cbv iota.
  rewrite parseInt_numToString by exact Hp.
  f_equal. f_equal. rewrite <- !app_assoc_s.
  change (("\include{page" +:+ JS.numToString p) +:+ "}") with (includeRef p).
  now rewrite length_includeRef.
Qed.

(** A reference is read back as its page index, and the search goes on
    behind it. *)
Lemma includeRefs_ref p t :
  0 <= p -> includeRefsFrom 0 (includeRef p +:+ t) = p :: includeRefsFrom 0 t.
Proof.
  intros Hp. pose proof (matchInclude_ref p t Hp) as Hm.
  unfold includeRef in *.
  change ("\include{page" +:+ JS.numToString p +:+ "}")
    with (String backslash ("include{page" +:+ JS.numToString p +:+ "}")) in *.
  set (r := "include{page" +:+ JS.numToString p +:+ "}") in *.
  change (String backslash r +:+ t) with (String backslash (r +:+ t)) in *.
  cbn [includeRefsFrom]. rewrite Hm. cbn [String.length Nat.pred].
  now rewrite includeRefsFrom_skip.
Qed.

Lemma includeRefs_nl t : includeRefsFrom 0 (JS.nl +:+ t) = includeRefsFrom 0 t.
Proof. apply (includeRefs_noEscape JS.nl). reflexivity. Qed.

Lemma Body_includeRefs ps b :
  Body ps b -> forall t, includeRefsFrom 0 (b +:+ t) = ps ++ includeRefsFrom 0 t.
Proof.
  induction 1 as [|ps b _ IH|ps b p _ IH Hp]; intros t.
  - reflexivity.
  - now rewrite app_assoc_s, IH, includeRefs_nl.
  - rewrite app_assoc_s, IH, includeRefs_ref by exact Hp.
    now rewrite <- app_assoc.
Qed.

(** The references of a manifest are those of its body. *)
Lemma Manifest_includeRefs ps closed content :
  Manifest ps closed content -> includeRefs content = ps.
Proof.
  intros (b & Hb & ->). unfold includeRefs.
  rewrite includeRefs_noEscape by apply noEscape_initial_i.
  rewrite (Body_includeRefs _ _ Hb).
  destruct closed; simpl; now rewrite app_nil_r.
Qed.

(** In a closed manifest all references stand in front of the marker,
    and the marker with its line feed is the end of the text. *)
Lemma Manifest_closed_split ps content :
  Manifest ps true content ->
  exists pre,
    content = pre +:+ endDocument +:+ JS.nl /\
    includeRefs pre = ps /\
    JS.lastIndexOf endDocument content = Z.of_nat (String.length pre).
Proof.
  intros (b & Hb & ->). exists (initialContent +:+ b).
  split; [now rewrite app_assoc_s|]. split.
  - apply (Manifest_includeRefs ps false). exists b. split; [exact Hb|].
    now rewrite app_nil_r_s.
  - rewrite <- app_assoc_s. apply lastIndexOf_closing.
Qed.

End IncludeRefs.

(* ================================================================== *)
(** * One attempt                                                      *)
(* ================================================================== *)

Section Attempt.

Lemma rasterOnly_refl w : rasterOnly w w.
Proof.
  split; [reflexivity|]. split; [auto|]. exists []. now rewrite app_nil_r.
Qed.

Lemma rasterOnly_trans w1 w2 w3 :
  rasterOnly w1 w2 -> rasterOnly w2 w3 -> rasterOnly w1 w3.
Proof.
  intros (F1 & P1 & evs1 & L1 & E1) (F2 & P2 & evs2 & L2 & E2).
  split; [|split].
  - intros f Hf. now rewrite F2, F1.
  - auto.
  - exists (evs1 ++ evs2). split.
    + now rewrite L2, L1, app_assoc.
    + now apply Forall_app.
Qed.

Lemma rasterOnly_render i w : rasterOnly w (addEvents [EvRender i] w).
Proof.
  split; [reflexivity|]. split; [auto|]. exists [EvRender i]. split; [reflexivity|].
  now constructor.
Qed.

Lemma rasterOnly_png stem buf w : rasterOnly w (putFile (stem +:+ ".png") buf w).
Proof.
  split; [|split].
  - intros f Hf. simpl. apply lookup_insert_ne. intros E. now apply (Hf stem).
  - intros f Hf. simpl. destruct (decide (stem +:+ ".png" = f)) as [->|Hne].
    + rewrite lookup_insert_eq. eauto.
    + now rewrite lookup_insert_ne.
  - exists []. simpl. now rewrite app_nil_r.
Qed.

(** What [getImageBuffer] returns and leaves behind, case by case. *)
Lemma getImageBuffer_out e N i w :
  i < 1 \/ N < i -> getImageBuffer e N i w = (Ok None, w).
Proof.
  intros H. unfold getImageBuffer.
  destruct (Z.ltb_spec i 1); [reflexivity|].
  destruct (Z.gtb_spec i N); [reflexivity | lia].
Qed.

Lemma getImageBuffer_in e N i w :
  1 <= i <= N ->
  getImageBuffer e N i w =
  match converter e i with
  | RenderThrows err => (Throw err, addEvents [EvRender i] w)
  | RenderNoPath => (Ok None, addEvents [EvRender i] w)
  | RenderFile stem buf =>
      (Ok (if (0 <? String.length buf)%nat then Some buf else None),
       putFile (stem +:+ ".png") buf (addEvents [EvRender i] w))
  end.
Proof.
  intros H. unfold getImageBuffer.
  destruct (Z.ltb_spec i 1); [lia|].
  destruct (Z.gtb_spec i N); [lia|]. cbn [orb].
  unfold bind, emit. now destruct (converter e i).
Qed.

Lemma getImageBuffer_rasterOnly e N i w r w1 :
  getImageBuffer e N i w = (r, w1) -> rasterOnly w w1.
Proof.
  destruct (Z.lt_ge_cases i 1) as [H|H].
  { rewrite getImageBuffer_out by auto. intros [= _ <-]. apply rasterOnly_refl. }
  destruct (Z.lt_ge_cases N i) as [H'|H'].
  { rewrite getImageBuffer_out by auto. intros [= _ <-]. apply rasterOnly_refl. }
  rewrite getImageBuffer_in by lia.
  destruct (converter e i); intros [= _ <-]; try apply rasterOnly_render.
  eapply rasterOnly_trans; [apply rasterOnly_render | apply rasterOnly_png].
Qed.

Lemma contextWindow_rasterOnly e N n w r w1 :
  contextWindow e N n w = (r, w1) -> rasterOnly w w1.
Proof.
  unfold contextWindow, bind, ret.
  destruct (getImageBuffer e N (n - 1) w) as [[prev|err] wa] eqn:Ea;
    [|intros [= _ <-]; eapply getImageBuffer_rasterOnly, Ea].
  destruct (getImageBuffer e N n wa) as [[curr|err] wb] eqn:Eb;
    [|intros [= _ <-]; eapply rasterOnly_trans; eapply getImageBuffer_rasterOnly; eauto].
  destruct (getImageBuffer e N (n + 1) wb) as [[next|err] wc] eqn:Ec;
    intros [= _ <-];
    (eapply rasterOnly_trans; [eapply getImageBuffer_rasterOnly, Ea|]);
    (eapply rasterOnly_trans; eapply getImageBuffer_rasterOnly; eauto).
Qed.

(** *** The recognition call *)

(** Whatever goes wrong inside [processPageWithGemini], the caller sees
    one of two fixed errors; neither matches the quota test. *)
Lemma processPageWithGemini_cases e bufs w :
  processPageWithGemini e bufs w =
  if negb (apiKey e) then (Throw errApiKey, w)
  else
    match generateContent e with
    | TextJson v => (Ok (contentOrEmpty v), addEvents [EvRecognize (imageParts bufs)] w)
    | _ => (Throw errApiFailed, addEvents [EvRecognize (imageParts bufs)] w)
    end.
Proof.
  unfold processPageWithGemini. destruct (apiKey e); [|reflexivity]. cbn [negb].
  unfold tryCatch, bind, emit. now destruct (generateContent e).
Qed.

Lemma errApiKey_not_quota : isQuotaError errApiKey = false.
Proof. vm_compute. reflexivity. Qed.

Lemma errApiFailed_not_quota : isQuotaError errApiFailed = false.
Proof. vm_compute. reflexivity. Qed.

Lemma errNoImage_not_quota : isQuotaError errNoImage = false.
Proof. vm_compute. reflexivity. Qed.

(** The handler of lines 267-286 never sees a quota error, so the
    call with its handler behaves like the call alone. *)
Lemma recognition_handler_idle e bufs w :
  tryCatch (processPageWithGemini e bufs)
    (fun errStr =>
       if isQuotaError errStr
       then emit (EvQuotaWait (retryDelaySeconds errStr)) >>> throw errStr
       else throw errStr) w
  = processPageWithGemini e bufs w.
Proof.
  unfold tryCatch. rewrite processPageWithGemini_cases.
  destruct (apiKey e); cbn [negb].
  - destruct (generateContent e); try reflexivity;
      now rewrite errApiFailed_not_quota.
  - now rewrite errApiKey_not_quota.
Qed.

(** *** Recording *)

Lemma recordInManifest_some n w content :
  dir w !! MAIN_TEX_PATH = Some content ->
  recordInManifest n w = (Ok tt, putFile MAIN_TEX_PATH (updateManifest n content) w).
Proof.
  intros H. unfold recordInManifest, bind, Fs.readFile. rewrite H.
  unfold updateManifest.
  destruct (JS.includes endDocument content); [reflexivity|].
  unfold Fs.appendFile. now rewrite H.
Qed.

Lemma recordInManifest_none n w :
  dir w !! MAIN_TEX_PATH = None ->
  exists err, recordInManifest n w = (Throw err, w) /\ isQuotaError err = false /\
              err <> errNoImage.
Proof.
  intros H. unfold recordInManifest, bind, Fs.readFile. rewrite H.
  eexists. split; [reflexivity|]. split; [vm_compute; reflexivity|].
  vm_compute. discriminate.
Qed.

(** *** The attempt as a whole *)

(** How an attempt can end: the window could not be built (or the key
    is missing) and nothing else happened; the recognition was called
    and the attempt failed before anything was written; the fragment was
    written but there is no manifest; or the page was recorded. *)
Lemma attemptBody_inv e N n w r w' :
  attemptBody e N n w = (r, w') ->
  exists w1,
    rasterOnly w w1 /\
    ((exists err, r = Throw err /\ w' = w1) \/
     (exists err imgs,
         r = Throw err /\ isQuotaError err = false /\
         w' = addEvents [EvRecognize imgs] w1) \/
     (exists err imgs text,
         r = Throw err /\ isQuotaError err = false /\
         dir w1 !! MAIN_TEX_PATH = None /\
         w' = putFile (pageTexPath n) text (addEvents [EvRecognize imgs] w1)) \/
     (exists imgs text content,
         r = Ok tt /\ dir w1 !! MAIN_TEX_PATH = Some content /\
         w' = addEvents [EvPageDone n]
                (putFile MAIN_TEX_PATH (updateManifest n content)
                   (putFile (pageTexPath n) text
                      (addEvents [EvRecognize imgs] w1))))).
Proof.
  unfold attemptBody. unfold bind at 1.
  destruct (contextWindow e N n w) as [[[[prev curr] next]|err] w1] eqn:Ew.
  2:{ intros [= <- <-]. exists w1. split; [eapply contextWindow_rasterOnly, Ew|].
      left. eauto. }
  intros H. exists w1. split; [eapply contextWindow_rasterOnly, Ew|].
  destruct curr as [curr|]; [|injection H as <- <-; left; eauto].
  unfold bind at 1 in H. rewrite recognition_handler_idle in H.
  rewrite processPageWithGemini_cases in H.
  destruct (apiKey e); cbn [negb] in H; [|injection H as <- <-; left; eauto].
  set (imgs := imageParts [prev; Some curr; next]) in *.
  set (w2 := addEvents [EvRecognize imgs] w1) in *.
  destruct (generateContent e) as [err| | |v];
    try (injection H as <- <-; right; left; exists errApiFailed, imgs;
         split; [reflexivity|]; split; [apply errApiFailed_not_quota | reflexivity]).
  unfold bind at 1 in H. unfold Fs.writeFile in H.
  set (text := contentOrEmpty v) in *.
  set (w3 := putFile (pageTexPath n) text w2) in *.
  assert (Hmain : dir w3 !! MAIN_TEX_PATH = dir w1 !! MAIN_TEX_PATH).
  { unfold w3, w2. simpl. apply lookup_insert_ne, pageTexPath_not_main. }
  unfold bind at 1 in H.
  destruct (dir w1 !! MAIN_TEX_PATH) as [content|] eqn:Em.
  - rewrite (recordInManifest_some n w3 content) in H by exact Hmain.
    unfold emit in H. injection H as <- <-.
    right; right; right. exists imgs, text, content. auto.
  - destruct (recordInManifest_none n w3 Hmain) as (err & Hr & Hq & _).
    rewrite Hr in H. injection H as <- <-.
    right; right; left. exists err, imgs, text. auto.
Qed.

(** The attempt after its window has been built, case by case. *)
Lemma attemptBody_window e N n w prev curr next w1 :
  contextWindow e N n w = (Ok (prev, curr, next), w1) ->
  attemptBody e N n w =
  match curr with
  | None => (Throw errNoImage, w1)
  | Some c =>
      if negb (apiKey e) then (Throw errApiKey, w1)
      else
        let imgs := imageParts [prev; Some c; next] in
        let w2 := addEvents [EvRecognize imgs] w1 in
        match generateContent e with
        | TextJson v =>
            let text := contentOrEmpty v in
            match dir w1 !! MAIN_TEX_PATH with
            | Some content => (Ok tt, recorded n imgs text content w1)
            | None =>
                (fst (recordInManifest n (putFile (pageTexPath n) text w2)),
                 putFile (pageTexPath n) text w2)
            end
        | _ => (Throw errApiFailed, w2)
        end
  end.
Proof.
  intros Ew. unfold attemptBody. unfold bind at 1. rewrite Ew.
  destruct curr as [c|]; [|reflexivity].
  unfold bind at 1. rewrite recognition_handler_idle, processPageWithGemini_cases.
  destruct (apiKey e); [|reflexivity]. cbn [negb]. cbv zeta.
  destruct (generateContent e) as [err| | |v]; try reflexivity.
  unfold bind at 1. unfold Fs.writeFile.
  set (w3 := putFile (pageTexPath n) (contentOrEmpty v) _).
  assert (Hmain : dir w3 !! MAIN_TEX_PATH = dir w1 !! MAIN_TEX_PATH).
  { unfold w3. simpl. apply lookup_insert_ne, pageTexPath_not_main. }
  unfold bind at 1.
  destruct (dir w1 !! MAIN_TEX_PATH) as [content|] eqn:Em.
  - rewrite (recordInManifest_some n w3 content) by exact Hmain. reflexivity.
  - destruct (recordInManifest_none n w3 Hmain) as (err & Hr & _ & _).
    rewrite Hr. reflexivity.
Qed.

(** A failure that does not pass the quota test uses up one attempt. *)
Lemma retryLoop_counted e envs N n a last w err w1 :
  attemptBody e N n w = (Throw err, w1) ->
  isQuotaError err = false -> a <= MAX_RETRIES ->
  retryLoop (e :: envs) N n a last w
  = retryLoop envs N n (a + 1) (Some err)
      (addEvents [EvAttemptFailed n a err] w1).
Proof.
  intros Hb Hq Ha. cbn [retryLoop].
  destruct (Z.leb_spec a MAX_RETRIES); [|lia].
  now rewrite Hb, Hq.
Qed.

(** The window when the renderer never throws: which pages are asked
    for and what the slots hold. *)
Lemma contextWindow_no_throw e N n w :
  1 <= n <= N ->
  (forall j err, converter e j <> RenderThrows err) ->
  contextWindow e N n w =
  let wa := if 1 <=? n - 1 then rendered (n - 1) (converter e (n - 1)) w else w in
  let wb := rendered n (converter e n) wa in
  let wc := if n + 1 <=? N then rendered (n + 1) (converter e (n + 1)) wb else wb in
  (Ok (if 1 <=? n - 1 then slotOf (converter e (n - 1)) else None,
       slotOf (converter e n),
       if n + 1 <=? N then slotOf (converter e (n + 1)) else None), wc).
Proof.
  intros Hn Hno. unfold contextWindow. cbv zeta.
  assert (Hin : forall j w0, 1 <= j <= N ->
            getImageBuffer e N j w0
            = (Ok (slotOf (converter e j)), rendered j (converter e j) w0)).
  { intros j w0 Hj. rewrite getImageBuffer_in by exact Hj.
    pose proof (Hno j) as Hj'. destruct (converter e j); [|reflexivity|reflexivity].
    now contradiction (Hj' err). }
  unfold bind at 1.
  destruct (Z.leb_spec 1 (n - 1)).
  - rewrite Hin by lia. unfold bind at 1. rewrite Hin by lia. unfold bind at 1.
    destruct (Z.leb_spec (n + 1) N).
    + now rewrite Hin by lia.
    + now rewrite getImageBuffer_out by lia.
  - rewrite getImageBuffer_out by lia. unfold bind at 1. rewrite Hin by lia.
    unfold bind at 1. destruct (Z.leb_spec (n + 1) N).
    + now rewrite Hin by lia.
    + now rewrite getImageBuffer_out by lia.
Qed.

End Attempt.

(* ================================================================== *)
(** * What a run does to the output directory                          *)
(* ================================================================== *)

Section Directory.

Lemma In_listing w f : In f (listing w) <-> is_Some (dir w !! f).
Proof.
  unfold listing. rewrite in_map_iff. split.
  - intros ([f' c] & <- & Hin). apply list_elem_of_In, elem_of_map_to_list in Hin.
    simpl. eauto.
  - intros [c Hc]. exists (f, c). split; [reflexivity|].
    now apply list_elem_of_In, elem_of_map_to_list.
Qed.

Lemma persists_refl w : persists w w.
Proof. intros f H; exact H. Qed.

Lemma persists_trans w1 w2 w3 : persists w1 w2 -> persists w2 w3 -> persists w1 w3.
Proof. unfold persists. auto. Qed.

Lemma persists_putFile name content w : persists w (putFile name content w).
Proof.
  intros f Hf. simpl. destruct (decide (name = f)) as [->|Hne].
  - rewrite lookup_insert_eq. eauto.
  - now rewrite lookup_insert_ne.
Qed.

Lemma persists_dir w w' : dir w' = dir w -> persists w w'.
Proof. intros E f. now rewrite E. Qed.

Lemma frameBelow_refl s w : frameBelow s w w.
Proof. intros f _ _. reflexivity. Qed.

Lemma frameBelow_trans s w1 w2 w3 :
  frameBelow s w1 w2 -> frameBelow s w2 w3 -> frameBelow s w1 w3.
Proof. intros H1 H2 f Hp Hs. now rewrite H2, H1. Qed.

Lemma frameBelow_mono s s' w w' : s <= s' -> frameBelow s' w w' -> frameBelow s w w'.
Proof. intros Hs H f Hp Hf. apply H; [exact Hp | lia]. Qed.

Lemma frameBelow_dir s w w' : dir w' = dir w -> frameBelow s w w'.
Proof. intros E f _ _. now rewrite E. Qed.

Lemma frameBelow_rasterOnly s w w' : rasterOnly w w' -> frameBelow s w w'.
Proof.
  intros (F & _) f Hp _. apply F. intros stem ->.
  rewrite isPageTex_png in Hp. discriminate.
Qed.

Lemma persists_rasterOnly w w' : rasterOnly w w' -> persists w w'.
Proof. intros (_ & P & _). exact P. Qed.

Lemma Assembled_dir w w' ps closed :
  dir w' = dir w -> Assembled w ps closed -> Assembled w' ps closed.
Proof. unfold Assembled. intros ->. auto. Qed.

Lemma Assembled_nonneg w ps closed :
  Assembled w ps closed -> Forall (fun p => 0 <= p) ps.
Proof. intros ((c & _ & (b & Hb & _)) & _). eapply Body_nonneg, Hb. Qed.

Lemma Assembled_rasterOnly w w' ps closed :
  rasterOnly w w' -> Assembled w ps closed -> Assembled w' ps closed.
Proof.
  intros (F & P & _) ((c & Hc & Hm) & Hinc & Hb). split; [|split].
  - exists c. split; [|exact Hm]. rewrite F; [exact Hc|].
    intros stem E. symmetry in E. now apply png_not_main in E.
  - exact Hinc.
  - intros p Hp. apply P. now apply Hb.
Qed.

Lemma increasing_snoc ps n :
  increasing ps -> Forall (fun p => p < n) ps -> increasing (ps ++ [n]).
Proof.
  unfold increasing. induction 1 as [|p ps Hs IH Hp]; intros Hn.
  - repeat constructor.
  - inversion Hn; subst. simpl. constructor; [now apply IH|].
    apply Forall_app. split; [exact Hp | now constructor].
Qed.

Lemma increasing_NoDup ps : increasing ps -> NoDup ps.
Proof.
  unfold increasing. induction 1 as [|p ps Hs IH Hp]; constructor; [|exact IH].
  intros Hin%list_elem_of_In. rewrite List.Forall_forall in Hp.
  specialize (Hp p Hin). lia.
Qed.

Lemma pageNumberOf_below_neq f n :
  0 <= n -> pageNumberOf f < n -> f <> pageTexPath n.
Proof.
  intros Hn Hf ->. rewrite pageNumberOf_pageTexPath in Hf by exact Hn. lia.
Qed.

(** *** No file disappears *)

Lemma attemptBody_persists e N n w r w' :
  attemptBody e N n w = (r, w') -> persists w w'.
Proof.
  intros H. apply attemptBody_inv in H as (w1 & Hr & Hcases).
  eapply persists_trans; [eapply persists_rasterOnly, Hr|].
  destruct Hcases as [(err & -> & ->)|[(err & imgs & -> & _ & ->)|
    [(err & imgs & text & -> & _ & _ & ->)|(imgs & text & content & -> & _ & ->)]]].
  - apply persists_refl.
  - now apply persists_dir.
  - eapply persists_trans; [|apply persists_putFile]. now apply persists_dir.
  - eapply persists_trans; [apply (persists_dir w1 (addEvents [EvRecognize imgs] w1)); reflexivity|].
    eapply persists_trans; [apply (persists_putFile (pageTexPath n) text)|].
    eapply persists_trans; [apply (persists_putFile MAIN_TEX_PATH)|].
    now apply persists_dir.
Qed.

Lemma retryLoop_persists envs N n : forall a last w r rest w',
  retryLoop envs N n a last w = (r, rest, w') -> persists w w'.
Proof.
  induction envs as [|e envs IH]; intros a last w r rest w' H;
    cbn [retryLoop] in H; destruct (a <=? MAX_RETRIES).
  1,2,4: injection H as <- <- <-; apply persists_refl.
  destruct (attemptBody e N n w) as [[[]|err] w1] eqn:Eb;
    pose proof (attemptBody_persists _ _ _ _ _ _ Eb) as HP.
  - now injection H as <- <- <-.
  - destruct (isQuotaError err); apply IH in H.
    + eapply persists_trans; eauto.
    + eapply persists_trans; [exact HP|]. exact H.
Qed.

Lemma pageLoop_persists fuel N : forall envs i w r w',
  pageLoop fuel envs N i w = (r, w') -> persists w w'.
Proof.
  induction fuel as [|fuel IH]; intros envs i w r w' H; cbn [pageLoop] in H.
  { injection H as <- <-. apply persists_refl. }
  destruct (i <? N); [|injection H as <- <-; apply persists_refl].
  cbv zeta in H.
  destruct (retryLoop envs N (i + 1) 1 None (snd (emit (EvPageStart (i + 1) N) w)))
    as [[[| |] rest] w2] eqn:Er; apply retryLoop_persists in Er.
  - apply IH in H. eapply persists_trans; [exact Er | exact H].
  - injection H as <- <-. eapply persists_trans; [exact Er|]. now apply persists_dir.
  - injection H as <- <-. exact Er.
Qed.

(** The fuel the driver passes is enough: more would change nothing. *)
Lemma pageLoop_fuel fuel N : forall envs i w,
  (Z.to_nat (N - i) <= fuel)%nat ->
  pageLoop fuel envs N i w = pageLoop (Z.to_nat (N - i)) envs N i w.
Proof.
  induction fuel as [|fuel IH]; intros envs i w Hf.
  - now replace (Z.to_nat (N - i)) with 0%nat by lia.
  - cbn [pageLoop]. destruct (Z.ltb_spec i N) as [Hi|Hi].
    + replace (Z.to_nat (N - i)) with (S (Z.to_nat (N - (i + 1)))) by lia.
      cbn [pageLoop]. destruct (Z.ltb_spec i N); [|lia]. cbv zeta.
      destruct (retryLoop envs N (i + 1) 1 None (snd (emit (EvPageStart (i + 1) N) w)))
        as [[[| |] rest] w2]; try reflexivity.
      apply IH. lia.
    + replace (Z.to_nat (N - i)) with 0%nat by lia. reflexivity.
Qed.

(** *** One attempt *)

Lemma attemptBody_state e N n w r w' ps closed :
  Assembled w ps closed -> Forall (fun p => p < n) ps -> 0 <= n ->
  attemptBody e N n w = (r, w') ->
  persists w w' /\ frameBelow n w w' /\
  match r with
  | Ok _ => Assembled w' (ps ++ [n]) closed
  | Throw _ => Assembled w' ps closed
  end.
Proof.
  intros HA Hps Hn H. apply attemptBody_inv in H as (w1 & Hr & Hcases).
  pose proof (Assembled_rasterOnly _ _ _ _ Hr HA) as HA1.
  pose proof (persists_rasterOnly _ _ Hr) as HP1.
  pose proof (frameBelow_rasterOnly n _ _ Hr) as HF1.
  destruct Hcases as [(err & -> & ->)|[(err & imgs & -> & _ & ->)|
    [(err & imgs & text & -> & _ & Hnone & ->)|(imgs & text & content & -> & Hsome & ->)]]].
  - auto.
  - split; [|split]; [exact HP1 | exact HF1 | exact HA1].
  - exfalso. destruct HA1 as ((c & Hc & _) & _). congruence.
  - destruct HA1 as ((c & Hc & Hm) & Hinc & Hb).
    assert (c = content) as -> by congruence.
    split; [|split].
    + eapply persists_trans; [exact HP1|].
      eapply persists_trans;
        [apply (persists_dir w1 (addEvents [EvRecognize imgs] w1)); reflexivity|].
      eapply persists_trans; [apply (persists_putFile (pageTexPath n) text)|].
      eapply persists_trans; [apply (persists_putFile MAIN_TEX_PATH)|].
      apply persists_dir. reflexivity.
    + eapply frameBelow_trans; [exact HF1|].
      intros f Hp Hf. simpl.
      rewrite lookup_insert_ne by (intros <-; now rewrite isPageTex_main in Hp).
      apply lookup_insert_ne. intros E. symmetry in E. revert E.
      now apply pageNumberOf_below_neq.
    + split; [|split].
      * exists (updateManifest n content). split; [apply lookup_insert_eq|].
        now apply Manifest_update.
      * now apply increasing_snoc.
      * intros p Hp. simpl.
        rewrite lookup_insert_ne by (intros E; symmetry in E; revert E; apply pageTexPath_not_main).
        apply in_app_or in Hp as [Hp|[<-|[]]].
        -- apply (persists_putFile (pageTexPath n) text
                    (addEvents [EvRecognize imgs] w1)). now apply Hb.
        -- rewrite lookup_insert_eq. eauto.
Qed.

(** *** The retry loop of one page *)

Lemma retryLoop_state envs N n : forall a last w r rest w' ps closed,
  Assembled w ps closed -> Forall (fun p => p < n) ps -> 0 <= n ->
  retryLoop envs N n a last w = (r, rest, w') ->
  persists w w' /\ frameBelow n w w' /\
  match r with
  | PageSucceeded => Assembled w' (ps ++ [n]) closed
  | _ => Assembled w' ps closed
  end.
Proof.
  induction envs as [|e envs IH]; intros a last w r rest w' ps closed HA Hps Hn H;
    cbn [retryLoop] in H; destruct (a <=? MAX_RETRIES).
  1,2,4: injection H as <- <- <-;
    (split; [apply persists_refl|]; split; [apply frameBelow_refl | exact HA]).
  destruct (attemptBody e N n w) as [[[]|err] w1] eqn:Eb.
  - injection H as <- <- <-.
    now apply (attemptBody_state e N n w (Ok tt) w1 ps closed).
  - destruct (attemptBody_state e N n w (Throw err) w1 ps closed HA Hps Hn Eb)
      as (HP & HF & HA1).
    destruct (isQuotaError err).
    + destruct (IH _ _ _ _ _ _ _ _ HA1 Hps Hn H) as (HP' & HF' & HA').
      split; [eapply persists_trans; eauto|].
      split; [eapply frameBelow_trans; eauto | exact HA'].
    + assert (HA2 : Assembled (snd (emit (EvAttemptFailed n a err) w1)) ps closed)
        by (eapply Assembled_dir; [|exact HA1]; reflexivity).
      destruct (IH _ _ _ _ _ _ _ _ HA2 Hps Hn H) as (HP' & HF' & HA').
      split; [eapply persists_trans; [exact HP|]; exact HP'|].
      split; [eapply frameBelow_trans; [exact HF|]; exact HF' | exact HA'].
Qed.

(** *** The page loop *)

Lemma pageLoop_state fuel N : forall envs i w r w' ps closed,
  Assembled w ps closed -> Forall (fun p => p <= i) ps -> 0 <= i ->
  pageLoop fuel envs N i w = (r, w') ->
  exists new,
    Assembled w' (ps ++ new) closed /\ Forall (fun p => i < p) new /\
    persists w w' /\ frameBelow (i + 1) w w'.
Proof.
  induction fuel as [|fuel IH]; intros envs i w r w' ps closed HA Hps Hi H;
    cbn [pageLoop] in H.
  { injection H as <- <-. exists []. rewrite app_nil_r.
    split; [exact HA|]. split; [constructor|].
    split; [apply persists_refl | apply frameBelow_refl]. }
  destruct (i <? N).
  2:{ injection H as <- <-. exists []. rewrite app_nil_r.
      split; [exact HA|]. split; [constructor|].
      split; [apply persists_refl | apply frameBelow_refl]. }
  cbv zeta in H.
  set (w1 := snd (emit (EvPageStart (i + 1) N) w)) in *.
  assert (HA1 : Assembled w1 ps closed) by (eapply Assembled_dir; [|exact HA]; reflexivity).
  assert (Hlt : Forall (fun p => p < i + 1) ps).
  { eapply List.Forall_impl; [|exact Hps]. simpl. intros; lia. }
  destruct (retryLoop envs N (i + 1) 1 None w1) as [[[| |] rest] w2] eqn:Er;
    destruct (retryLoop_state _ _ _ _ _ _ _ _ _ _ _ HA1 Hlt ltac:(lia) Er)
      as (HP & HF & HA2).
  - assert (Hle : Forall (fun p => p <= i + 1) (ps ++ [i + 1])).
    { apply Forall_app. split; [|repeat constructor; lia].
      eapply List.Forall_impl; [|exact Hps]. simpl. intros; lia. }
    destruct (IH _ _ _ _ _ _ _ HA2 Hle ltac:(lia) H) as (new & HA' & Hnew & HP' & HF').
    exists ((i + 1) :: new). rewrite <- app_assoc in HA'.
    split; [exact HA'|]. split.
    + constructor; [lia|]. eapply List.Forall_impl; [|exact Hnew]. simpl. intros; lia.
    + split; [eapply persists_trans; [exact HP|]; exact HP'|].
      eapply frameBelow_trans; [exact HF|].
      eapply frameBelow_mono; [|exact HF']. lia.
  - injection H as <- <-. exists []. rewrite app_nil_r.
    split; [eapply Assembled_dir; [|exact HA2]; reflexivity|].
    split; [constructor|].
    split; [eapply persists_trans; [exact HP|]; now apply persists_dir|].
    eapply frameBelow_trans; [exact HF|]. now apply frameBelow_dir.
  - injection H as <- <-. exists []. rewrite app_nil_r.
    split; [exact HA2|]. split; [constructor|]. auto.
Qed.

End Directory.

(* ================================================================== *)
(** * A run of the driver                                              *)
(* ================================================================== *)

Section Run.

Lemma setupWorkspace_cases w :
  setupWorkspace w =
  (Ok tt, match dir w !! MAIN_TEX_PATH with
          | Some _ => w
          | None => putFile MAIN_TEX_PATH initialContent w
          end).
Proof.
  unfold setupWorkspace, tryCatch, Fs.access, Fs.writeFile.
  now destruct (dir w !! MAIN_TEX_PATH).
Qed.

Lemma finalizeDocument_cases w content :
  dir w !! MAIN_TEX_PATH = Some content ->
  finalizeDocument w =
  (Ok tt, addEvents [EvFinished]
            (if JS.includes endDocument content then w
             else putFile MAIN_TEX_PATH (finalizeManifest content) w)).
Proof.
  intros H. unfold finalizeDocument, bind, Fs.readFile. rewrite H.
  unfold finalizeManifest.
  destruct (JS.includes endDocument content) eqn:E; [reflexivity|].
  unfold Fs.appendFile, emit. now rewrite H.
Qed.

(** The driver, with the set-up and the listing evaluated. *)
Lemma processPdfDocument_unfold envs N w :
  processPdfDocument envs N w =
  let ws := afterSetup w in
  let last := getLastProcessedPageByTex (listing ws) in
  match pageLoop (Z.to_nat (N - last)) envs N last ws with
  | (OutOfScript, w') => (Ok OutOfScript, w')
  | (r, w') => (let* _ := finalizeDocument in ret r) w'
  end.
Proof.
  unfold processPdfDocument. unfold bind at 1. rewrite setupWorkspace_cases.
  reflexivity.
Qed.

Lemma listing_afterSetup w f :
  isPageTex f = true -> In f (listing (afterSetup w)) <-> In f (listing w).
Proof.
  intros Hp. rewrite !In_listing. unfold afterSetup.
  destruct (dir w !! MAIN_TEX_PATH); [reflexivity|]. simpl.
  rewrite lookup_insert_ne; [reflexivity|].
  intros <-. now rewrite isPageTex_main in Hp.
Qed.

(** Creating the preamble does not move the start page. *)
Lemma getLast_afterSetup w :
  getLastProcessedPageByTex (listing (afterSetup w))
  = getLastProcessedPageByTex (listing w).
Proof. apply getLast_ext. intros f Hp. now apply listing_afterSetup. Qed.

Lemma afterSetup_persists w : persists w (afterSetup w).
Proof.
  unfold afterSetup. destruct (dir w !! MAIN_TEX_PATH);
    [apply persists_refl | apply persists_putFile].
Qed.

Lemma afterSetup_frame s w : frameBelow s w (afterSetup w).
Proof.
  unfold afterSetup. destruct (dir w !! MAIN_TEX_PATH); [apply frameBelow_refl|].
  intros f Hp _. simpl. apply lookup_insert_ne.
  intros <-. now rewrite isPageTex_main in Hp.
Qed.

Lemma afterSetup_assembled w :
  WorldInv w ->
  exists ps closed,
    match dir w !! MAIN_TEX_PATH with
    | Some _ => Assembled w ps closed
    | None => ps = [] /\ closed = false
    end /\ Assembled (afterSetup w) ps closed.
Proof.
  intros HI. unfold afterSetup. destruct (dir w !! MAIN_TEX_PATH) as [content|] eqn:E.
  - destruct (HI content E) as (ps & closed & HA). exists ps, closed. auto.
  - exists [], false. split; [auto|]. split; [|split].
    + exists initialContent. split; [apply lookup_insert_eq | apply Manifest_initial].
    + constructor.
    + intros p [].
Qed.

(** Every referenced page lies at or below the last page unit found. *)
Lemma Assembled_below_last w ps closed :
  Assembled w ps closed ->
  Forall (fun p => p <= getLastProcessedPageByTex (listing w)) ps.
Proof.
  intros HA. pose proof (Assembled_nonneg _ _ _ HA) as Hnn.
  destruct HA as (_ & _ & Hb). apply List.Forall_forall. intros p Hp.
  rewrite List.Forall_forall in Hnn. specialize (Hnn p Hp).
  rewrite <- (pageNumberOf_pageTexPath p Hnn) at 1.
  apply getLast_upper; [|now apply isPageTex_pageTexPath].
  apply In_listing. now apply Hb.
Qed.

Lemma finalize_assembled w ps closed :
  Assembled w ps closed ->
  exists w', finalizeDocument w = (Ok tt, w') /\ Assembled w' ps true /\
             persists w w' /\ (forall s, frameBelow s w w') /\
             log w' = log w ++ [EvFinished].
Proof.
  intros ((content & Hc & Hm) & Hinc & Hb).
  rewrite (finalizeDocument_cases w content Hc).
  eexists. split; [reflexivity|].
  rewrite (Manifest_includes _ _ _ Hm). destruct closed.
  - split; [|split; [|split]]; [|now apply persists_dir|
      intros s; now apply frameBelow_dir|reflexivity].
    split; [exists content; auto | auto].
  - split; [|split; [|split]]; [| | |reflexivity].
    + split; [|split].
      * exists (finalizeManifest content). split; [apply lookup_insert_eq|].
        eapply Manifest_finalize, Hm.
      * exact Hinc.
      * intros p Hp. simpl.
        rewrite lookup_insert_ne by (intros E; symmetry in E; revert E; apply pageTexPath_not_main).
        now apply Hb.
    + eapply persists_trans; [apply (persists_putFile MAIN_TEX_PATH)|].
      apply persists_dir. reflexivity.
    + intros s f Hp _. simpl. apply lookup_insert_ne.
      intros <-. now rewrite isPageTex_main in Hp.
Qed.

(** What a run does to an assembled directory: references are only
    added, for pages from the start page on; page units below the start
    page are left alone; no file disappears; and a run that reaches its
    end leaves the manifest closed. *)
Lemma processPdfDocument_state envs N w r w' :
  WorldInv w ->
  processPdfDocument envs N w = (r, w') ->
  exists ps closed new closed',
    match dir w !! MAIN_TEX_PATH with
    | Some _ => Assembled w ps closed
    | None => ps = [] /\ closed = false
    end /\
    Assembled w' (ps ++ new) closed' /\
    Forall (fun p => startPage (listing w) <= p) new /\
    persists w w' /\
    frameBelow (startPage (listing w)) w w' /\
    exists l, r = Ok l /\ (l <> OutOfScript -> closed' = true).
Proof.
  intros HI. rewrite processPdfDocument_unfold. cbv zeta.
  rewrite getLast_afterSetup.
  destruct (afterSetup_assembled w HI) as (ps & closed & Hw & HA).
  set (last := getLastProcessedPageByTex (listing w)).
  assert (Hps : Forall (fun p => p <= last) ps).
  { unfold last. rewrite <- getLast_afterSetup. eapply Assembled_below_last, HA. }
  assert (Hlast : 0 <= last) by apply getLast_nonneg.
  destruct (pageLoop (Z.to_nat (N - last)) envs N last (afterSetup w)) as [l w1] eqn:El.
  destruct (pageLoop_state _ _ _ _ _ _ _ _ _ HA Hps Hlast El)
    as (new & HA1 & Hnew & HP & HF).
  assert (Hnew' : Forall (fun p => startPage (listing w) <= p) new).
  { eapply List.Forall_impl; [|exact Hnew]. unfold startPage. fold last.
    simpl. intros; lia. }
  assert (HP0 : persists w w1)
    by (eapply persists_trans; [apply afterSetup_persists | exact HP]).
  assert (HF0 : frameBelow (startPage (listing w)) w w1)
    by (eapply frameBelow_trans; [apply afterSetup_frame | exact HF]).
  destruct (finalize_assembled _ _ _ HA1) as (w2 & Hfin & HA2 & HP2 & HF2 & _).
  assert (Hend : forall l0, (let* _ := finalizeDocument in ret l0) w1 = (r, w') ->
            exists ps0 closed0 new0 closed',
              match dir w !! MAIN_TEX_PATH with
              | Some _ => Assembled w ps0 closed0
              | None => ps0 = [] /\ closed0 = false
              end /\
              Assembled w' (ps0 ++ new0) closed' /\
              Forall (fun p => startPage (listing w) <= p) new0 /\
              persists w w' /\ frameBelow (startPage (listing w)) w w' /\
              exists l1, r = Ok l1 /\ (l1 <> OutOfScript -> closed' = true)).
  { intros l0. unfold bind, ret. rewrite Hfin. intros [= <- <-].
    exists ps, closed, new, true. split; [exact Hw|]. split; [exact HA2|].
    split; [exact Hnew'|]. split; [eapply persists_trans; eauto|].
    split; [eapply frameBelow_trans; [exact HF0 | apply HF2]|].
    exists l0. auto. }
  destruct l; [apply Hend | apply Hend |].
  intros [= <- <-]. exists ps, closed, new, closed.
  split; [exact Hw|]. split; [exact HA1|]. split; [exact Hnew'|].
  split; [exact HP0|]. split; [exact HF0|]. exists OutOfScript. split; [reflexivity|].
  intros Hc. now contradiction Hc.
Qed.

Lemma Assembled_interrupted w ps closed text :
  Assembled (afterSetup w) ps closed -> Assembled (interrupted text w) ps closed.
Proof.
  intros ((c & Hc & Hm) & Hinc & Hb). split; [|split].
  - exists c. split; [|exact Hm]. unfold interrupted. simpl.
    now rewrite lookup_insert_ne by apply pageTexPath_not_main.
  - exact Hinc.
  - intros p Hp. apply persists_putFile. now apply Hb.
Qed.

Lemma WorldInv_assembled w ps closed : Assembled w ps closed -> WorldInv w.
Proof. intros HA content _. eauto. Qed.

(** Every reachable directory is an assembled one. *)
Lemma Reachable_inv w : Reachable w -> WorldInv w.
Proof.
  induction 1 as [|w envs N _ IH|w text _ IH].
  - intros content H. simpl in H. rewrite lookup_empty in H. discriminate.
  - destruct (processPdfDocument envs N w) as [r w'] eqn:E.
    destruct (processPdfDocument_state _ _ _ _ _ IH E) as (ps & c & new & c' & _ & HA & _).
    simpl. eapply WorldInv_assembled, HA.
  - destruct (afterSetup_assembled w IH) as (ps & closed & _ & HA).
    eapply WorldInv_assembled, (Assembled_interrupted _ _ _ _ HA).
Qed.

End Run.

(* ================================================================== *)
(** * The trace of a run                                               *)
(* ================================================================== *)

Section Trace.

(** Where an element of a concatenation sits. *)
Lemma app_eq_middle {A} (l1 l2 pre post : list A) (x : A) :
  l1 ++ l2 = pre ++ x :: post ->
  (exists m, l1 = pre ++ x :: m /\ post = m ++ l2) \/
  (exists m, pre = l1 ++ m /\ l2 = m ++ x :: post).
Proof.
  revert pre. induction l1 as [|a l1 IH]; intros pre H.
  - right. exists pre. auto.
  - destruct pre as [|b pre]; simpl in H.
    + injection H as -> <-. left. exists l1. auto.
    + injection H as -> H. destruct (IH pre H) as [(m & -> & ->)|(m & -> & ->)].
      * left. exists m. auto.
      * right. exists m. auto.
Qed.

Lemma not_in_Forall {A} (P : A -> bool) (l pre post : list A) (x : A) :
  Forall (fun y => P y = true) l -> P x = false -> l <> pre ++ x :: post.
Proof.
  intros HF Hx ->. apply Forall_app in HF as [_ HF].
  inversion HF; subst. congruence.
Qed.

Lemma attemptBody_trace e N n w r w' :
  attemptBody e N n w = (r, w') ->
  exists evs,
    log w' = log w ++ evs /\
    Forall (fun ev => isRetryEvent n ev = true) evs /\
    failedAttempts evs = [] /\ quotaWaits evs = [] /\ pagesStarted evs = [] /\
    pagesDone evs = match r with Ok _ => [n] | Throw _ => [] end.
Proof.
  intros H. apply attemptBody_inv in H as (w1 & (_ & _ & evs & Hl & Hev) & Hcases).
  assert (Hretry : Forall (fun ev => isRetryEvent n ev = true) evs).
  { eapply List.Forall_impl; [|exact Hev]. now intros []. }
  assert (Hproj : failedAttempts evs = [] /\ quotaWaits evs = [] /\
                  pagesStarted evs = [] /\ pagesDone evs = []).
  { clear -Hev. induction Hev as [|ev evs Hx _ IH]; [auto|].
    destruct ev; try discriminate. exact IH. }
  destruct Hproj as (Hf & Hq & Hs & Hd).
  unfold failedAttempts, quotaWaits, pagesStarted, pagesDone in *.
  destruct Hcases as [(err & -> & ->)|[(err & imgs & -> & _ & ->)|
    [(err & imgs & text & -> & _ & _ & ->)|(imgs & text & content & -> & _ & ->)]]].
  - exists evs. auto 10.
  - exists (evs ++ [EvRecognize imgs]). simpl. rewrite Hl, <- app_assoc.
    rewrite !omap_app, Hf, Hq, Hs, Hd.
    repeat split; try reflexivity. apply Forall_app. split; [exact Hretry | now repeat constructor].
  - exists (evs ++ [EvRecognize imgs]). simpl. rewrite Hl, <- app_assoc.
    rewrite !omap_app, Hf, Hq, Hs, Hd.
    repeat split; try reflexivity. apply Forall_app. split; [exact Hretry | now repeat constructor].
  - exists (evs ++ [EvRecognize imgs; EvPageDone n]). simpl.
    rewrite Hl, <- !app_assoc. rewrite !omap_app, Hf, Hq, Hs, Hd.
    repeat split; try reflexivity. apply Forall_app. split; [exact Hretry|].
    repeat constructor. simpl. apply Z.eqb_refl.
Qed.

(** The trace of the retry loop of one page.  Counted failures are
    numbered from the current attempt upwards, one by one; the failure
    numbered [MAX_RETRIES] is the last thing the loop does, and the page
    has failed. *)
Lemma retryLoop_trace envs N n : forall a last w r rest w',
  retryLoop envs N n a last w = (r, rest, w') ->
  exists evs,
    log w' = log w ++ evs /\
    Forall (fun ev => isRetryEvent n ev = true) evs /\
    countsFrom a (failedAttempts evs) /\
    quotaWaits evs = [] /\ pagesStarted evs = [] /\
    (pagesDone evs = match r with PageSucceeded => [n] | _ => [] end) /\
    (forall pre k err post,
        evs = pre ++ EvAttemptFailed n k err :: post ->
        a <= k <= MAX_RETRIES /\
        (k = MAX_RETRIES -> post = [] /\ r = PageFailed (Some err))).
Proof.
  induction envs as [|e envs IH]; intros a last w r rest w' H;
    cbn [retryLoop] in H; destruct (Z.leb_spec a MAX_RETRIES) as [Ha|Ha].
  1,2,4: injection H as <- <- <-; exists []; rewrite app_nil_r;
    (split; [reflexivity|]); (split; [constructor|]); (split; [exact I|]);
    (split; [reflexivity|]); (split; [reflexivity|]); (split; [reflexivity|]);
    intros pre k err post Hd; now destruct pre.
  destruct (attemptBody e N n w) as [[[]|err] w1] eqn:Eb;
    destruct (attemptBody_trace _ _ _ _ _ _ Eb) as (evs1 & Hl1 & Hr1 & Hf1 & Hq1 & Hs1 & Hd1).
  - injection H as <- <- <-. exists evs1.
    split; [exact Hl1|]. split; [exact Hr1|]. rewrite Hf1.
    split; [exact I|]. split; [exact Hq1|]. split; [exact Hs1|]. split; [exact Hd1|].
    intros pre k err post Hd. exfalso. subst evs1.
    unfold failedAttempts in Hf1. rewrite omap_app in Hf1. simpl in Hf1.
    now apply app_eq_nil in Hf1 as [_ Hf1].
  - destruct (isQuotaError err).
    + replace (a - 1 + 1) with a in H by lia.
      destruct (IH _ _ _ _ _ _ H) as (evs2 & Hl2 & Hr2 & Hf2 & Hq2 & Hs2 & Hd2 & Hk2).
      exists (evs1 ++ evs2). rewrite Hl2, Hl1, <- app_assoc.
      unfold failedAttempts, quotaWaits, pagesStarted, pagesDone in *.
      rewrite !omap_app, Hf1, Hq1, Hs1, Hd1, Hq2, Hs2, Hd2.
      split; [reflexivity|]. split; [now apply Forall_app|].
      split; [exact Hf2|]. split; [reflexivity|]. split; [reflexivity|].
      split; [reflexivity|].
      intros pre k err' post Hdec.
      apply app_eq_middle in Hdec as [(m & Hm & _)|(m & -> & Hm)].
      * exfalso. subst evs1. rewrite omap_app in Hf1. simpl in Hf1.
        now apply app_eq_nil in Hf1 as [_ Hf1].
      * eapply Hk2, Hm.
    + unfold emit in H. cbn [snd] in H.
      destruct (IH _ _ _ _ _ _ H) as (evs2 & Hl2 & Hr2 & Hf2 & Hq2 & Hs2 & Hd2 & Hk2).
      exists (evs1 ++ [EvAttemptFailed n a err] ++ evs2).
      rewrite Hl2. cbn [addEvents log]. rewrite Hl1, <- !app_assoc.
      unfold failedAttempts, quotaWaits, pagesStarted, pagesDone in *.
      rewrite !omap_app. rewrite Hf1, Hq1, Hs1, Hd1, Hq2, Hs2, Hd2.
      split; [reflexivity|]. split.
      { apply Forall_app. split; [exact Hr1|]. constructor; [|exact Hr2].
        simpl. apply Z.eqb_refl. }
      split; [simpl; auto|]. split; [reflexivity|]. split; [reflexivity|].
      split; [reflexivity|].
      intros pre k err' post Hdec.
      apply app_eq_middle in Hdec as [(m & Hm & _)|(m & -> & Hm)].
      * exfalso. subst evs1. rewrite omap_app in Hf1. simpl in Hf1.
        now apply app_eq_nil in Hf1 as [_ Hf1].
      * destruct m as [|x m]; simpl in Hm.
        -- injection Hm as <- <- <-. split; [lia|]. intros ->.
           clear -H Hl2. destruct envs; cbn [retryLoop] in H;
             change (MAX_RETRIES + 1 <=? MAX_RETRIES) with false in H;
             cbv iota in H; injection H as <- _ <-;
             cbn [addEvents log] in Hl2;
             rewrite <- (app_nil_r (_ ++ [_])) in Hl2 at 1;
             apply app_inv_head in Hl2; auto.
        -- injection Hm as <- Hm. destruct (Hk2 _ _ _ _ Hm) as (Hk & Hlast).
           split; [lia | exact Hlast].
Qed.

(** In the trace of the retry loop of page [n], the counted failures
    are those of page [n]. *)
Lemma failedAttemptsOf_retry n p evs :
  Forall (fun ev => isRetryEvent n ev = true) evs ->
  failedAttemptsOf p evs = if p =? n then failedAttempts evs else [].
Proof.
  unfold failedAttemptsOf, failedAttempts.
  induction 1 as [|ev evs Hev _ IH]; [now destruct (p =? n)|].
  destruct ev; simpl in Hev; try discriminate; cbn [omap list_omap];
    try exact IH.
  apply Z.eqb_eq in Hev as ->. rewrite (Z.eqb_sym n p).
  destruct (p =? n); cbn; now rewrite IH.
Qed.


Lemma countsFrom_ge s l p : countsFrom s l -> In p l -> s <= p.
Proof.
  revert s. induction l as [|y l IH]; intros s; simpl; [tauto|].
  intros [-> H] [->|Hin]; [lia|]. specialize (IH _ H Hin). lia.
Qed.

End Trace.

Section RunTrace.

(** The trace of the page loop: pages are begun one after the other
    from [i + 1] on; nothing ever waits for quota; and a failure
    numbered [MAX_RETRIES] is followed by the notification and the halt,
    and by nothing else. *)
Lemma pageLoop_trace fuel N : forall envs i w r w',
  pageLoop fuel envs N i w = (r, w') ->
  exists evs,
    log w' = log w ++ evs /\
    countsFrom (i + 1) (pagesStarted evs) /\
    countsFrom (i + 1) (pagesDone evs) /\
    quotaWaits evs = [] /\
    ((0 < fuel)%nat -> i < N -> exists evs', evs = EvPageStart (i + 1) N :: evs') /\
    (forall pre p err post,
        evs = pre ++ EvAttemptFailed p MAX_RETRIES err :: post ->
        r = Halted p /\
        post = [EvNotify (notifyMessage p); EvHalt p (Some err)]) /\
    (forall p, countsFrom 1 (failedAttemptsOf p evs) /\
               (p <= i -> failedAttemptsOf p evs = [])).
Proof.
  induction fuel as [|fuel IH]; intros envs i w r w' H; cbn [pageLoop] in H.
  { injection H as <- <-. exists []. rewrite app_nil_r.
    split; [reflexivity|]. split; [exact I|]. split; [exact I|].
    split; [reflexivity|]. split; [lia|].
    split; [intros pre p err post Hd; now destruct pre|].
    intros p. split; [exact I | reflexivity]. }
  destruct (Z.ltb_spec i N) as [Hi|Hi].
  2:{ injection H as <- <-. exists []. rewrite app_nil_r.
      split; [reflexivity|]. split; [exact I|]. split; [exact I|].
      split; [reflexivity|]. split; [lia|].
      split; [intros pre p err post Hd; now destruct pre|].
      intros p. split; [exact I | reflexivity]. }
  cbv zeta in H.
  destruct (retryLoop envs N (i + 1) 1 None (snd (emit (EvPageStart (i + 1) N) w)))
    as [[rp rest] w2] eqn:Er.
  destruct (retryLoop_trace _ _ _ _ _ _ _ _ _ Er)
    as (evsR & HlR & HrR & HfR & HqR & HsR & HdR & HkR).
  cbn [emit snd addEvents log] in HlR.
  (* the counted failures, page by page *)
  assert (Hfa : forall tail p,
             (countsFrom 1 (failedAttemptsOf p tail) /\
              (p <= i + 1 -> failedAttemptsOf p tail = [])) ->
             countsFrom 1 (failedAttemptsOf p ([EvPageStart (i + 1) N] ++ evsR ++ tail)) /\
             (p <= i -> failedAttemptsOf p ([EvPageStart (i + 1) N] ++ evsR ++ tail) = [])).
  { intros tail p (Hc & Hnil).
    assert (E : failedAttemptsOf p ([EvPageStart (i + 1) N] ++ evsR ++ tail)
                = failedAttemptsOf p evsR ++ failedAttemptsOf p tail).
    { unfold failedAttemptsOf. now rewrite !omap_app. }
    rewrite E, (failedAttemptsOf_retry (i + 1) p evsR HrR).
    destruct (Z.eqb_spec p (i + 1)) as [->|Hne].
    - rewrite Hnil by lia. rewrite app_nil_r. split; [exact HfR | lia].
    - split; [exact Hc|]. intros Hp. apply Hnil. lia. }
  unfold quotaWaits, pagesStarted, pagesDone in *.
  (* the part of the trace that follows the retry loop *)
  assert (Hcut : forall tail pre p err post,
             [EvPageStart (i + 1) N] ++ evsR ++ tail
             = pre ++ EvAttemptFailed p MAX_RETRIES err :: post ->
             (p = i + 1 /\ rp = PageFailed (Some err) /\ post = tail) \/
             (exists m, tail = m ++ EvAttemptFailed p MAX_RETRIES err :: post)).
  { intros tail pre p err post Hd.
    apply app_eq_middle in Hd as [(m & Hm & _)|(m & -> & Hd)].
    { destruct pre as [|? [|? ?]]; discriminate. }
    apply app_eq_middle in Hd as [(m' & Hm & ->)|(m' & _ & Hd)]; [|eauto].
    left. assert (p = i + 1) as ->.
    { rewrite Hm in HrR. apply Forall_app in HrR as [_ HrR].
      inversion HrR as [|? ? Hx _]; subst. simpl in Hx. now apply Z.eqb_eq in Hx. }
    destruct (HkR _ _ _ _ Hm) as (_ & Hlast).
    destruct (Hlast eq_refl) as (-> & ->). auto. }
  destruct rp as [|lastError|].
  - destruct (IH _ _ _ _ _ H) as (evs2 & Hl2 & Hs2 & Hd2 & Hq2 & _ & Hk2 & Hf2).
    exists ([EvPageStart (i + 1) N] ++ evsR ++ evs2).
    rewrite Hl2, HlR, <- !app_assoc.
    rewrite !omap_app, HsR, HqR, HdR, Hq2.
    split; [reflexivity|]. split; [simpl; auto|]. split; [simpl; auto|].
    split; [reflexivity|]. split; [eauto|]. split.
    + intros pre p err post Hd.
      apply Hcut in Hd as [(_ & Hrp & _)|(m & Hm)]; [discriminate|].
      eapply Hk2, Hm.
    + intros p. apply Hfa, Hf2.
  - injection H as <- <-.
    exists ([EvPageStart (i + 1) N] ++ evsR ++
            [EvNotify (notifyMessage (i + 1)); EvHalt (i + 1) lastError]).
    unfold bind, sendPushoverNotification, emit. cbn [snd addEvents log].
    rewrite HlR, <- !app_assoc.
    rewrite !omap_app, HsR, HqR, HdR.
    split; [reflexivity|]. split; [simpl; auto|]. split; [simpl; auto|].
    split; [reflexivity|]. split; [eauto|]. split.
    + intros pre p err post Hd.
      apply Hcut in Hd as [(-> & [= ->] & ->)|(m & Hm)]; [auto|].
      exfalso. destruct m as [|? [|? [|? ?]]]; discriminate.
    + intros p. apply Hfa. split; [exact I | reflexivity].
  - injection H as <- <-.
    exists ([EvPageStart (i + 1) N] ++ evsR). rewrite HlR, <- !app_assoc.
    rewrite !omap_app, HsR, HqR, HdR.
    split; [reflexivity|]. split; [simpl; auto|]. split; [simpl; auto|].
    split; [reflexivity|]. split; [eauto|]. split.
    + intros pre p err post Hd. rewrite <- (app_nil_r evsR) in Hd.
      apply Hcut in Hd as [(_ & Hrp & _)|(m & Hm)]; [discriminate|].
      now destruct m.
    + intros p. rewrite <- (app_nil_r evsR). apply Hfa. split; [exact I | reflexivity].
Qed.

Lemma main_exists_afterSetup w : is_Some (dir (afterSetup w) !! MAIN_TEX_PATH).
Proof.
  unfold afterSetup. destruct (dir w !! MAIN_TEX_PATH) eqn:E; [rewrite E; eauto|].
  simpl. rewrite lookup_insert_eq. eauto.
Qed.

Lemma finalizeDocument_log w :
  is_Some (dir w !! MAIN_TEX_PATH) ->
  exists w', finalizeDocument w = (Ok tt, w') /\ log w' = log w ++ [EvFinished] /\
             persists w w'.
Proof.
  intros [content Hc]. rewrite (finalizeDocument_cases w content Hc).
  eexists. split; [reflexivity|]. split.
  - now destruct (JS.includes endDocument content).
  - destruct (JS.includes endDocument content).
    + now apply persists_dir.
    + eapply persists_trans; [apply (persists_putFile MAIN_TEX_PATH)|]. now apply persists_dir.
Qed.

(** The trace of a run, from any directory. *)
Lemma processPdfDocument_trace envs N w r w' :
  processPdfDocument envs N w = (r, w') ->
  exists l evs,
    r = Ok l /\
    log w' = log w ++ evs /\
    countsFrom (startPage (listing w)) (pagesStarted evs) /\
    countsFrom (startPage (listing w)) (pagesDone evs) /\
    quotaWaits evs = [] /\
    (startPage (listing w) <= N ->
     exists evs', evs = EvPageStart (startPage (listing w)) N :: evs') /\
    (forall pre p err post,
        evs = pre ++ EvAttemptFailed p MAX_RETRIES err :: post ->
        l = Halted p /\
        post = [EvNotify (notifyMessage p); EvHalt p (Some err); EvFinished]) /\
    (forall p, countsFrom 1 (failedAttemptsOf p evs)).
Proof.
  rewrite processPdfDocument_unfold. cbv zeta. rewrite getLast_afterSetup.
  unfold startPage. set (last := getLastProcessedPageByTex (listing w)).
  destruct (pageLoop (Z.to_nat (N - last)) envs N last (afterSetup w)) as [l w1] eqn:El.
  destruct (pageLoop_trace _ _ _ _ _ _ _ El)
    as (evs & Hl & Hs & Hd & Hq & Hfirst & Hk & Hfa).
  assert (Hlog0 : log (afterSetup w) = log w).
  { unfold afterSetup. now destruct (dir w !! MAIN_TEX_PATH). }
  rewrite Hlog0 in Hl.
  assert (Hmain : is_Some (dir w1 !! MAIN_TEX_PATH)).
  { eapply pageLoop_persists; [exact El | apply main_exists_afterSetup]. }
  destruct (finalizeDocument_log w1 Hmain) as (w2 & Hfin & Hl2 & _).
  assert (Hend :
            (let* _ := finalizeDocument in ret l) w1 = (r, w') ->
            exists l1 evs1,
              r = Ok l1 /\ log w' = log w ++ evs1 /\
              countsFrom (last + 1) (pagesStarted evs1) /\
              countsFrom (last + 1) (pagesDone evs1) /\
              quotaWaits evs1 = [] /\
              (last + 1 <= N -> exists evs', evs1 = EvPageStart (last + 1) N :: evs') /\
              (forall pre p err post,
                  evs1 = pre ++ EvAttemptFailed p MAX_RETRIES err :: post ->
                  l1 = Halted p /\
                  post = [EvNotify (notifyMessage p); EvHalt p (Some err); EvFinished]) /\
              (forall p, countsFrom 1 (failedAttemptsOf p evs1))).
  { unfold bind, ret. rewrite Hfin. intros [= <- <-].
    exists l, (evs ++ [EvFinished]). rewrite Hl2, Hl, <- app_assoc.
    unfold quotaWaits, pagesStarted, pagesDone in *.
    rewrite !omap_app, Hq. cbn [omap]. rewrite !app_nil_r.
    split; [reflexivity|]. split; [reflexivity|]. split; [exact Hs|].
    split; [exact Hd|]. split; [reflexivity|]. split; [|split].
    - intros HN. destruct (Hfirst ltac:(lia) ltac:(lia)) as (evs' & ->). eauto.
    - intros pre p err post Hdec.
      apply app_eq_middle in Hdec as [(m & Hm & ->)|(m & _ & Hm)].
      + destruct (Hk _ _ _ _ Hm) as (-> & ->). auto.
      + exfalso. destruct m as [|? [|? ?]]; discriminate.
    - intros p. unfold failedAttemptsOf. rewrite omap_app. cbn [omap list_omap].
      rewrite app_nil_r. apply Hfa. }
  clear Hfin.
  destruct l; [exact Hend | exact Hend |]. clear Hend.
  intros [= <- <-]. exists OutOfScript, evs.
  split; [reflexivity|]. split; [exact Hl|]. split; [exact Hs|]. split; [exact Hd|].
  split; [exact Hq|]. split; [|split].
  - intros HN. apply Hfirst; lia.
  - intros pre p err post Hdec. destruct (Hk _ _ _ _ Hdec) as (Hr & _). discriminate.
  - intros p. apply Hfa.
Qed.

End RunTrace.

(* ================================================================== *)
(** * A long enough script lets the run reach its end                  *)
(* ================================================================== *)

Section Termination.

Lemma getImageBuffer_throw e N j w err w1 :
  getImageBuffer e N j w = (Throw err, w1) -> converter e j = RenderThrows err.
Proof.
  destruct (Z.lt_ge_cases j 1) as [H|H].
  { rewrite getImageBuffer_out by auto. discriminate. }
  destruct (Z.lt_ge_cases N j) as [H'|H'].
  { rewrite getImageBuffer_out by auto. discriminate. }
  rewrite getImageBuffer_in by lia.
  destruct (converter e j); [|discriminate|discriminate]. now intros [= -> _].
Qed.

Lemma contextWindow_throw e N n w err w1 :
  contextWindow e N n w = (Throw err, w1) ->
  exists j, converter e j = RenderThrows err.
Proof.
  unfold contextWindow, bind, ret.
  destruct (getImageBuffer e N (n - 1) w) as [[prev|err0] wa] eqn:Ea.
  2:{ intros [= <- _]. eexists. eapply getImageBuffer_throw, Ea. }
  destruct (getImageBuffer e N n wa) as [[curr|err0] wb] eqn:Eb.
  2:{ intros [= <- _]. eexists. eapply getImageBuffer_throw, Eb. }
  destruct (getImageBuffer e N (n + 1) wb) as [[next|err0] wc] eqn:Ec; [discriminate|].
  intros [= <- _]. eexists. eapply getImageBuffer_throw, Ec.
Qed.

(** The only errors of an attempt that pass the quota test are errors of
    the renderer. *)
Lemma attemptBody_quota_source e N n w err w' :
  attemptBody e N n w = (Throw err, w') -> isQuotaError err = true ->
  exists j, converter e j = RenderThrows err.
Proof.
  intros Hb Hq.
  destruct (contextWindow e N n w) as [[[[prev curr] next]|err0] w1] eqn:Ew.
  - exfalso. rewrite (attemptBody_window _ _ _ _ _ _ _ _ Ew) in Hb.
    destruct curr as [c|].
    2:{ injection Hb as <- _. now rewrite errNoImage_not_quota in Hq. }
    destruct (apiKey e); cbn [negb] in Hb.
    2:{ injection Hb as <- _. now rewrite errApiKey_not_quota in Hq. }
    cbv zeta in Hb.
    destruct (generateContent e) as [err1| | |v];
      try (injection Hb as <- _; now rewrite errApiFailed_not_quota in Hq).
    destruct (dir w1 !! MAIN_TEX_PATH) as [content|] eqn:Em; [discriminate|].
    match type of Hb with (fst (recordInManifest n ?w3), _) = _ =>
      destruct (recordInManifest_none n w3) as (err1 & Hr & Hq1 & _)
    end.
    { simpl. rewrite lookup_insert_ne by apply pageTexPath_not_main. exact Em. }
    rewrite Hr in Hb. injection Hb as <- _. congruence.
  - unfold attemptBody in Hb. unfold bind at 1 in Hb. rewrite Ew in Hb.
    injection Hb as <- _. eapply contextWindow_throw, Ew.
Qed.

(** With a plain renderer every failed attempt is counted, so the retry
    loop needs at most as many entries of the script as attempts are
    left. *)
Lemma retryLoop_ends envs N n : forall a last w,
  Forall plainRenderer envs ->
  (Z.to_nat (MAX_RETRIES + 1 - a) <= length envs)%nat ->
  exists r rest w',
    retryLoop envs N n a last w = (r, rest, w') /\
    r <> ScriptEnded /\
    Forall plainRenderer rest /\
    (length envs <= length rest + Z.to_nat (MAX_RETRIES + 1 - a))%nat.
Proof.
  induction envs as [|e envs IH]; intros a last w Hpl Hlen; cbn [retryLoop];
    destruct (Z.leb_spec a MAX_RETRIES) as [Ha|Ha].
  - simpl in Hlen. lia.
  - eexists _, _, _. split; [reflexivity|]. split; [discriminate|]. split; [constructor|].
    simpl. lia.
  - inversion Hpl as [|? ? He Hpl']; subst.
    destruct (attemptBody e N n w) as [[[]|err] w1] eqn:Eb.
    + eexists _, _, _. split; [reflexivity|]. split; [discriminate|].
      split; [exact Hpl'|]. simpl. lia.
    + destruct (isQuotaError err) eqn:Hq.
      { exfalso. destruct (attemptBody_quota_source _ _ _ _ _ _ Eb Hq) as (j & Hj).
        rewrite (He j err Hj) in Hq. discriminate. }
      destruct (IH (a + 1) (Some err) (snd (emit (EvAttemptFailed n a err) w1)) Hpl')
        as (r & rest & w' & Hr & Hne & Hpr & Hl).
      { simpl in Hlen. lia. }
      exists r, rest, w'. split; [exact Hr|]. split; [exact Hne|]. split; [exact Hpr|].
      simpl. lia.
  - eexists _, _, _. split; [reflexivity|]. split; [discriminate|]. split; [exact Hpl|].
    simpl. lia.
Qed.

Lemma pageLoop_ends fuel N : forall envs i w,
  Forall plainRenderer envs ->
  (3 * fuel <= length envs)%nat ->
  fst (pageLoop fuel envs N i w) <> OutOfScript.
Proof.
  induction fuel as [|fuel IH]; intros envs i w Hpl Hlen; cbn [pageLoop];
    [discriminate|].
  destruct (i <? N); [|discriminate]. cbv zeta.
  destruct (retryLoop_ends envs N (i + 1) 1 None
              (snd (emit (EvPageStart (i + 1) N) w)) Hpl)
    as (r & rest & w' & Hr & Hne & Hpr & Hl).
  { unfold MAX_RETRIES. simpl. lia. }
  rewrite Hr. destruct r; [|discriminate|contradiction].
  apply IH; [exact Hpr|]. unfold MAX_RETRIES in Hl. simpl in Hl. lia.
Qed.

(** A run with a plain renderer and three entries of script for every
    page that is left reaches its end: all pages done, or halted. *)
Lemma run_reaches_end envs N w :
  Forall plainRenderer envs ->
  (3 * Z.to_nat (N - getLastProcessedPageByTex (listing w)) <= length envs)%nat ->
  exists l w', processPdfDocument envs N w = (Ok l, w') /\ l <> OutOfScript.
Proof.
  intros Hpl Hlen.
  destruct (processPdfDocument envs N w) as [r w'] eqn:E.
  destruct (processPdfDocument_trace _ _ _ _ _ E) as (l & evs & -> & _).
  exists l, w'. split; [reflexivity|]. intros ->.
  rewrite processPdfDocument_unfold in E. cbv zeta in E.
  rewrite getLast_afterSetup in E.
  pose proof (pageLoop_ends (Z.to_nat (N - getLastProcessedPageByTex (listing w)))
                N envs (getLastProcessedPageByTex (listing w)) (afterSetup w) Hpl Hlen) as Hne.
  destruct (pageLoop _ envs N _ (afterSetup w)) as [[| |] w1]; simpl in Hne.
  - unfold bind, ret in E. destruct (finalizeDocument w1) as [[[]|?] ?]; discriminate.
  - unfold bind, ret in E. destruct (finalizeDocument w1) as [[[]|?] ?]; discriminate.
  - contradiction.
Qed.

End Termination.

(* ================================================================== *)
(** * Counting the failures of a page                                  *)
(* ================================================================== *)

Section Failures.

Lemma countsFrom_length s l :
  countsFrom s l -> l = List.map (fun k => s + Z.of_nat k) (seq 0 (length l)).
Proof.
  revert s. induction l as [|x l IH]; intros s; simpl; [reflexivity|].
  intros [-> H]. f_equal; [lia|]. rewrite (IH _ H) at 1.
  rewrite <- seq_shift, List.map_map. apply List.map_ext. intros k. lia.
Qed.

(** The counted failures of a retry loop are numbered up to
    [MAX_RETRIES], and when the page has failed, all numbers from the
    first attempt of the loop up to [MAX_RETRIES] are there. *)
Lemma retryLoop_failures envs N n : forall a last w r rest w' evs,
  retryLoop envs N n a last w = (r, rest, w') ->
  log w' = log w ++ evs ->
  Forall (fun k => k <= MAX_RETRIES) (failedAttempts evs) /\
  (forall le, r = PageFailed le -> a <= MAX_RETRIES + 1 ->
              Z.of_nat (length (failedAttempts evs)) = MAX_RETRIES + 1 - a).
Proof.
  induction envs as [|e envs IH]; intros a last w r rest w' evs H Hlog;
    cbn [retryLoop] in H; destruct (Z.leb_spec a MAX_RETRIES) as [Ha|Ha].
  1,2,4: injection H as <- <- <-;
    rewrite <- (app_nil_r (log w)) in Hlog at 1; apply app_inv_head in Hlog;
    subst evs; (split; [constructor|]); intros le Hle Hb;
    try discriminate; simpl; lia.
  destruct (attemptBody e N n w) as [[[]|err] w1] eqn:Eb;
    destruct (attemptBody_trace _ _ _ _ _ _ Eb) as (evs1 & Hl1 & _ & Hf1 & _).
  - injection H as <- <- <-. rewrite Hl1 in Hlog. apply app_inv_head in Hlog.
    subst evs. rewrite Hf1. split; [constructor|]. discriminate.
  - destruct (isQuotaError err).
    + replace (a - 1 + 1) with a in H by lia.
      destruct (retryLoop_trace _ _ _ _ _ _ _ _ _ H) as (evs2 & Hl2 & _).
      destruct (IH _ _ _ _ _ _ _ H Hl2) as (Hb2 & Hc2).
      rewrite Hl2, Hl1, <- app_assoc in Hlog. apply app_inv_head in Hlog. subst evs.
      unfold failedAttempts in *. rewrite omap_app, Hf1. simpl. auto.
    + destruct (retryLoop_trace _ _ _ _ _ _ _ _ _ H) as (evs2 & Hl2 & _).
      destruct (IH _ _ _ _ _ _ _ H Hl2) as (Hb2 & Hc2).
      unfold emit in Hl2. cbn [snd addEvents log] in Hl2.
      rewrite Hl2, Hl1, <- !app_assoc in Hlog. apply app_inv_head in Hlog. subst evs.
      unfold failedAttempts in *. rewrite !omap_app, Hf1. cbn [app].
      change (omap _ [EvAttemptFailed n a err]) with [a]. cbn [app length].
      split; [constructor; [exact Ha | exact Hb2]|].
      intros le Hle Hb. specialize (Hc2 le Hle). lia.
Qed.

(** The counted failures of every page are numbered up to [MAX_RETRIES];
    the page loop halts at a page only after the failures 1, 2, 3 of this
    page. *)
Lemma pageLoop_failures fuel N : forall envs i w r w' evs,
  pageLoop fuel envs N i w = (r, w') ->
  log w' = log w ++ evs ->
  (forall p, Forall (fun k => k <= MAX_RETRIES) (failedAttemptsOf p evs)) /\
  (forall p, r = Halted p -> i < p /\ failedAttemptsOf p evs = [1; 2; 3]).
Proof.
  induction fuel as [|fuel IH]; intros envs i w r w' evs H Hlog; cbn [pageLoop] in H.
  { injection H as <- <-. rewrite <- (app_nil_r (log w)) in Hlog at 1.
    apply app_inv_head in Hlog. subst evs. split; [constructor | discriminate]. }
  destruct (Z.ltb_spec i N) as [Hi|Hi].
  2:{ injection H as <- <-. rewrite <- (app_nil_r (log w)) in Hlog at 1.
      apply app_inv_head in Hlog. subst evs. split; [constructor | discriminate]. }
  cbv zeta in H.
  destruct (retryLoop envs N (i + 1) 1 None (snd (emit (EvPageStart (i + 1) N) w)))
    as [[rp rest] w2] eqn:Er.
  destruct (retryLoop_trace _ _ _ _ _ _ _ _ _ Er)
    as (evsR & HlR & HrR & HfR & _).
  destruct (retryLoop_failures _ _ _ _ _ _ _ _ _ _ Er HlR) as (HbR & HcR).
  cbn [emit snd addEvents log] in HlR.
  assert (Hsplit : forall tail p,
             failedAttemptsOf p ([EvPageStart (i + 1) N] ++ evsR ++ tail)
             = (if p =? i + 1 then failedAttempts evsR else []) ++ failedAttemptsOf p tail).
  { intros tail p. rewrite <- (failedAttemptsOf_retry (i + 1) p evsR HrR).
    unfold failedAttemptsOf. now rewrite !omap_app. }
  destruct rp as [|lastError|].
  - destruct (pageLoop_trace _ _ _ _ _ _ _ H) as (evs2 & Hl2 & _).
    destruct (IH _ _ _ _ _ _ H Hl2) as (Hb2 & Hh2).
    rewrite Hl2, HlR, <- !app_assoc in Hlog. apply app_inv_head in Hlog. subst evs.
    split.
    + intros p. rewrite Hsplit. apply Forall_app. split; [|apply Hb2].
      destruct (p =? i + 1); [exact HbR | constructor].
    + intros p Hp. destruct (Hh2 p Hp) as (Hlt & Hfa). split; [lia|].
      rewrite Hsplit, Hfa. destruct (Z.eqb_spec p (i + 1)); [lia | reflexivity].
  - injection H as <- <-. unfold bind, sendPushoverNotification, emit in Hlog. cbn [snd addEvents log] in Hlog.
    rewrite HlR, <- !app_assoc in Hlog. apply app_inv_head in Hlog. subst evs.
    change ([EvPageStart (i + 1) N] ++ evsR ++
            [EvNotify (notifyMessage (i + 1))] ++ [EvHalt (i + 1) lastError])
      with ([EvPageStart (i + 1) N] ++ evsR ++
            [EvNotify (notifyMessage (i + 1)); EvHalt (i + 1) lastError]).
    split.
    + intros p. rewrite Hsplit. cbn [failedAttemptsOf omap list_omap]. rewrite app_nil_r.
      destruct (p =? i + 1); [exact HbR | constructor].
    + intros p [= <-]. split; [lia|]. rewrite Hsplit, Z.eqb_refl.
      cbn [failedAttemptsOf omap list_omap]. rewrite app_nil_r.
      specialize (HcR lastError eq_refl ltac:(unfold MAX_RETRIES; lia)).
      rewrite (countsFrom_length _ _ HfR).
      replace (length (failedAttempts evsR)) with 3%nat
        by (unfold MAX_RETRIES in HcR; lia).
      reflexivity.
  - injection H as <- <-.
    rewrite HlR, <- !app_assoc in Hlog. apply app_inv_head in Hlog. subst evs.
    split; [|discriminate].
    intros p. rewrite <- (app_nil_r evsR), Hsplit. cbn [failedAttemptsOf omap list_omap].
    rewrite app_nil_r. destruct (p =? i + 1); [exact HbR | constructor].
Qed.

Lemma run_failures envs N w l w' evs :
  processPdfDocument envs N w = (Ok l, w') ->
  log w' = log w ++ evs ->
  (forall p, Forall (fun k => k <= MAX_RETRIES) (failedAttemptsOf p evs)) /\
  (forall p, l = Halted p -> failedAttemptsOf p evs = [1; 2; 3]).
Proof.
  rewrite processPdfDocument_unfold. cbv zeta.
  set (last := getLastProcessedPageByTex (listing (afterSetup w))).
  destruct (pageLoop (Z.to_nat (N - last)) envs N last (afterSetup w)) as [l0 w1] eqn:El.
  destruct (pageLoop_trace _ _ _ _ _ _ _ El) as (evs1 & Hl1 & _).
  destruct (pageLoop_failures _ _ _ _ _ _ _ _ El Hl1) as (Hb & Hh).
  assert (Hlog0 : log (afterSetup w) = log w).
  { unfold afterSetup. now destruct (dir w !! MAIN_TEX_PATH). }
  rewrite Hlog0 in Hl1.
  assert (Hmain : is_Some (dir w1 !! MAIN_TEX_PATH)).
  { eapply pageLoop_persists; [exact El | apply main_exists_afterSetup]. }
  destruct (finalizeDocument_log w1 Hmain) as (w2 & Hfin & Hl2 & _).
  assert (Hend : (let* _ := finalizeDocument in ret l0) w1 = (Ok l, w') ->
            log w' = log w ++ evs ->
            (forall p, Forall (fun k => k <= MAX_RETRIES) (failedAttemptsOf p evs)) /\
            (forall p, l = Halted p -> failedAttemptsOf p evs = [1; 2; 3])).
  { unfold bind, ret. rewrite Hfin. intros [= <- <-] Hlog.
    rewrite Hl2, Hl1, <- app_assoc in Hlog. apply app_inv_head in Hlog. subst evs.
    assert (E : forall p, failedAttemptsOf p (evs1 ++ [EvFinished]) = failedAttemptsOf p evs1).
    { intros p. unfold failedAttemptsOf. rewrite omap_app. apply app_nil_r. }
    split; intros p; rewrite E; [apply Hb|]. intros Hp. now apply Hh. }
  clear Hfin. destruct l0; [exact Hend | exact Hend |]. clear Hend.
  intros [= <- <-] Hlog. rewrite Hl1 in Hlog. apply app_inv_head in Hlog. subst evs.
  split; [exact Hb | discriminate].
Qed.

End Failures.

(* ================================================================== *)
(** * The retry budget                                                 *)
(* ================================================================== *)

Section Budget.

(** Past the last attempt the page has failed, and the script is left as
    it is. *)
Lemma retryLoop_over envs N n a last w :
  MAX_RETRIES < a -> retryLoop envs N n a last w = (PageFailed last, envs, w).
Proof.
  intros Ha. destruct envs; cbn [retryLoop];
    destruct (Z.leb_spec a MAX_RETRIES); first [lia | reflexivity].
Qed.

(** A failure that passes the quota test leaves the attempt number as it
    is. *)
Lemma retryLoop_uncounted e envs N n a last w err w1 :
  attemptBody e N n w = (Throw err, w1) ->
  isQuotaError err = true -> a <= MAX_RETRIES ->
  retryLoop (e :: envs) N n a last w = retryLoop envs N n a (Some err) w1.
Proof.
  intros Hb Hq Ha. cbn [retryLoop].
  destruct (Z.leb_spec a MAX_RETRIES); [|lia].
  rewrite Hb, Hq. now replace (a - 1 + 1) with a by lia.
Qed.


Lemma nonQuotaFailures_nonneg errs : 0 <= nonQuotaFailures errs.
Proof. unfold nonQuotaFailures. lia. Qed.

Lemma nonQuotaFailures_cons err errs :
  nonQuotaFailures (err :: errs)
  = (if isQuotaError err then 0 else 1) + nonQuotaFailures errs.
Proof.
  unfold nonQuotaFailures. cbn [List.filter].
  destruct (isQuotaError err); cbn [negb length]; lia.
Qed.

(** Failed attempts each of which is due (the attempt number has not
    passed [MAX_RETRIES] when it is made): the loop makes all of them and
    goes on, the attempt number raised by the number of the failures that
    did not pass the quota test. *)
Lemma retryLoop_failed_attempts N n a w es errs w' :
  FailedAttempts N n a w es errs w' ->
  (forall pre err post, errs = pre ++ err :: post ->
     a + nonQuotaFailures pre <= MAX_RETRIES) ->
  forall rest last,
    retryLoop (es ++ rest) N n a last w
    = retryLoop rest N n (a + nonQuotaFailures errs) (lastErrorAfter last errs) w'.
Proof.
  induction 1 as [a w|a w e err w1 es errs w' Hb Hq _ IH|a w e err w1 es errs w' Hb Hq _ IH];
    intros Hdue rest last.
  - cbn [app]. change (nonQuotaFailures []) with 0. now rewrite Z.add_0_r.
  - assert (Ha : a <= MAX_RETRIES).
    { specialize (Hdue [] err errs eq_refl).
      change (nonQuotaFailures []) with 0 in Hdue. lia. }
    rewrite nonQuotaFailures_cons, Hq.
    cbn [app]. rewrite (retryLoop_counted _ _ _ _ _ _ _ _ _ Hb Hq Ha).
    rewrite IH.
    + f_equal. lia.
    + intros pre err' post ->.
      specialize (Hdue (err :: pre) err' post eq_refl).
      rewrite nonQuotaFailures_cons, Hq in Hdue. lia.
  - assert (Ha : a <= MAX_RETRIES).
    { specialize (Hdue [] err errs eq_refl).
      change (nonQuotaFailures []) with 0 in Hdue. lia. }
    rewrite nonQuotaFailures_cons, Hq.
    cbn [app]. rewrite (retryLoop_uncounted _ _ _ _ _ _ _ _ _ Hb Hq Ha).
    rewrite IH.
    + reflexivity.
    + intros pre err' post ->.
      specialize (Hdue (err :: pre) err' post eq_refl).
      rewrite nonQuotaFailures_cons, Hq in Hdue. lia.
Qed.

Lemma nonQuotaFailures_prefix pre err post :
  nonQuotaFailures pre <= nonQuotaFailures (pre ++ err :: post).
Proof. unfold nonQuotaFailures. rewrite List.filter_app, length_app. lia. Qed.

(** With fewer than [MAX_RETRIES] failures that did not pass the quota
    test, every attempt has been made and the next one is due. *)
Lemma retryLoop_within_budget N n w es errs w' :
  FailedAttempts N n 1 w es errs w' ->
  nonQuotaFailures errs < MAX_RETRIES ->
  forall rest last,
    retryLoop (es ++ rest) N n 1 last w
    = retryLoop rest N n (1 + nonQuotaFailures errs) (lastErrorAfter last errs) w'.
Proof.
  intros HF Hk. apply retryLoop_failed_attempts; [exact HF|].
  intros pre err post ->.
  pose proof (nonQuotaFailures_prefix pre err post). lia.
Qed.


(** The page loop at a page whose retry loop ends in failure: the
    notification, the halt, and nothing else. *)
Lemma pageLoop_halts fuel envs N i w lastError rest w2 :
  i < N ->
  retryLoop envs N (i + 1) 1 None (addEvents [EvPageStart (i + 1) N] w)
  = (PageFailed lastError, rest, w2) ->
  pageLoop (S fuel) envs N i w
  = (Halted (i + 1),
     addEvents [EvHalt (i + 1) lastError]
       (addEvents [EvNotify (notifyMessage (i + 1))] w2)).
Proof.
  intros Hi Hr. cbn [pageLoop]. destruct (Z.ltb_spec i N); [|lia].
  cbv zeta. unfold emit at 1. cbn [snd]. rewrite Hr. reflexivity.
Qed.


(** *** Every reported failure is one that did not pass the quota test *)





End Budget.

(* ================================================================== *)
(** * The properties of the specification                              *)
(* ================================================================== *)

Lemma foldmax_upper (ps : list Z) p : In p ps -> p <= fold_right Z.max 0 ps.
Proof.
  induction ps as [|q ps IH]; intros []; subst; simpl; [lia|].
  specialize (IH H). lia.
Qed.

Lemma foldmax_attained (ps : list Z) :
  Forall (fun p => 0 <= p) ps -> ps <> [] -> In (fold_right Z.max 0 ps) ps.
Proof.
  induction 1 as [|q ps Hq Hps IH]; intros Hne; [contradiction|]. simpl.
  destruct ps as [|q' ps'].
  - left. simpl. lia.
  - destruct (Z.max_spec q (fold_right Z.max 0 (q' :: ps'))) as [[_ ->]|[_ ->]].
    + right. apply IH. discriminate.
    + now left.
Qed.

Lemma foldmax_nonneg (ps : list Z) : 0 <= fold_right Z.max 0 ps.
Proof. induction ps as [|q ps IH]; simpl; lia. Qed.

(** The last processed page is the maximum of the indices of the page
    units in the listing, in whatever order they are given. *)
Lemma getLast_fold files (ps : list Z) :
  Permutation (List.map pageNumberOf (List.filter isPageTex files)) ps ->
  getLastProcessedPageByTex files = fold_right Z.max 0 ps.
Proof.
  intros HP.
  assert (Hmem : forall k, In k ps <->
                           exists f, In f files /\ isPageTex f = true /\ pageNumberOf f = k).
  { intros k. split.
    - intros Hk. apply Permutation_sym in HP. eapply Permutation_in in Hk; [|exact HP].
      apply in_map_iff in Hk as (f & <- & Hf). apply filter_In in Hf as [? ?]. eauto.
    - intros (f & Hin & Hp & <-). eapply Permutation_in; [exact HP|].
      apply in_map, filter_In. auto. }
  assert (Hnn : Forall (fun p => 0 <= p) ps).
  { apply List.Forall_forall. intros k Hk. apply Hmem in Hk as (f & _ & _ & <-).
    apply pageNumberOf_nonneg. }
  apply Z.le_antisymm.
  - destruct (List.existsb isPageTex files) eqn:E.
    + apply existsb_exists in E. apply getLast_attained in E as (f & Hin & Hp & <-).
      apply foldmax_upper, Hmem. eauto.
    + rewrite getLast_none; [apply foldmax_nonneg|]. intros f Hin.
      destruct (isPageTex f) eqn:Hp; [|reflexivity].
      assert (List.existsb isPageTex files = true) by (apply existsb_exists; eauto).
      congruence.
  - destruct ps as [|q ps]; [apply getLast_nonneg|].
    pose proof (foldmax_attained (q :: ps) Hnn ltac:(discriminate)) as Hin.
    apply Hmem in Hin as (f & Hin & Hp & Hf). rewrite <- Hf. now apply getLast_upper.
Qed.

(** C1.  Let [ps] be the indices of the page units in the output
    directory, none of them beyond [JS.MAX_SAFE_INTEGER] (so that the
    doubles of the code hold them, and their successors, exactly), and let
    the document have at most that many pages.  Then the start page is
    [max ps + 1] (and 1 when there is none), a true maximum: above every
    index and one above an index that is present; it is the same for every
    order in which the directory may be listed; the index of every
    fragment the driver has written is among [ps]; and the driver begins
    with the start page and goes on from it one page at a time. *)
Theorem C1_resume_starts_after_maximum
    (w : World) (ps : list Z) (envs : list AttemptEnv) (totalPages : Z) :
  Permutation (List.map pageNumberOf (List.filter isPageTex (listing w))) ps ->
  Forall (fun p => p <= JS.MAX_SAFE_INTEGER) ps ->
  totalPages <= JS.MAX_SAFE_INTEGER ->
  let start := fold_right Z.max 0 ps + 1 in
  start <= JS.MAX_SAFE_INTEGER + 1 /\
  (ps = [] -> start = 1) /\
  (forall p, In p ps -> p < start) /\
  (ps <> [] -> In (start - 1) ps) /\
  (forall files, Permutation files (listing w) -> startPage files = start) /\
  (forall p, 0 <= p -> is_Some (dir w !! pageTexPath p) -> In p ps) /\
  exists evs,
    log (snd (processPdfDocument envs totalPages w)) = log w ++ evs /\
    countsFrom start (pagesStarted evs) /\
    (start <= totalPages -> exists evs', evs = EvPageStart start totalPages :: evs').
Proof.
  intros HP Hsafe HN start.
  assert (Hstart : startPage (listing w) = start).
  { unfold startPage, start. f_equal. now apply getLast_fold. }
  assert (Hnn : Forall (fun p => 0 <= p) ps).
  { apply List.Forall_forall. intros k Hk. apply Permutation_sym in HP.
    eapply Permutation_in in Hk; [|exact HP].
    apply in_map_iff in Hk as (f & <- & _). apply pageNumberOf_nonneg. }
  split.
  { unfold start. destruct ps as [|q ps]; [vm_compute; discriminate|].
    pose proof (foldmax_attained (q :: ps) Hnn ltac:(discriminate)) as Hin.
    rewrite List.Forall_forall in Hsafe. specialize (Hsafe _ Hin). lia. }
  split; [intros ->; reflexivity|].
  split; [intros p Hp; apply foldmax_upper in Hp; unfold start; lia|].
  split.
  { intros Hne. unfold start. replace (fold_right Z.max 0 ps + 1 - 1)
      with (fold_right Z.max 0 ps) by lia. now apply foldmax_attained. }
  split.
  { intros files Hperm. rewrite <- Hstart. unfold startPage. f_equal.
    apply getLast_ext. intros f _. split; apply Permutation_in;
      [exact Hperm | now apply Permutation_sym]. }
  split.
  { intros p Hp Hfile. eapply Permutation_in; [exact HP|].
    rewrite <- (pageNumberOf_pageTexPath p Hp). apply in_map, filter_In.
    split; [now apply In_listing | now apply isPageTex_pageTexPath]. }
  destruct (processPdfDocument envs totalPages w) as [r w'] eqn:E.
  destruct (processPdfDocument_trace _ _ _ _ _ E)
    as (l & evs & _ & Hl & Hs & _ & _ & Hfirst & _).
  rewrite Hstart in *. exists evs. auto.
Qed.

Lemma C1_witness :
  startPage (listing dirC1) = 11 /\
  exists evs,
    log (snd (processPdfDocument [okEnv "k"] 12 dirC1)) = log dirC1 ++ evs /\
    countsFrom 11 (pagesStarted evs) /\
    (11 <= 12 -> exists evs', evs = EvPageStart 11 12 :: evs').
Proof.
  assert (HP : Permutation
                 (List.map pageNumberOf (List.filter isPageTex (listing dirC1))) [2; 10]).
  { vm_compute. first [apply Permutation_refl | apply perm_swap]. }
  assert (Hsafe : Forall (fun p => p <= JS.MAX_SAFE_INTEGER) [2; 10]).
  { repeat constructor; apply Z.leb_le; reflexivity. }
  assert (HN : 12 <= JS.MAX_SAFE_INTEGER) by (apply Z.leb_le; reflexivity).
  destruct (C1_resume_starts_after_maximum dirC1 [2; 10] [okEnv "k"] 12 HP Hsafe HN)
    as (_ & _ & _ & _ & Hany & _ & Hrun).
  split; [apply Hany, Permutation_refl | exact Hrun].
Defined.

(** No run ever waits for quota: the wait of line 281 is behind a test
    that the errors of [processPageWithGemini] cannot pass. *)
Lemma quota_wait_unreachable envs totalPages w :
  exists evs,
    log (snd (processPdfDocument envs totalPages w)) = log w ++ evs /\
    quotaWaits evs = [].
Proof.
  destruct (processPdfDocument envs totalPages w) as [r w'] eqn:E.
  destruct (processPdfDocument_trace _ _ _ _ _ E) as (l & evs & _ & Hl & _ & _ & Hq & _).
  exists evs. auto.
Qed.

(** C2 (the code departs from it).  The text of a quota error passes the
    test of the retry loop and carries a delay of five seconds; yet when
    the service is out of quota on three calls in a row, the run never
    waits, counts the three failures as attempts 1, 2 and 3, gives the
    page up and halts, although the fourth call would have succeeded. *)
Theorem C2_quota_errors_use_up_the_attempts :
  isQuotaError quotaErrorText = true /\
  retryDelaySeconds quotaErrorText = 5 /\
  fst (processPdfDocument quotaScript 1 emptyWorld) = Ok (Halted 1) /\
  quotaWaits (log (snd (processPdfDocument quotaScript 1 emptyWorld))) = [] /\
  failedAttemptsOf 1 (log (snd (processPdfDocument quotaScript 1 emptyWorld)))
  = [1; 2; 3] /\
  dir (snd (processPdfDocument quotaScript 1 emptyWorld)) !! pageTexPath 1 = None.
Proof. vm_compute. repeat split. Qed.



Lemma Reachable_manifest w content :
  Reachable w -> dir w !! MAIN_TEX_PATH = Some content ->
  exists ps closed,
    Assembled w ps closed /\ Manifest ps closed content /\
    includeRefs content = ps /\ JS.includes endDocument content = closed.
Proof.
  intros HR Hc. destruct (Reachable_inv w HR content Hc) as (ps & closed & HA).
  exists ps, closed. split; [exact HA|].
  destruct HA as ((c & Hc' & Hm) & _). assert (c = content) as -> by congruence.
  split; [exact Hm|]. split; [eapply Manifest_includeRefs, Hm|].
  eapply Manifest_includes, Hm.
Qed.

(** C4.  In every reachable state the inclusion references of [main.tex]
    are strictly increasing, hence without duplicates; if the closing
    marker is there, it is there once, it ends the text (a line feed
    follows) and every reference stands in front of it.  Recording a page
    writes back the content with the reference line spliced in directly in
    front of the marker, or appended when there is no marker, and adds
    exactly this reference behind the others.  Finalization leaves a
    closed manifest alone and appends the marker to an open one; after
    it the marker is there once, at the end; and a run that reaches its
    end has finalized. *)
Theorem C4_references_increasing_before_marker (w : World) (content : string) :
  Reachable w ->
  dir w !! MAIN_TEX_PATH = Some content ->
  increasing (includeRefs content) /\
  NoDup (includeRefs content) /\
  (JS.includes endDocument content = true ->
   countOccurrences endDocument content = 1%nat /\
   exists pre, content = pre +:+ endDocument +:+ JS.nl /\
               includeRefs pre = includeRefs content) /\
  (forall p, 0 <= p ->
     recordInManifest p w = (Ok tt, putFile MAIN_TEX_PATH (updateManifest p content) w) /\
     includeRefs (updateManifest p content) = includeRefs content ++ [p] /\
     if JS.includes endDocument content
     then exists pre, content = pre +:+ endDocument +:+ JS.nl /\
                      updateManifest p content
                      = pre +:+ includeLine p +:+ JS.nl +:+ endDocument +:+ JS.nl
     else updateManifest p content = content +:+ includeLine p) /\
  (finalizeDocument w
   = (Ok tt, addEvents [EvFinished]
               (if JS.includes endDocument content then w
                else putFile MAIN_TEX_PATH (finalizeManifest content) w)) /\
   (JS.includes endDocument content = true -> finalizeManifest content = content) /\
   (JS.includes endDocument content = false ->
    finalizeManifest content = content +:+ closingText) /\
   countOccurrences endDocument (finalizeManifest content) = 1%nat /\
   exists pre, finalizeManifest content = pre +:+ endDocument +:+ JS.nl /\
               includeRefs pre = includeRefs content) /\
  (forall envs totalPages l w',
     processPdfDocument envs totalPages w = (Ok l, w') -> l <> OutOfScript ->
     exists final,
       dir w' !! MAIN_TEX_PATH = Some final /\
       countOccurrences endDocument final = 1%nat /\
       exists pre, final = pre +:+ endDocument +:+ JS.nl /\
                   includeRefs pre = includeRefs final).
Proof.
  intros HR Hc.
  destruct (Reachable_manifest w content HR Hc) as (ps & closed & HA & Hm & Hrefs & Hinc).
  pose proof HA as (_ & Hincr & _).
  rewrite Hrefs.
  split; [exact Hincr|]. split; [now apply increasing_NoDup|].
  split; [|split; [|split]].
  - intros Hcl. rewrite Hinc in Hcl. clear Hinc. subst closed.
    split; [eapply Manifest_one_marker, Hm|].
    destruct (Manifest_closed_split _ _ Hm) as (pre & -> & Hp & _). eauto.
  - intros p Hp. split; [now apply recordInManifest_some|]. split.
    + eapply Manifest_includeRefs, Manifest_update; eauto.
    + rewrite Hinc. destruct closed.
      * destruct (Manifest_closed_split _ _ Hm) as (pre & -> & _ & _).
        exists pre. split; [reflexivity | apply updateManifest_closed].
      * now apply updateManifest_open.
  - split; [now apply finalizeDocument_cases|].
    split; [apply finalizeManifest_closed|]. split; [apply finalizeManifest_open|].
    pose proof (Manifest_finalize _ _ _ Hm) as Hf.
    split; [eapply Manifest_one_marker, Hf|].
    destruct (Manifest_closed_split _ _ Hf) as (pre & -> & Hp & _). eauto.
  - intros envs N l w' E Hl.
    destruct (processPdfDocument_state envs N w (Ok l) w' (Reachable_inv w HR) E)
      as (ps0 & c0 & new & c' & _ & HA' & _ & _ & _ & l' & [= <-] & Hcl).
    rewrite (Hcl Hl) in HA'. destruct HA' as ((final & Hfc & Hfm) & _).
    exists final. split; [exact Hfc|]. split; [eapply Manifest_one_marker, Hfm|].
    destruct (Manifest_closed_split _ _ Hfm) as (pre & -> & Hp & _).
    exists pre. split; [reflexivity|]. rewrite Hp. symmetry.
    eapply Manifest_includeRefs, Hfm.
Qed.

Lemma worldTwoPages_reachable : Reachable worldTwoPages.
Proof. apply Reachable_run, Reachable_empty. Qed.

Lemma C4_witness :
  includeRefs manifestTwoPages = [1; 2] /\
  increasing (includeRefs manifestTwoPages) /\
  includeRefs (updateManifest 3 manifestTwoPages) = [1; 2; 3].
Proof.
  assert (Hc : dir worldTwoPages !! MAIN_TEX_PATH = Some manifestTwoPages)
    by (vm_compute; reflexivity).
  destruct (C4_references_increasing_before_marker worldTwoPages manifestTwoPages
              worldTwoPages_reachable Hc) as (Hincr & _ & _ & Hrec & _).
  split; [vm_compute; reflexivity|]. split; [exact Hincr|].
  destruct (Hrec 3 ltac:(lia)) as (_ & -> & _). vm_compute. reflexivity.
Defined.

(** C6.  Let a first run start in a reachable state and a second run of
    the same document start where the first one stopped.  The second run
    begins no page that has a fragment or a reference already; it leaves
    every fragment as it is; and afterwards the references of the manifest
    are those the first run left, followed by new ones, all distinct. *)
Theorem C6_second_run_skips_recorded_pages
    (w0 w1 w2 : World) (envs1 envs2 : list AttemptEnv) (totalPages : Z)
    (r1 r2 : Result LoopEnd) :
  Reachable w0 ->
  processPdfDocument envs1 totalPages w0 = (r1, w1) ->
  processPdfDocument envs2 totalPages w1 = (r2, w2) ->
  exists m1 m2 evs2,
    dir w1 !! MAIN_TEX_PATH = Some m1 /\ dir w2 !! MAIN_TEX_PATH = Some m2 /\
    log w2 = log w1 ++ evs2 /\
    (forall p, In p (pagesStarted evs2) ->
       dir w1 !! pageTexPath p = None /\ ~ In p (includeRefs m1)) /\
    (forall f text, isPageTex f = true ->
       dir w1 !! f = Some text -> dir w2 !! f = Some text) /\
    (exists new, includeRefs m2 = includeRefs m1 ++ new) /\
    NoDup (includeRefs m2).
Proof.
  intros HR0 E1 E2.
  assert (HR1 : Reachable w1).
  { replace w1 with (snd (processPdfDocument envs1 totalPages w0)) by now rewrite E1.
    now apply Reachable_run. }
  destruct (processPdfDocument_state _ _ _ _ _ (Reachable_inv _ HR0) E1)
    as (ps0 & c0 & new1 & c1 & _ & HA1 & _).
  destruct (processPdfDocument_state _ _ _ _ _ (Reachable_inv _ HR1) E2)
    as (ps1 & c1' & new2 & c2 & Hw1 & HA2 & Hnew2 & _ & HF & _).
  destruct (processPdfDocument_trace _ _ _ _ _ E2)
    as (l2 & evs2 & _ & Hl2 & Hs2 & _).
  pose proof HA1 as ((m1 & Hm1 & Hman1) & _ & _).
  pose proof HA2 as ((m2 & Hm2 & Hman2) & Hincr2 & _).
  rewrite Hm1 in Hw1.
  assert (Hrefs1 : includeRefs m1 = ps1).
  { destruct Hw1 as ((c & Hc & Hm) & _). assert (c = m1) as -> by congruence.
    eapply Manifest_includeRefs, Hm. }
  assert (Hrefs2 : includeRefs m2 = ps1 ++ new2) by (eapply Manifest_includeRefs, Hman2).
  exists m1, m2, evs2. split; [exact Hm1|]. split; [exact Hm2|]. split; [exact Hl2|].
  assert (Hfresh : forall p, startPage (listing w1) <= p -> dir w1 !! pageTexPath p = None).
  { intros p Hp. destruct (dir w1 !! pageTexPath p) as [c|] eqn:Ec; [|reflexivity].
    exfalso. pose proof (getLast_nonneg (listing w1)) as Hnn. unfold startPage in Hp.
    assert (Hle : pageNumberOf (pageTexPath p) <= getLastProcessedPageByTex (listing w1)).
    { apply getLast_upper; [apply In_listing; rewrite Ec; eauto|].
      apply isPageTex_pageTexPath. lia. }
    rewrite pageNumberOf_pageTexPath in Hle by lia. lia. }
  split; [|split; [|split]].
  - intros p Hp. pose proof (countsFrom_ge _ _ _ Hs2 Hp) as Hge.
    split; [now apply Hfresh|]. rewrite Hrefs1. intros Hin.
    destruct Hw1 as (_ & _ & Hb). destruct (Hb p Hin) as [c Hc].
    rewrite (Hfresh p Hge) in Hc. discriminate.
  - intros f text Hf Hc. rewrite HF; [exact Hc | exact Hf|].
    unfold startPage.
    assert (pageNumberOf f <= getLastProcessedPageByTex (listing w1)); [|lia].
    apply getLast_upper; [|exact Hf]. apply In_listing. rewrite Hc. eauto.
  - exists new2. now rewrite Hrefs1, Hrefs2.
  - rewrite Hrefs2. now apply increasing_NoDup.
Qed.

Lemma C6_witness :
  exists m1 m2 evs2,
    dir worldTwoPages !! MAIN_TEX_PATH = Some m1 /\
    dir (snd (processPdfDocument [okEnv "c"] 2 worldTwoPages)) !! MAIN_TEX_PATH = Some m2 /\
    log (snd (processPdfDocument [okEnv "c"] 2 worldTwoPages))
    = log worldTwoPages ++ evs2 /\
    NoDup (includeRefs m2).
Proof.
  destruct (C6_second_run_skips_recorded_pages
              emptyWorld worldTwoPages
              (snd (processPdfDocument [okEnv "c"] 2 worldTwoPages))
              [okEnv "a"; okEnv "b"] [okEnv "c"] 2
              (fst (processPdfDocument [okEnv "a"; okEnv "b"] 2 emptyWorld))
              (fst (processPdfDocument [okEnv "c"] 2 worldTwoPages))
              Reachable_empty)
    as (m1 & m2 & evs2 & H1 & H2 & H3 & _ & _ & _ & H4).
  - unfold worldTwoPages. now destruct (processPdfDocument _ 2 emptyWorld).
  - now destruct (processPdfDocument [okEnv "c"] 2 worldTwoPages).
  - exists m1, m2, evs2. auto.
Defined.

(** C7, as stated, fails: page 1 is recorded; the next run is killed
    after the fragment of page 2 is written; the run after that records
    page 3.  The fragment of page 2 is still there, and the manifest
    refers to pages 1 and 3 only. *)
Lemma C7_counterexample :
  Reachable worldInterrupted /\
  dir worldInterrupted !! pageTexPath 2 = Some "b" /\
  includeRefs <$> dir worldInterrupted !! MAIN_TEX_PATH = Some [1] /\
  startPage (listing worldInterrupted) = 3 /\
  pagesDone (log worldAfterGap) = [1; 3] /\
  dir worldAfterGap !! pageTexPath 2 = Some "b" /\
  includeRefs <$> dir worldAfterGap !! MAIN_TEX_PATH = Some [1; 3].
Proof.
  split.
  - apply Reachable_interrupted, Reachable_run, Reachable_empty.
  - vm_compute. repeat split.
Qed.

Lemma startPage_interrupted w text :
  startPage (listing (interrupted text w)) = startPage (listing w) + 1.
Proof.
  unfold startPage. f_equal.
  set (k := getLastProcessedPageByTex (listing w) + 1).
  assert (Hk : 0 <= k) by (pose proof (getLast_nonneg (listing w)); lia).
  assert (Hin : In (pageTexPath k) (listing (interrupted text w))).
  { apply In_listing. unfold interrupted, startPage. fold k. simpl.
    rewrite lookup_insert_eq. eauto. }
  apply Z.le_antisymm.
  - destruct (getLast_attained (listing (interrupted text w))) as (f & Hf & Hp & <-).
    { exists (pageTexPath k). split; [exact Hin | now apply isPageTex_pageTexPath]. }
    apply In_listing in Hf. unfold interrupted, startPage in Hf. fold k in Hf.
    simpl in Hf. destruct (decide (pageTexPath k = f)) as [<-|Hne].
    + rewrite pageNumberOf_pageTexPath by exact Hk. lia.
    + rewrite lookup_insert_ne in Hf by exact Hne.
      apply (proj2 (In_listing _ _)) in Hf.
      apply (proj1 (listing_afterSetup w f Hp)) in Hf.
      pose proof (getLast_upper _ _ Hf Hp). lia.
  - rewrite <- (pageNumberOf_pageTexPath k Hk).
    apply getLast_upper; [exact Hin | now apply isPageTex_pageTexPath].
Qed.

(** C7, amended.  After a run was killed between writing the fragment of
    its start page [k] and updating the manifest, the resume tracker
    starts the next run at [k + 1], from the existence of the fragment
    alone.  The manifest has no reference to [k], and the next run does
    not add one: it keeps the fragment, and the references it adds are for
    pages from [k + 1] on.  Recording a page adds the reference of that
    page and no other. *)
Theorem C7_missed_reference_is_not_backfilled
    (w w' : World) (text : string) (envs : list AttemptEnv) (totalPages : Z)
    (r : Result LoopEnd) :
  Reachable w ->
  processPdfDocument envs totalPages (interrupted text w) = (r, w') ->
  let k := startPage (listing w) in
  startPage (listing (interrupted text w)) = k + 1 /\
  exists m m',
    dir (interrupted text w) !! MAIN_TEX_PATH = Some m /\
    dir w' !! MAIN_TEX_PATH = Some m' /\
    dir w' !! pageTexPath k = Some text /\
    ~ In k (includeRefs m) /\
    ~ In k (includeRefs m') /\
    (exists new, includeRefs m' = includeRefs m ++ new /\
                 Forall (fun p => k + 1 <= p) new) /\
    (forall p, 0 <= p -> includeRefs (updateManifest p m) = includeRefs m ++ [p]).
Proof.
  intros HR E k.
  pose proof (startPage_interrupted w text) as Hstart. fold k in Hstart.
  split; [exact Hstart|].
  assert (HRi : Reachable (interrupted text w)) by now apply Reachable_interrupted.
  destruct (afterSetup_assembled w (Reachable_inv w HR)) as (ps & closed & _ & HAs).
  pose proof (Assembled_interrupted _ _ _ text HAs) as HAi.
  pose proof (Assembled_below_last _ _ _ HAs) as Hbelow.
  rewrite getLast_afterSetup in Hbelow.
  destruct (processPdfDocument_state _ _ _ _ _ (Reachable_inv _ HRi) E)
    as (ps1 & c1 & new & c' & Hw & HA' & Hnew & _ & HF & _).
  pose proof HAi as ((m & Hm & Hman) & _ & _).
  rewrite Hm in Hw.
  assert (ps1 = ps) as ->.
  { destruct Hw as ((c & Hc & Hman1) & _). assert (c = m) as -> by congruence.
    rewrite <- (Manifest_includeRefs _ _ _ Hman1). eapply Manifest_includeRefs, Hman. }
  pose proof HA' as ((m' & Hm' & Hman') & _ & _).
  rewrite Hstart in Hnew, HF.
  assert (Hk : 0 <= k) by (unfold k, startPage; pose proof (getLast_nonneg (listing w)); lia).
  assert (Hnotin : ~ In k ps).
  { intros Hin. rewrite List.Forall_forall in Hbelow. specialize (Hbelow k Hin).
    unfold k, startPage in Hbelow. lia. }
  exists m, m'. split; [exact Hm|]. split; [exact Hm'|]. split.
  { rewrite HF.
    - unfold interrupted. fold k. simpl. apply lookup_insert_eq.
    - now apply isPageTex_pageTexPath.
    - rewrite pageNumberOf_pageTexPath by exact Hk. lia. }
  rewrite (Manifest_includeRefs _ _ _ Hman), (Manifest_includeRefs _ _ _ Hman').
  split; [exact Hnotin|]. split.
  { intros Hin. apply in_app_or in Hin as [Hin|Hin]; [now apply Hnotin|].
    rewrite List.Forall_forall in Hnew. specialize (Hnew k Hin). lia. }
  split; [exists new; auto|].
  intros p Hp. eapply Manifest_includeRefs, Manifest_update; eauto.
Qed.

Lemma C7_witness :
  startPage (listing worldInterrupted) = 3 /\
  exists m', dir worldAfterGap !! MAIN_TEX_PATH = Some m' /\ ~ In 2 (includeRefs m').
Proof.
  destruct (C7_missed_reference_is_not_backfilled
              worldOnePage worldAfterGap "b" [okEnv "c"] 3
              (fst (processPdfDocument [okEnv "c"] 3 worldInterrupted)))
    as (Hs & m & m' & _ & Hm' & _ & _ & Hn & _).
  - apply Reachable_run, Reachable_empty.
  - unfold worldAfterGap, worldInterrupted.
    now destruct (processPdfDocument [okEnv "c"] 3 (interrupted "b" worldOnePage)).
  - split; [exact Hs|]. exists m'. split; [exact Hm' | exact Hn].
Defined.

(** C8, as stated, fails: the service answers [{}], which has no
    [content] field; the page is recorded at the first attempt, with an
    empty fragment and a reference in the manifest. *)
Lemma C8_counterexample :
  generateContent emptyObjectEnv = TextJson ContentUndefined /\
  fst (processPdfDocument [emptyObjectEnv] 1 emptyWorld) = Ok AllPagesDone /\
  dir (snd (processPdfDocument [emptyObjectEnv] 1 emptyWorld)) !! pageTexPath 1
  = Some EmptyString /\
  failedAttemptsOf 1 (log (snd (processPdfDocument [emptyObjectEnv] 1 emptyWorld))) = [] /\
  pagesDone (log (snd (processPdfDocument [emptyObjectEnv] 1 emptyWorld))) = [1] /\
  includeRefs <$> dir (snd (processPdfDocument [emptyObjectEnv] 1 emptyWorld)) !! MAIN_TEX_PATH
  = Some [1].
Proof. vm_compute. repeat split. Qed.

(** C8, amended.  Take an attempt whose window has a current image and
    whose key is set, so that the service is called.  If the text of the
    response is not a string, or is not JSON, the attempt fails with the
    general error of the recognition call, which does not pass the quota
    test: nothing is written, the failure is reported with the number of
    the attempt and the loop goes on with the next number.  If the text
    is JSON without a [content] (missing or null), the attempt succeeds
    and records the page with an empty fragment. *)
Theorem C8_unparsable_response_is_a_counted_failure
    (e : AttemptEnv) (N n a : Z) (last : option string) (envs : list AttemptEnv)
    (w w1 : World) (prev next : option string) (curr : string) :
  contextWindow e N n w = (Ok (prev, Some curr, next), w1) ->
  apiKey e = true ->
  a <= MAX_RETRIES ->
  let imgs := imageParts [prev; Some curr; next] in
  let w2 := addEvents [EvRecognize imgs] w1 in
  (generateContent e = TextMissing \/ generateContent e = TextNotJson ->
   attemptBody e N n w = (Throw errApiFailed, w2) /\
   isQuotaError errApiFailed = false /\
   dir w2 = dir w1 /\
   retryLoop (e :: envs) N n a last w
   = retryLoop envs N n (a + 1) (Some errApiFailed)
       (addEvents [EvAttemptFailed n a errApiFailed] w2)) /\
  (forall v content,
     generateContent e = TextJson v ->
     v = ContentUndefined \/ v = ContentNull ->
     dir w1 !! MAIN_TEX_PATH = Some content ->
     attemptBody e N n w = (Ok tt, recorded n imgs EmptyString content w1) /\
     dir (recorded n imgs EmptyString content w1) !! pageTexPath n = Some EmptyString /\
     retryLoop (e :: envs) N n a last w
     = (PageSucceeded, envs, recorded n imgs EmptyString content w1)).
Proof.
  intros Hw Hkey Ha imgs w2.
  pose proof (attemptBody_window _ _ _ _ _ _ _ _ Hw) as Hb.
  rewrite Hkey in Hb. cbn [negb] in Hb. cbv zeta in Hb. fold imgs in Hb. fold w2 in Hb.
  split.
  - intros Hg.
    assert (Hthrow : attemptBody e N n w = (Throw errApiFailed, w2)).
    { rewrite Hb. now destruct Hg as [-> | ->]. }
    split; [exact Hthrow|]. split; [apply errApiFailed_not_quota|].
    split; [reflexivity|].
    apply retryLoop_counted; [exact Hthrow | apply errApiFailed_not_quota | exact Ha].
  - intros v content Hg Hv Hm.
    assert (Hc : contentOrEmpty v = EmptyString) by now destruct Hv as [-> | ->].
    assert (Hok : attemptBody e N n w = (Ok tt, recorded n imgs EmptyString content w1)).
    { rewrite Hb, Hg. cbv zeta. rewrite Hc, Hm. reflexivity. }
    split; [exact Hok|]. split.
    + unfold recorded. simpl.
      rewrite lookup_insert_ne by (intros E; symmetry in E; revert E; apply pageTexPath_not_main).
      apply lookup_insert_eq.
    + cbn [retryLoop]. destruct (Z.leb_spec a MAX_RETRIES); [|lia]. now rewrite Hok.
Qed.

Lemma C8_witness :
  fst (attemptBody notJsonEnv 1 1 (afterSetup emptyWorld)) = Throw errApiFailed /\
  isQuotaError errApiFailed = false.
Proof.
  destruct (C8_unparsable_response_is_a_counted_failure
              notJsonEnv 1 1 1 None [] (afterSetup emptyWorld)
              (snd (contextWindow notJsonEnv 1 1 (afterSetup emptyWorld)))
              None None "PNG")
    as ((Hb & Hq & _) & _).
  - vm_compute. reflexivity.
  - reflexivity.
  - vm_compute. discriminate.
  - now right.
  - rewrite Hb. split; [reflexivity | exact Hq].
Defined.

Lemma getImageBuffer_log e N j w r w1 :
  getImageBuffer e N j w = (r, w1) ->
  log w1 = log w ++ (if (1 <=? j) && (j <=? N) then [EvRender j] else []).
Proof.
  destruct (Z.leb_spec 1 j); [destruct (Z.leb_spec j N)|]; cbn [andb].
  - rewrite getImageBuffer_in by lia.
    destruct (converter e j); intros [= _ <-]; reflexivity.
  - rewrite getImageBuffer_out by lia. intros [= _ <-]. now rewrite app_nil_r.
  - rewrite getImageBuffer_out by lia. intros [= _ <-]. now rewrite app_nil_r.
Qed.

(** Whatever the renderer does, a window for page [i] asks only for pages
    of the document, and only for [i - 1], [i] and [i + 1]. *)
Lemma contextWindow_requests e N i w r w1 :
  contextWindow e N i w = (r, w1) ->
  exists evs,
    log w1 = log w ++ evs /\
    forall j, In j (renderRequests evs) ->
              1 <= j <= N /\ (j = i - 1 \/ j = i \/ j = i + 1).
Proof.
  assert (Hone : forall j, (1 <= j <= N /\ (j = i - 1 \/ j = i \/ j = i + 1)) \/
                           ((1 <=? j) && (j <=? N) = false) ->
                 forall k, In k (renderRequests
                                   (if (1 <=? j) && (j <=? N) then [EvRender j] else [])) ->
                           1 <= k <= N /\ (k = i - 1 \/ k = i \/ k = i + 1)).
  { intros j [Hj| ->] k; [|intros []].
    destruct ((1 <=? j) && (j <=? N)); [|intros []]. now intros [<-|[]]. }
  assert (Hcls : forall j, j = i - 1 \/ j = i \/ j = i + 1 ->
                 (1 <= j <= N /\ (j = i - 1 \/ j = i \/ j = i + 1)) \/
                 ((1 <=? j) && (j <=? N) = false)).
  { intros j Hj. destruct (Z.leb_spec 1 j); [destruct (Z.leb_spec j N)|]; auto. }
  unfold contextWindow, bind, ret.
  destruct (getImageBuffer e N (i - 1) w) as [[prev|err] wa] eqn:Ea;
    pose proof (getImageBuffer_log _ _ _ _ _ _ Ea) as La.
  2:{ intros [= _ <-]. eexists. split; [exact La|]. apply Hone, Hcls. auto. }
  destruct (getImageBuffer e N i wa) as [[curr|err] wb] eqn:Eb;
    pose proof (getImageBuffer_log _ _ _ _ _ _ Eb) as Lb; rewrite La in Lb.
  2:{ intros [= _ <-]. eexists. split; [rewrite Lb, <- app_assoc; reflexivity|].
      intros j Hj. unfold renderRequests in Hj. rewrite omap_app in Hj.
      apply in_app_or in Hj as [Hj|Hj]; revert Hj; apply Hone, Hcls; auto. }
  destruct (getImageBuffer e N (i + 1) wb) as [[next|err] wc] eqn:Ec;
    pose proof (getImageBuffer_log _ _ _ _ _ _ Ec) as Lc; rewrite Lb in Lc;
    intros [= _ <-]; (eexists; split; [rewrite Lc, <- !app_assoc; reflexivity|]);
    intros j Hj; unfold renderRequests in Hj; rewrite !omap_app in Hj;
    apply in_app_or in Hj as [Hj|Hj]; [|apply in_app_or in Hj as [Hj|Hj]| |
      apply in_app_or in Hj as [Hj|Hj]];
    revert Hj; apply Hone, Hcls; auto.
Qed.

Lemma rendered_log i o w : log (rendered i o w) = log w ++ [EvRender i].
Proof. now destruct o. Qed.

(** With a current image and the key set, the attempt reaches the
    service, whatever the neighbour slots hold, and calls it with the
    filled slots. *)
Lemma attempt_reaches_recognition e N i w prev next c w1 :
  contextWindow e N i w = (Ok (prev, Some c, next), w1) ->
  apiKey e = true ->
  exists r' w',
    attemptBody e N i w = (r', w') /\
    r' <> Throw errNoImage /\
    In (EvRecognize (imageParts [prev; Some c; next])) (log w').
Proof.
  intros Ew Hkey.
  pose proof (attemptBody_window _ _ _ _ _ _ _ _ Ew) as Hb.
  rewrite Hkey in Hb. cbn [negb] in Hb. cbv zeta in Hb. rewrite Hb.
  set (imgs := imageParts [prev; Some c; next]).
  assert (Hin : forall l, In (EvRecognize imgs) (l ++ [EvRecognize imgs]))
    by (intros l; apply in_or_app; right; now left).
  destruct (generateContent e) as [err| | |v];
    try (eexists _, _; split; [reflexivity|]; split; [discriminate | apply Hin]).
  cbv zeta. set (text := contentOrEmpty v).
  destruct (dir w1 !! MAIN_TEX_PATH) as [content|] eqn:Em.
  - eexists _, _. split; [reflexivity|]. split; [discriminate|].
    unfold recorded. cbn [addEvents putFile log]. apply in_or_app. left. apply Hin.
  - destruct (recordInManifest_none i (putFile (pageTexPath i) text
               (addEvents [EvRecognize imgs] w1))) as (err & Hr & _ & Hne).
    { simpl. rewrite lookup_insert_ne by apply pageTexPath_not_main. exact Em. }
    rewrite Hr. eexists _, _. split; [reflexivity|]. split.
    + simpl. intros Heq. injection Heq as Heq. now apply Hne.
    + apply Hin.
Qed.

(** C5.  The window of page [i] of a document of [totalPages] pages asks
    the renderer only for pages of the document among [i - 1], [i] and
    [i + 1].  When the renderer does not throw, the requests are [i - 1]
    if it is at least 1, then [i], then [i + 1] if it is at most
    [totalPages], and each slot holds what the renderer produced for its
    page, the neighbour slots being empty outside the document: for page 1
    of several there is no previous slot and the next page is asked for;
    for the last of several there is no next slot; in between both
    neighbours are asked for; for a single page neither.  With a renderer
    that produces an image for every page, the previous slot is filled
    exactly when [1 < i] and the next exactly when [i < totalPages].  An
    empty neighbour slot is no error: with a current image and the key
    set, the service is called with the filled slots only. *)
Theorem C5_context_window_requests
    (e : AttemptEnv) (totalPages i : Z) (w : World) :
  1 <= i <= totalPages ->
  exists r w1 evs,
    contextWindow e totalPages i w = (r, w1) /\
    log w1 = log w ++ evs /\
    (forall j, In j (renderRequests evs) ->
               1 <= j <= totalPages /\ (j = i - 1 \/ j = i \/ j = i + 1)) /\
    ((forall j err, converter e j <> RenderThrows err) ->
     exists prev curr next,
       r = Ok (prev, curr, next) /\
       renderRequests evs
       = (if 1 <=? i - 1 then [i - 1] else []) ++ [i] ++
         (if i + 1 <=? totalPages then [i + 1] else []) /\
       prev = (if 1 <=? i - 1 then slotOf (converter e (i - 1)) else None) /\
       curr = slotOf (converter e i) /\
       next = (if i + 1 <=? totalPages then slotOf (converter e (i + 1)) else None) /\
       (i = 1 -> 1 < totalPages -> prev = None /\ renderRequests evs = [1; 2]) /\
       (i = totalPages -> 1 < totalPages ->
        next = None /\ renderRequests evs = [totalPages - 1; totalPages]) /\
       (1 < i < totalPages -> renderRequests evs = [i - 1; i; i + 1]) /\
       (totalPages = 1 -> prev = None /\ next = None /\ renderRequests evs = [1]) /\
       ((forall j, 1 <= j <= totalPages -> is_Some (slotOf (converter e j))) ->
        (is_Some prev <-> 1 < i) /\ is_Some curr /\ (is_Some next <-> i < totalPages)) /\
       (forall c, curr = Some c -> apiKey e = true ->
          imageParts [prev; curr; next]
          = match prev with Some b => [b] | None => [] end ++ [c] ++
            match next with Some b => [b] | None => [] end /\
          exists r' w',
            attemptBody e totalPages i w = (r', w') /\
            r' <> Throw errNoImage /\
            In (EvRecognize (imageParts [prev; curr; next])) (log w'))).
Proof.
  intros Hi.
  destruct (contextWindow e totalPages i w) as [r w1] eqn:Ew.
  destruct (contextWindow_requests _ _ _ _ _ _ Ew) as (evs & Hl & Hreq).
  exists r, w1, evs. split; [reflexivity|]. split; [exact Hl|]. split; [exact Hreq|].
  intros Hno. rewrite (contextWindow_no_throw e totalPages i w Hi Hno) in Ew.
  cbv zeta in Ew. injection Ew as <- <-.
  eexists _, _, _. split; [reflexivity|].
  assert (Hrr : renderRequests evs
                = (if 1 <=? i - 1 then [i - 1] else []) ++ [i] ++
                  (if i + 1 <=? totalPages then [i + 1] else [])).
  { assert (Hevs : evs = (if 1 <=? i - 1 then [EvRender (i - 1)] else []) ++
                         [EvRender i] ++
                         (if i + 1 <=? totalPages then [EvRender (i + 1)] else [])).
    { apply (app_inv_head (log w)). rewrite <- Hl.
      destruct (1 <=? i - 1), (i + 1 <=? totalPages);
        rewrite ?rendered_log, <- ?app_assoc; reflexivity. }
    rewrite Hevs. now destruct (1 <=? i - 1), (i + 1 <=? totalPages). }
  split; [exact Hrr|]. split; [reflexivity|]. split; [reflexivity|].
  split; [reflexivity|]. rewrite Hrr.
  split.
  { intros -> HN. destruct (Z.leb_spec 1 (1 - 1)); [lia|].
    destruct (Z.leb_spec (1 + 1) totalPages); [|lia]. auto. }
  split.
  { intros <- HN. destruct (Z.leb_spec 1 (i - 1)); [|lia].
    destruct (Z.leb_spec (i + 1) i); [lia|]. auto. }
  split.
  { intros HN. destruct (Z.leb_spec 1 (i - 1)); [|lia].
    destruct (Z.leb_spec (i + 1) totalPages); [|lia]. reflexivity. }
  split.
  { intros ->. assert (i = 1) as -> by lia. auto. }
  split.
  { intros Hall. split; [|split].
    - destruct (Z.leb_spec 1 (i - 1)).
      + split; [lia|]. intros _. apply Hall. lia.
      + split; [intros [? ?]; discriminate | lia].
    - apply Hall. lia.
    - destruct (Z.leb_spec (i + 1) totalPages).
      + split; [lia|]. intros _. apply Hall. lia.
      + split; [intros [? ?]; discriminate | lia]. }
  intros c Hc Hkey.
  set (prev := if 1 <=? i - 1 then slotOf (converter e (i - 1)) else None) in *.
  set (next := if i + 1 <=? totalPages then slotOf (converter e (i + 1)) else None) in *.
  split; [rewrite Hc; now destruct prev, next|].
  pose proof (contextWindow_no_throw e totalPages i w Hi Hno) as Ew. cbv zeta in Ew.
  fold prev next in Ew. rewrite Hc in Ew. rewrite Hc.
  eapply attempt_reaches_recognition; eauto.
Qed.

Lemma C5_witness :
  exists r w1 evs,
    contextWindow (okEnv "t") 3 1 emptyWorld = (r, w1) /\
    log w1 = log emptyWorld ++ evs /\
    renderRequests evs = [1; 2] /\
    exists curr next, r = Ok (None, curr, next) /\ is_Some curr /\ is_Some next.
Proof.
  destruct (C5_context_window_requests (okEnv "t") 3 1 emptyWorld ltac:(lia))
    as (r & w1 & evs & H1 & H2 & _ & Hno).
  destruct Hno as (prev & curr & next & -> & _ & _ & _ & _ & Hfirst & _ & _ & _ & Hall & _).
  { intros j err. discriminate. }
  destruct (Hfirst eq_refl ltac:(lia)) as (-> & Hreq).
  destruct Hall as (_ & Hc & Hn).
  { intros j _. simpl. eauto. }
  exists (Ok (None, curr, next)), w1, evs.
  split; [exact H1|]. split; [exact H2|]. split; [exact Hreq|].
  exists curr, next. split; [reflexivity|]. split; [exact Hc|]. apply Hn. lia.
Defined.

(** An attempt whose image of the page has length zero, the renderer not
    throwing: the window is built, the missing-image error is thrown, and
    nothing else happens. *)
Lemma attemptBody_zero_length e N n w stem :
  1 <= n <= N ->
  (forall j err, converter e j <> RenderThrows err) ->
  converter e n = RenderFile stem EmptyString ->
  exists prev next,
    contextWindow e N n w = (Ok (prev, None, next), snd (contextWindow e N n w)) /\
    attemptBody e N n w = (Throw errNoImage, snd (contextWindow e N n w)).
Proof.
  intros Hn Hno Hc.
  pose proof (contextWindow_no_throw e N n w Hn Hno) as Ew. cbv zeta in Ew.
  rewrite Hc in Ew. cbn [slotOf String.length Nat.ltb Nat.leb] in Ew.
  rewrite Ew. cbn [snd]. eexists _, _. split; [reflexivity|].
  rewrite (attemptBody_window _ _ _ _ _ _ _ _ Ew). reflexivity.
Qed.

(** C9.  Let the renderer not throw.  If it returns an image of length
    zero for the current page, the attempt throws the missing-image error
    after the window is built, and the error does not pass the quota test.
    The failure is counted against the retry budget: as attempt 3, or as
    the third non-quota failure after any failed attempts, it fails the
    page, with the missing-image error as the last one and the rest of
    the script untouched; as an earlier attempt it is reported under its
    number and the loop goes on with the next number; and three attempts
    in a row in which the image of the page has length zero fail the page
    and halt the run before any other page.  If the renderer returns an
    image of length zero for a neighbour, that slot is empty, the attempt
    does not throw the missing-image error, the service is called with
    the other images, and with a well-formed answer and a manifest in
    place the page is recorded. *)
Theorem C9_zero_length_image_is_absent
    (e : AttemptEnv) (totalPages n : Z) (w : World) :
  1 <= n <= totalPages ->
  (forall j err, converter e j <> RenderThrows err) ->
  (forall stem, converter e n = RenderFile stem EmptyString ->
     exists prev next w1,
       contextWindow e totalPages n w = (Ok (prev, None, next), w1) /\
       attemptBody e totalPages n w = (Throw errNoImage, w1) /\
       isQuotaError errNoImage = false /\
       (forall envs a last, a <= MAX_RETRIES ->
          retryLoop (e :: envs) totalPages n a last w
          = retryLoop envs totalPages n (a + 1) (Some errNoImage)
              (addEvents [EvAttemptFailed n a errNoImage] w1)) /\
       (forall envs last,
          retryLoop (e :: envs) totalPages n 3 last w
          = (PageFailed (Some errNoImage), envs,
             addEvents [EvAttemptFailed n 3 errNoImage] w1)) /\
       (forall es errs w0 rest last,
          FailedAttempts totalPages n 1 w0 es errs w ->
          nonQuotaFailures errs = 2 ->
          retryLoop (es ++ e :: rest) totalPages n 1 last w0
          = (PageFailed (Some errNoImage), rest,
             addEvents [EvAttemptFailed n 3 errNoImage] w1)) /\
       (forall e2 e3 stem2 stem3 rest last,
          (forall j err, converter e2 j <> RenderThrows err) ->
          (forall j err, converter e3 j <> RenderThrows err) ->
          converter e2 n = RenderFile stem2 EmptyString ->
          converter e3 n = RenderFile stem3 EmptyString ->
          let w2 := snd (contextWindow e2 totalPages n
                           (addEvents [EvAttemptFailed n 1 errNoImage] w1)) in
          let w3 := snd (contextWindow e3 totalPages n
                           (addEvents [EvAttemptFailed n 2 errNoImage] w2)) in
          retryLoop (e :: e2 :: e3 :: rest) totalPages n 1 last w
          = (PageFailed (Some errNoImage), rest,
             addEvents [EvAttemptFailed n 3 errNoImage] w3) /\
          forall fuel w0,
            w = addEvents [EvPageStart n totalPages] w0 ->
            pageLoop (S fuel) (e :: e2 :: e3 :: rest) totalPages (n - 1) w0
            = (Halted n,
               addEvents [EvHalt n (Some errNoImage)]
                 (addEvents [EvNotify (notifyMessage n)]
                    (addEvents [EvAttemptFailed n 3 errNoImage] w3))))) /\
  (forall c, slotOf (converter e n) = Some c -> apiKey e = true ->
     exists prev next w1 r w',
       contextWindow e totalPages n w = (Ok (prev, Some c, next), w1) /\
       ((exists stem, converter e (n - 1) = RenderFile stem EmptyString) -> prev = None) /\
       ((exists stem, converter e (n + 1) = RenderFile stem EmptyString) -> next = None) /\
       attemptBody e totalPages n w = (r, w') /\
       r <> Throw errNoImage /\
       In (EvRecognize (imageParts [prev; Some c; next])) (log w') /\
       (forall text content,
          generateContent e = TextJson (ContentText text) ->
          dir w1 !! MAIN_TEX_PATH = Some content ->
          r = Ok tt /\ dir w' !! pageTexPath n = Some text)).
Proof.
  intros Hn Hno.
  pose proof (contextWindow_no_throw e totalPages n w Hn Hno) as Ew. cbv zeta in Ew.
  set (prev := if 1 <=? n - 1 then slotOf (converter e (n - 1)) else None) in *.
  set (next := if n + 1 <=? totalPages then slotOf (converter e (n + 1)) else None) in *.
  match type of Ew with _ = (_, ?w0) => set (w1 := w0) in * end.
  split.
  - intros stem Hc. rewrite Hc in Ew. cbn [slotOf String.length Nat.ltb Nat.leb] in Ew.
    assert (Hb : attemptBody e totalPages n w = (Throw errNoImage, w1)).
    { rewrite (attemptBody_window _ _ _ _ _ _ _ _ Ew). reflexivity. }
    pose proof errNoImage_not_quota as Hq.
    exists prev, next, w1. split; [exact Ew|]. split; [exact Hb|].
    split; [exact Hq|]. split.
    { intros envs a last Ha. now apply retryLoop_counted. }
    split.
    { intros envs last.
      rewrite (retryLoop_counted _ _ _ _ _ _ _ _ _ Hb Hq) by (unfold MAX_RETRIES; lia).
      apply retryLoop_over. unfold MAX_RETRIES. lia. }
    split.
    { intros es errs w0 rest last HF Hk.
      rewrite (retryLoop_within_budget _ _ _ _ _ _ HF) by (unfold MAX_RETRIES; lia).
      rewrite Hk.
      rewrite (retryLoop_counted _ _ _ _ _ _ _ _ _ Hb Hq) by (unfold MAX_RETRIES; lia).
      apply retryLoop_over. unfold MAX_RETRIES. lia. }
    intros e2 e3 stem2 stem3 rest last Hno2 Hno3 Hc2 Hc3 w2 w3.
    destruct (attemptBody_zero_length e2 totalPages n
                (addEvents [EvAttemptFailed n 1 errNoImage] w1) stem2 Hn Hno2 Hc2)
      as (_ & _ & _ & Hb2).
    destruct (attemptBody_zero_length e3 totalPages n
                (addEvents [EvAttemptFailed n 2 errNoImage] w2) stem3 Hn Hno3 Hc3)
      as (_ & _ & _ & Hb3).
    fold w2 in Hb2. fold w3 in Hb3.
    assert (Hloop : forall last0,
              retryLoop (e :: e2 :: e3 :: rest) totalPages n 1 last0 w
              = (PageFailed (Some errNoImage), rest,
                 addEvents [EvAttemptFailed n 3 errNoImage] w3)).
    { intros last0.
      rewrite (retryLoop_counted _ _ _ _ _ _ _ _ _ Hb Hq) by (unfold MAX_RETRIES; lia).
      rewrite (retryLoop_counted _ _ _ _ _ _ _ _ _ Hb2 Hq) by (unfold MAX_RETRIES; lia).
      rewrite (retryLoop_counted _ _ _ _ _ _ _ _ _ Hb3 Hq) by (unfold MAX_RETRIES; lia).
      apply retryLoop_over. unfold MAX_RETRIES. lia. }
    split; [apply Hloop|].
    intros fuel w0 Hw0.
    pose proof (pageLoop_halts fuel (e :: e2 :: e3 :: rest) totalPages (n - 1) w0
                  (Some errNoImage) rest
                  (addEvents [EvAttemptFailed n 3 errNoImage] w3)) as H.
    replace (n - 1 + 1) with n in H by lia.
    apply H; [lia|]. rewrite <- Hw0. apply Hloop.
  - intros c Hc Hkey. rewrite Hc in Ew.
    destruct (attempt_reaches_recognition _ _ _ _ _ _ _ _ Ew Hkey)
      as (r & w' & Hb & Hne & Hin).
    exists prev, next, w1, r, w'. split; [exact Ew|]. split; [|split].
    { intros (stem & Hs). unfold prev. rewrite Hs. now destruct (1 <=? n - 1). }
    { intros (stem & Hs). unfold next. rewrite Hs. now destruct (n + 1 <=? totalPages). }
    split; [exact Hb|]. split; [exact Hne|]. split; [exact Hin|].
    intros text content Hg Hm.
    rewrite (attemptBody_window _ _ _ _ _ _ _ _ Ew), Hkey, Hg in Hb.
    cbn [negb] in Hb. cbv zeta in Hb.
    cbn [contentOrEmpty] in Hb. rewrite Hm in Hb. injection Hb as <- <-.
    split; [reflexivity|]. unfold recorded. simpl.
    rewrite lookup_insert_ne by (intros E; symmetry in E; revert E; apply pageTexPath_not_main).
    apply lookup_insert_eq.
Qed.

Lemma emptyImageEnv_no_throw empty text j err :
  converter (emptyImageEnv empty text) j <> RenderThrows err.
Proof.
  unfold emptyImageEnv, pngOf. cbn [converter].
  destruct (existsb (Z.eqb j) empty); discriminate.
Qed.

Lemma C9_witness :
  fst (fst (retryLoop
              [emptyImageEnv [2] "a"; emptyImageEnv [2] "b"; emptyImageEnv [2] "c";
               okEnv "d"] 3 2 1 None (afterSetup emptyWorld)))
  = PageFailed (Some errNoImage) /\
  snd (fst (retryLoop
              [emptyImageEnv [2] "a"; emptyImageEnv [2] "b"; emptyImageEnv [2] "c";
               okEnv "d"] 3 2 1 None (afterSetup emptyWorld)))
  = [okEnv "d"] /\
  fst (attemptBody (emptyImageEnv [1; 3] "t") 3 2 (afterSetup emptyWorld)) = Ok tt.
Proof.
  split; [|split].
  - destruct (proj1 (C9_zero_length_image_is_absent
                       (emptyImageEnv [2] "a") 3 2 (afterSetup emptyWorld)
                       ltac:(lia)
                       (emptyImageEnv_no_throw [2] "a"))
                "untitled.2" eq_refl) as (prev & next & w1 & _ & _ & _ & _ & _ & _ & H3).
    destruct (H3 (emptyImageEnv [2] "b") (emptyImageEnv [2] "c")
                "untitled.2" "untitled.2" [okEnv "d"] None
                (emptyImageEnv_no_throw [2] "b") (emptyImageEnv_no_throw [2] "c")
                eq_refl eq_refl) as (-> & _).
    reflexivity.
  - destruct (proj1 (C9_zero_length_image_is_absent
                       (emptyImageEnv [2] "a") 3 2 (afterSetup emptyWorld)
                       ltac:(lia)
                       (emptyImageEnv_no_throw [2] "a"))
                "untitled.2" eq_refl) as (prev & next & w1 & _ & _ & _ & _ & _ & _ & H3).
    destruct (H3 (emptyImageEnv [2] "b") (emptyImageEnv [2] "c")
                "untitled.2" "untitled.2" [okEnv "d"] None
                (emptyImageEnv_no_throw [2] "b") (emptyImageEnv_no_throw [2] "c")
                eq_refl eq_refl) as (-> & _).
    reflexivity.
  - destruct (proj2 (C9_zero_length_image_is_absent
                       (emptyImageEnv [1; 3] "t") 3 2 (afterSetup emptyWorld)
                       ltac:(lia)
                       (emptyImageEnv_no_throw [1; 3] "t"))
                "PNG" eq_refl eq_refl)
      as (prev & next & w1 & r & w' & Ew & _ & _ & Hb & _ & _ & Hok).
    rewrite Hb. cbn [fst]. apply (Hok "t" initialContent); [reflexivity|].
    vm_compute in Ew. injection Ew as _ _ <-. vm_compute. reflexivity.
Defined.

(** C10.  The last processed page computed from a listing is the one
    computed from its page units alone; a page unit is a name made of
    [page], one or more digits and [.tex], and nothing else; inserting or
    removing any other name anywhere in the listing leaves the start page
    as it is; the manifest and the raster artifacts are such other
    names. *)
Theorem C10_only_page_units_count (files : list string) :
  getLastProcessedPageByTex files
  = getLastProcessedPageByTex (List.filter isPageTex files) /\
  (forall f, isPageTex f = true <->
             exists ds, JS.nonEmpty ds = true /\ JS.allDigits ds = true /\
                        f = "page" +:+ ds +:+ ".tex") /\
  (forall f before after,
      isPageTex f = false ->
      startPage (before ++ f :: after) = startPage (before ++ after)) /\
  isPageTex MAIN_TEX_PATH = false /\
  (forall stem, isPageTex (stem +:+ ".png") = false).
Proof.
  split; [|split; [|split; [|split]]].
  - apply getLast_ext. intros f Hf. rewrite filter_In. tauto.
  - intros f. split; [apply isPageTex_inv|].
    intros (ds & Hne & Hd & ->). now apply isPageTex_intro.
  - intros f before after Hf. unfold startPage. f_equal.
    apply getLast_ext. intros g Hg. rewrite !in_app_iff. simpl.
    split; [|tauto]. intros [?|[<-|?]]; auto. congruence.
  - apply isPageTex_main.
  - apply isPageTex_png.
Qed.

Lemma C10_witness :
  startPage ["page2.tex"; "main.tex"; "page10.tex"]
  = startPage ["page2.tex"; "page10.tex"] /\
  startPage ["untitled.3.png"; "page2.tex"; "xpage99.tex"] = startPage ["page2.tex"].
Proof.
  split.
  - apply (proj1 (proj2 (proj2 (C10_only_page_units_count [])))
             "main.tex" ["page2.tex"] ["page10.tex"] eq_refl).
  - eapply eq_trans.
    + exact (proj1 (proj2 (proj2 (C10_only_page_units_count [])))
               "untitled.3.png" [] ["page2.tex"; "xpage99.tex"] eq_refl).
    + exact (proj1 (proj2 (proj2 (C10_only_page_units_count [])))
               "xpage99.tex" ["page2.tex"] [] eq_refl).
Defined.

(* ================================================================== *)
(** * The scenarios of the specification, run on the model             *)
(* ================================================================== *)

(** Three pages, no prior state: pages 1, 2, 3 in order, and the manifest
    refers to them in this order, in front of the closing marker. *)
Example scenario_three_pages :
  startPage (listing emptyWorld) = 1 /\
  fst (processPdfDocument [okEnv "a"; okEnv "b"; okEnv "c"] 3 emptyWorld)
  = Ok AllPagesDone /\
  pagesDone (log (snd (processPdfDocument [okEnv "a"; okEnv "b"; okEnv "c"] 3 emptyWorld)))
  = [1; 2; 3] /\
  dir (snd (processPdfDocument [okEnv "a"; okEnv "b"; okEnv "c"] 3 emptyWorld)) !! MAIN_TEX_PATH
  = Some (initialContent +:+ includeLine 1 +:+ includeLine 2 +:+ includeLine 3
          +:+ closingText).
Proof. vm_compute. repeat split. Qed.

(** Fragments for pages 1 and 2 exist: only page 3 is processed. *)
Example scenario_resume_at_three :
  startPage (listing worldTwoPages) = 3 /\
  pagesStarted (log (snd (processPdfDocument [okEnv "c"] 3 worldTwoPages)))
  = [1; 2; 3] /\
  log (snd (processPdfDocument [okEnv "c"] 3 worldTwoPages))
  = log worldTwoPages ++
    [EvPageStart 3 3; EvRender 2; EvRender 3; EvRecognize ["PNG"; "PNG"];
     EvPageDone 3; EvFinished].
Proof. vm_compute. repeat split. Qed.

(** Page 2 of 3 fails twice with a service fault and succeeds at the third
    attempt: its fragment exists and nothing waited for quota. *)
Example scenario_two_faults_then_success :
  fst (processPdfDocument [okEnv "a"; faultEnv; faultEnv; okEnv "b"; okEnv "c"] 3 emptyWorld)
  = Ok AllPagesDone /\
  failedAttemptsOf 2
    (log (snd (processPdfDocument
                 [okEnv "a"; faultEnv; faultEnv; okEnv "b"; okEnv "c"] 3 emptyWorld)))
  = [1; 2] /\
  quotaWaits
    (log (snd (processPdfDocument
                 [okEnv "a"; faultEnv; faultEnv; okEnv "b"; okEnv "c"] 3 emptyWorld)))
  = [] /\
  dir (snd (processPdfDocument
              [okEnv "a"; faultEnv; faultEnv; okEnv "b"; okEnv "c"] 3 emptyWorld))
    !! pageTexPath 2 = Some "b".
Proof. vm_compute. repeat split. Qed.

(* ================================================================== *)
(** * Manifest operations on arbitrary text                            *)
(* ================================================================== *)

Section ManifestText.

Lemma stripPrefix_app_more p u r t :
  JS.stripPrefix p u = Some r -> JS.stripPrefix p (u +:+ t) = Some (r +:+ t).
Proof.
  revert u. induction p as [|a p IH]; intros u; simpl.
  - now intros [= ->].
  - destruct u as [|b u]; [discriminate|]. simpl.
    destruct (Ascii.eqb a b); [apply IH | discriminate].
Qed.

(** A pattern cannot be completed by a text that starts with a character
    the pattern does not have behind its first position. *)
Lemma stripPrefix_app_other a p b u c t :
  hasChar c p = false ->
  JS.stripPrefix (String a p) (String b u) = None ->
  JS.stripPrefix (String a p) (String b u +:+ String c t) = None.
Proof.
  simpl. destruct (Ascii.eqb a b); [|reflexivity].
  revert u. induction p as [|x p IH]; intros u Hc H; [discriminate|].
  simpl in Hc. apply orb_false_iff in Hc as [Hx Hc].
  destruct u as [|y u]; simpl.
  - rewrite Ascii.eqb_sym, Hx. reflexivity.
  - simpl in H. destruct (Ascii.eqb x y); [now apply IH | reflexivity].
Qed.

Lemma startsWith_app_other a p b u c t :
  hasChar c p = false ->
  JS.startsWith (String a p) (String b u +:+ String c t)
  = JS.startsWith (String a p) (String b u).
Proof.
  intros Hc. unfold JS.startsWith.
  destruct (JS.stripPrefix (String a p) (String b u)) as [r|] eqn:E.
  - now rewrite (stripPrefix_app_more _ _ _ _ E).
  - now rewrite (stripPrefix_app_other _ _ _ _ _ _ Hc E).
Qed.

Lemma includes_app_other a p u c t :
  hasChar c p = false ->
  JS.includes (String a p) (u +:+ String c t)
  = JS.includes (String a p) u || JS.includes (String a p) (String c t).
Proof.
  intros Hc. induction u as [|b u IH].
  - reflexivity.
  - change (String b u +:+ String c t) with (String b (u +:+ String c t)).
    cbn [JS.includes]. rewrite IH.
    change (String b (u +:+ String c t)) with (String b u +:+ String c t).
    rewrite (startsWith_app_other _ _ _ _ _ _ Hc). now rewrite orb_assoc.
Qed.

Lemma countOccurrences_app_other a p u c t :
  hasChar c p = false ->
  countOccurrences (String a p) (u +:+ String c t)
  = (countOccurrences (String a p) u + countOccurrences (String a p) (String c t))%nat.
Proof.
  intros Hc. set (K := countOccurrences (String a p) (String c t)).
  induction u as [|b u IH].
  - reflexivity.
  - change (String b u +:+ String c t) with (String b (u +:+ String c t)).
    cbn [countOccurrences]. rewrite IH.
    change (String b (u +:+ String c t)) with (String b u +:+ String c t).
    rewrite (startsWith_app_other _ _ _ _ _ _ Hc).
    destruct (JS.startsWith (String a p) (String b u)); lia.
Qed.

Lemma countOccurrences_none a p s :
  JS.includes (String a p) s = false -> countOccurrences (String a p) s = 0%nat.
Proof.
  induction s as [|b s IH]; cbn [JS.includes countOccurrences].
  - now intros ->%orb_false_iff%proj1.
  - intros [-> H]%orb_false_iff. now rewrite IH.
Qed.

Lemma takeDigits_app_other r c t :
  JS.isDigit c = false -> JS.takeDigits (r +:+ String c t) = JS.takeDigits r.
Proof.
  intros Hc. induction r as [|d r IH]; simpl.
  - now rewrite Hc.
  - destruct (JS.isDigit d); [now rewrite IH | reflexivity].
Qed.

Lemma dropDigits_app_other r c t :
  JS.isDigit c = false ->
  JS.dropDigits (r +:+ String c t) = JS.dropDigits r +:+ String c t.
Proof.
  intros Hc. induction r as [|d r IH]; simpl.
  - now rewrite Hc.
  - destruct (JS.isDigit d); [now rewrite IH | reflexivity].
Qed.

Lemma matchInclude_app_other b u c t :
  breaksInclude c ->
  matchInclude (String b u +:+ String c t) = matchInclude (String b u).
Proof.
  intros [Hd Hc]. unfold matchInclude.
  assert (Hc' : hasChar c "include{page" = false).
  { revert Hc. cbn. rewrite !orb_false_iff. tauto. }
  assert (Hb : Ascii.eqb "}" c = false).
  { revert Hc. cbn. rewrite !orb_false_iff, (Ascii.eqb_sym c "}"). tauto. }
  destruct (JS.stripPrefix "\include{page" (String b u)) as [r|] eqn:E.
  - rewrite (stripPrefix_app_more _ _ _ _ E).
    rewrite (takeDigits_app_other _ _ _ Hd), (dropDigits_app_other _ _ _ Hd).
    destruct (JS.dropDigits r) as [|x r'].
    + change (EmptyString +:+ String c t) with (String c t).
      unfold JS.startsWith. cbn [JS.stripPrefix]. rewrite Hb. reflexivity.
    + change (String x r' +:+ String c t) with (String x (r' +:+ String c t)).
      unfold JS.startsWith. cbn [JS.stripPrefix]. now destruct (Ascii.eqb "}" x).
  - now rewrite (stripPrefix_app_other _ _ _ _ _ _ Hc' E).
Qed.

Lemma matchInclude_length s n len :
  matchInclude s = Some (n, len) -> (0 < len <= String.length s)%nat.
Proof.
  unfold matchInclude.
  destruct (JS.stripPrefix "\include{page" s) as [r|] eqn:E; [|discriminate].
  apply stripPrefix_Some in E as ->.
  destruct (JS.nonEmpty (JS.takeDigits r) && JS.startsWith "}" (JS.dropDigits r)) eqn:H;
    [|discriminate].
  intros [= <- <-]. apply andb_true_iff in H as [_ H].
  apply startsWith_true in H as (r' & H).
  assert (Hr : String.length r
               = (String.length (JS.takeDigits r) + String.length (JS.dropDigits r))%nat).
  { now rewrite <- length_app_s, takeDigits_dropDigits. }
  rewrite length_app_s, Hr, H. simpl. lia.
Qed.

Lemma includeRefsFrom_past s : forall k,
  (String.length s <= k)%nat -> includeRefsFrom k s = [].
Proof.
  induction s as [|b s IH]; intros k Hk; [reflexivity|].
  simpl in Hk. destruct k as [|k]; [lia|]. simpl. apply IH. lia.
Qed.

(** References do not straddle a cut behind which the text goes on with
    such a character. *)
Lemma includeRefsFrom_app_other c t s : forall k,
  breaksInclude c -> (k <= String.length s)%nat ->
  includeRefsFrom k (s +:+ String c t)
  = includeRefsFrom k s ++ includeRefsFrom 0 (String c t).
Proof.
  intros k Hc. revert k.
  induction s as [|b s IH]; intros k Hk.
  - simpl in Hk. now replace k with 0%nat by lia.
  - change (String b s +:+ String c t) with (String b (s +:+ String c t)).
    destruct k as [|k]; cbn [includeRefsFrom].
    + change (String b (s +:+ String c t)) with (String b s +:+ String c t).
      rewrite (matchInclude_app_other _ _ _ _ Hc).
      destruct (matchInclude (String b s)) as [[n len]|] eqn:E.
      * apply matchInclude_length in E. simpl in E.
        rewrite IH by lia. reflexivity.
      * apply IH. lia.
    + apply IH. simpl in Hk. lia.
Qed.

Lemma includeRefs_app_other c t s :
  breaksInclude c ->
  includeRefs (s +:+ String c t) = includeRefs s ++ includeRefs (String c t).
Proof. intros Hc. apply includeRefsFrom_app_other; [exact Hc | lia]. Qed.

Lemma continues_nl : breaksInclude "010".
Proof. split; reflexivity. Qed.

Lemma continues_backslash : breaksInclude backslash.
Proof. split; reflexivity. Qed.

End ManifestText.

Section ManifestAnyText.

Lemma countOccurrences_some a p s :
  JS.includes (String a p) s = true -> (1 <= countOccurrences (String a p) s)%nat.
Proof.
  induction s as [|b s IH]; cbn [JS.includes countOccurrences].
  - rewrite orb_false_r. intros ->. lia.
  - destruct (JS.startsWith (String a p) (String b s)); [lia|].
    simpl. intros H. specialize (IH H). lia.
Qed.

Lemma noEscape_e_line p : 0 <= p -> noEscape "e" (includeLine p +:+ JS.nl) = true.
Proof.
  intros Hp. unfold includeLine. apply noEscape_app; [|reflexivity].
  apply noEscape_app; [reflexivity | now apply noEscape_includeRef].
Qed.

Lemma includeRefs_marker t : includeRefs (endDocument +:+ t) = includeRefs t.
Proof. apply includeRefs_noEscape. reflexivity. Qed.

Lemma includeRefs_line p t :
  0 <= p -> includeRefs (includeLine p +:+ t) = p :: includeRefs t.
Proof.
  intros Hp. unfold includeLine, includeRefs. rewrite app_assoc_s.
  rewrite includeRefs_nl. now apply includeRefs_ref.
Qed.

Lemma includeRefs_closingText : includeRefs closingText = [].
Proof. reflexivity. Qed.

Lemma count_app_marker pre t :
  countOccurrences endDocument (pre +:+ endDocument +:+ t)
  = (countOccurrences endDocument pre
     + countOccurrences endDocument (endDocument +:+ t))%nat.
Proof.
  exact (countOccurrences_app_other "\" "end{document}" pre backslash
           ("end{document}" +:+ t) eq_refl).
Qed.

Lemma count_app_nl pre t :
  countOccurrences endDocument (pre +:+ JS.nl +:+ t)
  = (countOccurrences endDocument pre
     + countOccurrences endDocument (JS.nl +:+ t))%nat.
Proof.
  exact (countOccurrences_app_other "\" "end{document}" pre "010" t eq_refl).
Qed.

Lemma includes_app_nl pre t :
  JS.includes endDocument (pre +:+ JS.nl +:+ t)
  = JS.includes endDocument pre || JS.includes endDocument (JS.nl +:+ t).
Proof.
  exact (includes_app_other "\" "end{document}" pre "010" t eq_refl).
Qed.

Lemma includeRefs_app_marker pre t :
  includeRefs (pre +:+ endDocument +:+ t) = includeRefs pre ++ includeRefs t.
Proof.
  rewrite <- (includeRefs_marker t).
  exact (includeRefs_app_other backslash ("end{document}" +:+ t) pre
           continues_backslash).
Qed.

Lemma includeRefs_app_nl pre t :
  includeRefs (pre +:+ JS.nl +:+ t) = includeRefs pre ++ includeRefs t.
Proof.
  replace (includeRefs t) with (includeRefs (JS.nl +:+ t))
    by apply includeRefs_nl.
  exact (includeRefs_app_other "010" t pre continues_nl).
Qed.

Lemma includeRefs_only p : 0 <= p -> includeRefs (includeRef p) = [p].
Proof.
  intros Hp. rewrite <- (app_nil_r_s (includeRef p)) at 1.
  unfold includeRefs. now rewrite includeRefs_ref.
Qed.

(** Recording in a text without a closing marker. *)
Lemma updateManifest_any_open p content :
  0 <= p -> JS.includes endDocument content = false ->
  updateManifest p content = content +:+ includeLine p /\
  JS.includes endDocument (content +:+ includeLine p) = false /\
  includeRefs (content +:+ includeLine p) = includeRefs content ++ [p].
Proof.
  intros Hp Hno. split; [now apply updateManifest_open|].
  unfold includeLine. split.
  - rewrite includes_app_nl, Hno. simpl orb.
    assert (Hn : noEscape "e" (JS.nl +:+ includeRef p) = true).
    { apply noEscape_app; [reflexivity | now apply noEscape_includeRef]. }
    pose proof (includes_noEscape "e" "nd{document}" _ EmptyString Hn) as H.
    rewrite app_nil_r_s in H. rewrite endDocument_escape. exact H.
  - rewrite includeRefs_app_nl. f_equal. now apply includeRefs_only.
Qed.

(** Recording in a text with a closing marker, cut at a marker. *)
Lemma updateManifest_any_closed p pre post :
  0 <= p ->
  let new := pre +:+ includeLine p +:+ JS.nl +:+ endDocument +:+ post in
  countOccurrences endDocument new
  = countOccurrences endDocument (pre +:+ endDocument +:+ post) /\
  includeRefs (pre +:+ endDocument +:+ post) = includeRefs pre ++ includeRefs post /\
  includeRefs new = includeRefs pre ++ p :: includeRefs post.
Proof.
  intros Hp new. subst new. unfold includeLine. rewrite !app_assoc_s.
  split; [|split].
  - rewrite count_app_nl, count_app_marker. f_equal.
    rewrite <- !app_assoc_s, !(app_assoc_s _ endDocument).
    rewrite endDocument_escape at 1 3.
    apply countOccurrences_noEscape.
    apply noEscape_app; [|reflexivity].
    apply noEscape_app; [reflexivity | now apply noEscape_includeRef].
  - apply includeRefs_app_marker.
  - rewrite includeRefs_app_nl. f_equal.
    unfold includeRefs at 1. rewrite (includeRefs_ref _ _ Hp). f_equal.
Qed.

Lemma finalizeManifest_includes c :
  JS.includes endDocument (finalizeManifest c) = true.
Proof.
  unfold finalizeManifest.
  destruct (JS.includes endDocument c) eqn:E; [exact E|].
  unfold closingText. rewrite <- !app_assoc_s, app_assoc_s. apply closed_has_marker.
Qed.

Lemma includeRefs_finalizeManifest c :
  includeRefs (finalizeManifest c) = includeRefs c.
Proof.
  unfold finalizeManifest.
  destruct (JS.includes endDocument c); [reflexivity|].
  unfold closingText. rewrite includeRefs_app_nl. apply app_nil_r.
Qed.

End ManifestAnyText.



(** X4.  Finalization on a manifest of any text: afterwards there is a
    closing marker, a second finalization changes nothing, no reference is
    added or lost, a text without marker gets exactly one, and recording a
    page before or after finalization gives the same references. *)
Theorem X4_finalize_any_manifest (content : string) :
  JS.includes endDocument (finalizeManifest content) = true /\
  finalizeManifest (finalizeManifest content) = finalizeManifest content /\
  includeRefs (finalizeManifest content) = includeRefs content /\
  countOccurrences endDocument (finalizeManifest content)
  = Nat.max 1 (countOccurrences endDocument content) /\
  (forall p, 0 <= p ->
     includeRefs (updateManifest p (finalizeManifest content))
     = includeRefs (finalizeManifest (updateManifest p content))).
Proof.
  pose proof finalizeManifest_includes as Hfin.
  pose proof includeRefs_finalizeManifest as Hrefs.
  split; [apply Hfin|]. split.
  { apply finalizeManifest_closed, Hfin. }
  split; [apply Hrefs|]. split.
  - unfold finalizeManifest. destruct (JS.includes endDocument content) eqn:E.
    + rewrite endDocument_escape in *. apply countOccurrences_some in E. lia.
    + unfold closingText. rewrite count_app_nl.
      rewrite endDocument_escape in E.
      pose proof (countOccurrences_none _ _ _ E) as E0.
      rewrite <- endDocument_escape in E0. rewrite E0. reflexivity.
  - intros p Hp. rewrite Hrefs.
    unfold finalizeManifest at 1. destruct (JS.includes endDocument content) eqn:E.
    + reflexivity.
    + destruct (updateManifest_any_open p content Hp E) as (-> & _ & ->).
      change (content +:+ closingText)
        with (content +:+ (JS.nl +:+ JS.nl) +:+ endDocument +:+ JS.nl).
      rewrite <- app_assoc_s, updateManifest_closed.
      destruct (updateManifest_any_closed p (content +:+ JS.nl +:+ JS.nl) JS.nl Hp)
        as (_ & _ & ->).
      rewrite includeRefs_app_nl, app_nil_r. reflexivity.
Qed.

(* ================================================================== *)
(** * What a run leaves behind                                         *)
(* ================================================================== *)

Section Effects.

Lemma pagesFrom_S s n : pagesFrom s (S n) = s :: pagesFrom (s + 1) n.
Proof.
  unfold pagesFrom. cbn [seq List.map]. f_equal; [f_equal; lia|].
  rewrite <- seq_shift, List.map_map. apply List.map_ext. intros k. lia.
Qed.

Lemma pagesFrom_In s n q : In q (pagesFrom s n) <-> s <= q < s + Z.of_nat n.
Proof.
  unfold pagesFrom. rewrite in_map_iff. split.
  - intros (k & <- & Hk%in_seq). lia.
  - intros H. exists (Z.to_nat (q - s)). split; [lia|]. apply in_seq. lia.
Qed.

Lemma pagesFrom_length s n : length (pagesFrom s n) = n.
Proof. unfold pagesFrom. now rewrite length_map, length_seq. Qed.

Lemma pagesFrom_snoc s n : pagesFrom s (S n) = pagesFrom s n ++ [s + Z.of_nat n].
Proof.
  unfold pagesFrom. rewrite seq_S, List.map_app. reflexivity.
Qed.

Lemma countsFrom_pagesFrom s l : countsFrom s l -> l = pagesFrom s (length l).
Proof.
  revert s. induction l as [|x l IH]; intros s; [reflexivity|].
  intros [-> H]. cbn [length]. rewrite pagesFrom_S. f_equal. now apply IH.
Qed.

(** Render requests are none of the other kinds of events. *)
Lemma render_only_projections evs :
  Forall (fun ev => isRenderEvent ev = true) evs ->
  pagesDone evs = [] /\ pagesStarted evs = [] /\ recognitions evs = [] /\
  failedAttempts evs = [] /\ quotaWaits evs = [].
Proof.
  induction 1 as [|ev evs Hev _ IH]; [now repeat split|].
  destruct ev; try discriminate. exact IH.
Qed.

Lemma rasterOnly_main w w1 : rasterOnly w w1 -> dir w1 !! MAIN_TEX_PATH = dir w !! MAIN_TEX_PATH.
Proof. intros (H & _). apply H. intros stem E. symmetry in E. now apply png_not_main in E. Qed.

Lemma attemptBody_throw_window e N n w err w1 :
  contextWindow e N n w = (Throw err, w1) -> attemptBody e N n w = (Throw err, w1).
Proof. intros E. unfold attemptBody. unfold bind at 1. now rewrite E. Qed.

(** How an attempt ends when there is a manifest: without a call of the
    service (the renderer threw, there is no image of the page, or no
    key); with a call that failed; or with the page recorded, the
    fragment being the answer of the service. *)
Lemma attemptBody_effect e N n w c0 r w' :
  dir w !! MAIN_TEX_PATH = Some c0 ->
  attemptBody e N n w = (r, w') ->
  exists w1,
    rasterOnly w w1 /\
    ((exists err, r = Throw err /\ w' = w1 /\
        ((exists j, converter e j = RenderThrows err) \/ err = errNoImage \/
         (err = errApiKey /\ apiKey e = false))) \/
     (exists imgs, r = Throw errApiFailed /\ apiKey e = true /\
        (1 <= length imgs <= 3)%nat /\
        w' = addEvents [EvRecognize imgs] w1) \/
     (exists imgs, r = Ok tt /\ apiKey e = true /\
        (exists v, generateContent e = TextJson v) /\
        (1 <= length imgs <= 3)%nat /\
        w' = recorded n imgs (answerOf e) c0 w1)).
Proof.
  intros Hm H.
  destruct (contextWindow e N n w) as [[[[prev curr] next]|err] w1] eqn:Ew.
  2:{ rewrite (attemptBody_throw_window _ _ _ _ _ _ Ew) in H. injection H as <- <-.
      exists w1. split; [eapply contextWindow_rasterOnly, Ew|].
      left. exists err. split; [reflexivity|]. split; [reflexivity|].
      left. eapply contextWindow_throw, Ew. }
  pose proof (contextWindow_rasterOnly _ _ _ _ _ _ Ew) as Hr.
  rewrite (attemptBody_window _ _ _ _ _ _ _ _ Ew) in H.
  exists w1. split; [exact Hr|].
  destruct curr as [c|].
  2:{ injection H as <- <-. left. exists errNoImage. repeat split; auto. }
  destruct (apiKey e) eqn:Ek; cbn [negb] in H.
  2:{ injection H as <- <-. left. exists errApiKey. repeat split; auto. }
  cbv zeta in H. unfold answerOf.
  assert (Hlen : (1 <= length (imageParts [prev; Some c; next]) <= 3)%nat).
  { destruct prev, next; simpl; lia. }
  destruct (generateContent e) as [err| | |v] eqn:Eg;
    try (injection H as <- <-; right; left; eexists; eauto).
  rewrite (rasterOnly_main _ _ Hr), Hm in H. injection H as <- <-.
  right; right. eexists. split; [reflexivity|]. split; [reflexivity|].
  split; [eauto|]. split; [exact Hlen | reflexivity].
Qed.

Lemma recorded_log n imgs text c w1 :
  log (recorded n imgs text c w1) = log w1 ++ [EvRecognize imgs; EvPageDone n].
Proof. unfold recorded. simpl. now rewrite <- app_assoc. Qed.

Lemma recorded_main n imgs text c w1 :
  dir (recorded n imgs text c w1) !! MAIN_TEX_PATH = Some (updateManifest n c).
Proof. unfold recorded. simpl. apply lookup_insert_eq. Qed.

Lemma recorded_fragment n imgs text c w1 :
  dir (recorded n imgs text c w1) !! pageTexPath n = Some text.
Proof.
  unfold recorded. simpl.
  rewrite lookup_insert_ne by (intros E; symmetry in E; now apply pageTexPath_not_main in E).
  apply lookup_insert_eq.
Qed.

Lemma recorded_other n imgs text c w1 f :
  f <> MAIN_TEX_PATH -> f <> pageTexPath n ->
  dir (recorded n imgs text c w1) !! f = dir w1 !! f.
Proof.
  intros H1 H2. unfold recorded. simpl.
  rewrite lookup_insert_ne by congruence. apply lookup_insert_ne. congruence.
Qed.

(** The retry loop of one page, with a manifest in place. *)
Lemma retryLoop_effect envs N n : forall a last w c0 r rest w',
  dir w !! MAIN_TEX_PATH = Some c0 -> 0 <= n ->
  retryLoop envs N n a last w = (r, rest, w') ->
  exists evs,
    log w' = log w ++ evs /\
    pagesStarted evs = [] /\
    (length (recognitions evs) <= Z.to_nat (MAX_RETRIES + 1 - a))%nat /\
    (forall f, f <> MAIN_TEX_PATH -> (forall stem, f <> stem +:+ ".png") ->
               f <> pageTexPath n -> dir w' !! f = dir w !! f) /\
    match r with
    | PageSucceeded =>
        pagesDone evs = [n] /\ (1 <= length (recognitions evs))%nat /\
        dir w' !! MAIN_TEX_PATH = Some (updateManifest n c0) /\
        exists e, In e envs /\ apiKey e = true /\
                  dir w' !! pageTexPath n = Some (answerOf e)
    | _ =>
        pagesDone evs = [] /\ dir w' !! MAIN_TEX_PATH = Some c0 /\
        dir w' !! pageTexPath n = dir w !! pageTexPath n
    end.
Proof.
  assert (Hpng : 0 <= n -> forall stem, pageTexPath n <> stem +:+ ".png").
  { intros Hn stem E. symmetry in E. now apply png_not_pageTexPath in E. }
  induction envs as [|e envs IH]; intros a last w c0 r rest w' Hm Hn H;
    cbn [retryLoop] in H; destruct (Z.leb_spec a MAX_RETRIES) as [Ha|Ha].
  1,2,4: injection H as <- <- <-; exists []; rewrite app_nil_r;
    (split; [reflexivity|]); (split; [reflexivity|]); (split; [simpl; lia|]);
    (split; [reflexivity|]); auto.
  destruct (attemptBody e N n w) as [rb w2] eqn:Eb.
  destruct (attemptBody_effect _ _ _ _ _ _ _ Hm Eb)
    as (w1 & Hr & [(err & -> & -> & _)|[(imgs & -> & _ & Hi & ->)|(imgs & -> & Hk & _ & Hi & ->)]]).
  - (* no call of the service *)
    pose proof Hr as (Hframe & _ & evs1 & Hl1 & Hev1).
    destruct (render_only_projections _ Hev1) as (Hd1 & Hs1 & Hc1 & _ & _).
    assert (Hm1 : dir w1 !! MAIN_TEX_PATH = Some c0) by now rewrite (rasterOnly_main _ _ Hr).
    destruct (isQuotaError err).
    + replace (a - 1 + 1) with a in H by lia.
      destruct (IH _ _ _ _ _ _ _ Hm1 Hn H) as (evs2 & Hl2 & Hs2 & Hc2 & Hf2 & Hres).
      exists (evs1 ++ evs2). rewrite Hl2, Hl1, <- app_assoc.
      unfold pagesStarted, pagesDone, recognitions in *.
      rewrite !omap_app, Hs1, Hs2, Hc1, Hd1. cbn [app].
      split; [reflexivity|]. split; [reflexivity|]. split; [exact Hc2|].
      split. { intros f H1 H2 H3. rewrite Hf2 by assumption. now apply Hframe. }
      destruct r; [|destruct Hres as (? & ? & Hp); repeat split; auto;
                     rewrite Hp; now apply Hframe, Hpng ..].
      destruct Hres as (? & ? & ? & e' & ? & ?). repeat split; auto.
      exists e'. split; [now right | auto].
    + unfold emit in H. cbn [snd] in H.
      assert (Hm1' : dir (addEvents [EvAttemptFailed n a err] w1) !! MAIN_TEX_PATH = Some c0)
        by exact Hm1.
      destruct (IH _ _ _ _ _ _ _ Hm1' Hn H) as (evs2 & Hl2 & Hs2 & Hc2 & Hf2 & Hres).
      exists (evs1 ++ [EvAttemptFailed n a err] ++ evs2).
      rewrite Hl2. cbn [addEvents log]. rewrite Hl1, <- !app_assoc.
      unfold pagesStarted, pagesDone, recognitions in *.
      rewrite !omap_app, Hs1, Hs2, Hc1, Hd1. cbn [app omap list_omap].
      split; [reflexivity|]. split; [reflexivity|]. split; [lia|].
      split. { intros f H1 H2 H3. rewrite Hf2 by assumption. now apply Hframe. }
      destruct r; [|destruct Hres as (? & ? & Hp); repeat split; auto;
                     rewrite Hp; now apply Hframe, Hpng ..].
      destruct Hres as (? & ? & ? & e' & ? & ?). repeat split; auto.
      exists e'. split; [now right | auto].
  - (* a call that failed *)
    pose proof Hr as (Hframe & _ & evs1 & Hl1 & Hev1).
    destruct (render_only_projections _ Hev1) as (Hd1 & Hs1 & Hc1 & _ & _).
    assert (Hm1 : dir w1 !! MAIN_TEX_PATH = Some c0) by now rewrite (rasterOnly_main _ _ Hr).
    rewrite errApiFailed_not_quota in H. unfold emit in H. cbn [snd] in H.
    match type of H with retryLoop _ _ _ _ _ ?wx = _ =>
      assert (Hm1' : dir wx !! MAIN_TEX_PATH = Some c0) by exact Hm1 end.
    destruct (IH _ _ _ _ _ _ _ Hm1' Hn H) as (evs2 & Hl2 & Hs2 & Hc2 & Hf2 & Hres).
    exists (evs1 ++ [EvRecognize imgs; EvAttemptFailed n a errApiFailed] ++ evs2).
    rewrite Hl2. cbn [addEvents log]. rewrite Hl1, <- !app_assoc.
    unfold pagesStarted, pagesDone, recognitions in *.
    rewrite !omap_app, Hs1, Hs2, Hc1, Hd1. cbn [app omap list_omap length].
    split; [reflexivity|]. split; [reflexivity|].
    split; [unfold MAX_RETRIES in *; lia|].
    split. { intros f H1 H2 H3. rewrite Hf2 by assumption. now apply Hframe. }
    destruct r; [|destruct Hres as (? & ? & Hp); repeat split; auto;
                   rewrite Hp; now apply Hframe, Hpng ..].
    destruct Hres as (Hd & Hge & Hmm & e' & Hin & Hfr).
    split; [exact Hd|]. split; [lia|]. split; [exact Hmm|].
    exists e'. split; [now right | exact Hfr].
  - (* the page is recorded *)
    pose proof Hr as (Hframe & _ & evs1 & Hl1 & Hev1).
    destruct (render_only_projections _ Hev1) as (Hd1 & Hs1 & Hc1 & _ & _).
    injection H as <- <- <-.
    exists (evs1 ++ [EvRecognize imgs; EvPageDone n]).
    rewrite recorded_log, Hl1, <- app_assoc.
    unfold pagesStarted, pagesDone, recognitions in *.
    rewrite !omap_app, Hs1, Hc1, Hd1. cbn [app omap list_omap length].
    split; [reflexivity|]. split; [reflexivity|].
    split; [unfold MAX_RETRIES in *; lia|].
    split. { intros f H1 H2 H3. rewrite recorded_other by assumption. now apply Hframe. }
    split; [reflexivity|]. split; [lia|]. split; [apply recorded_main|].
    exists e. split; [now left|]. split; [exact Hk | apply recorded_fragment].
Qed.

Lemma retryLoop_rest envs N n : forall a last w r rest w',
  retryLoop envs N n a last w = (r, rest, w') -> forall e, In e rest -> In e envs.
Proof.
  induction envs as [|e envs IH]; intros a last w r rest w' H;
    cbn [retryLoop] in H; destruct (a <=? MAX_RETRIES).
  1,2,4: now injection H as <- <- <-.
  destruct (attemptBody e N n w) as [[[]|err] w1].
  - injection H as <- <- <-. intros e' He'. now right.
  - destruct (isQuotaError err); intros e' He'; right; eapply IH; eauto.
Qed.

(** The page loop, with a manifest in place: the pages recorded are
    consecutive, the manifest has been updated for each of them in turn,
    each has its fragment, and nothing else has changed but raster
    artifacts. *)
Lemma pageLoop_effect fuel N : forall envs i w c0 r w',
  dir w !! MAIN_TEX_PATH = Some c0 -> 0 <= i ->
  pageLoop fuel envs N i w = (r, w') ->
  exists evs,
    log w' = log w ++ evs /\
    dir w' !! MAIN_TEX_PATH
    = Some (recordAll (pagesDone evs) c0) /\
    pagesDone evs = pagesFrom (i + 1) (length (pagesDone evs)) /\
    (forall f, f <> MAIN_TEX_PATH -> (forall stem, f <> stem +:+ ".png") ->
               (forall q, In q (pagesDone evs) -> f <> pageTexPath q) ->
               dir w' !! f = dir w !! f) /\
    (forall q, In q (pagesDone evs) ->
               exists e, In e envs /\ apiKey e = true /\
                         dir w' !! pageTexPath q = Some (answerOf e)) /\
    (length (recognitions evs) <= 3 * length (pagesStarted evs))%nat /\
    (length (pagesDone evs) <= length (recognitions evs))%nat /\
    (length (pagesDone evs) <= length (pagesStarted evs))%nat /\
    (length (pagesStarted evs) <= Z.to_nat (N - i))%nat /\
    match r with
    | AllPagesDone =>
        pagesStarted evs = pagesDone evs /\
        ((Z.to_nat (N - i) <= fuel)%nat -> length (pagesDone evs) = Z.to_nat (N - i))
    | Halted p =>
        p = i + 1 + Z.of_nat (length (pagesDone evs)) /\ p <= N /\
        pagesStarted evs = pagesDone evs ++ [p]
    | OutOfScript => True
    end.
Proof.
  induction fuel as [|fuel IH]; intros envs i w c0 r w' Hm Hi H; cbn [pageLoop] in H.
  { injection H as <- <-. exists []. rewrite app_nil_r. simpl.
    repeat split; auto; try lia; intros q []. }
  destruct (Z.ltb_spec i N) as [HiN|HiN].
  2:{ injection H as <- <-. exists []. rewrite app_nil_r. simpl.
      repeat split; auto; try lia; intros q []. }
  cbv zeta in H. unfold emit in H. cbn [snd] in H.
  set (w1 := addEvents [EvPageStart (i + 1) N] w) in *.
  assert (Hm1 : dir w1 !! MAIN_TEX_PATH = Some c0) by exact Hm.
  assert (Hn : 0 <= i + 1) by lia.
  destruct (retryLoop envs N (i + 1) 1 None w1) as [[rr envs'] w2] eqn:Er.
  destruct (retryLoop_effect _ _ _ _ _ _ _ _ _ _ Hm1 Hn Er)
    as (evsr & Hlr & Hsr & Hcr & Hfr & Hres).
  pose proof (retryLoop_rest _ _ _ _ _ _ _ _ _ Er) as Hrest.
  change (Z.to_nat (MAX_RETRIES + 1 - 1)) with 3%nat in Hcr.
  destruct rr as [|lastError|].
  - (* the page is recorded; on to the next *)
    destruct Hres as (Hdr & Hger & Hmr & e & Hine & Hke & Hfe).
    assert (Hi' : 0 <= i + 1) by lia.
    destruct (IH _ _ _ _ _ _ Hmr Hi' H)
      as (evs2 & Hl2 & Hm2 & Hd2 & Hf2 & Ha2 & Hc2 & Hg2 & Hds2 & Hs2 & Hres2).
    exists ([EvPageStart (i + 1) N] ++ evsr ++ evs2).
    assert (Hdone : pagesDone ([EvPageStart (i + 1) N] ++ evsr ++ evs2)
                    = (i + 1) :: pagesDone evs2).
    { unfold pagesDone in *. rewrite !omap_app, Hdr. reflexivity. }
    assert (Hstart : pagesStarted ([EvPageStart (i + 1) N] ++ evsr ++ evs2)
                     = (i + 1) :: pagesStarted evs2).
    { unfold pagesStarted in *. rewrite !omap_app, Hsr. reflexivity. }
    assert (Hrec : recognitions ([EvPageStart (i + 1) N] ++ evsr ++ evs2)
                   = recognitions evsr ++ recognitions evs2).
    { unfold recognitions. rewrite !omap_app. reflexivity. }
    rewrite Hdone, Hstart, Hrec, length_app. cbn [length recordAll fold_left].
    assert (Hlater : forall q, In q (pagesDone evs2) -> i + 1 < q).
    { intros q Hq. rewrite Hd2 in Hq. apply pagesFrom_In in Hq. lia. }
    assert (Hkeep : dir w' !! pageTexPath (i + 1) = dir w2 !! pageTexPath (i + 1)).
    { apply Hf2.
      - apply pageTexPath_not_main.
      - intros stem E. symmetry in E. now apply png_not_pageTexPath in E.
      - intros q Hq E. apply Hlater in Hq.
        apply pageTexPath_inj in E; lia. }
    split. { rewrite Hl2, Hlr. unfold w1. simpl. now rewrite <- !app_assoc. }
    split; [exact Hm2|].
    split. { rewrite pagesFrom_S. f_equal. exact Hd2. }
    split. { intros f H1 H2 H3. rewrite Hf2; auto.
             - rewrite Hfr; auto. apply H3. now left.
             - intros q Hq. apply H3. now right. }
    split. { intros q [<-|Hq].
             - exists e. split; [exact Hine|]. split; [exact Hke|]. now rewrite Hkeep.
             - destruct (Ha2 q Hq) as (e' & He' & Hk' & Hq'). exists e'. auto. }
    split; [lia|]. split; [lia|]. split; [lia|]. split; [lia|].
    destruct r as [|p|]; [| |exact I].
    + destruct Hres2 as (Hsd & Hlen). split; [now rewrite Hsd|].
      intros Hfuel. rewrite Hlen by lia. lia.
    + destruct Hres2 as (Hp & HpN & Hsd). split; [lia|]. split; [exact HpN|].
      now rewrite Hsd.
  - (* the page has failed: notification and halt *)
    destruct Hres as (Hdr & Hmr & Hpr).
    injection H as <- <-.
    exists ([EvPageStart (i + 1) N] ++ evsr ++
            [EvNotify (notifyMessage (i + 1)); EvHalt (i + 1) lastError]).
    assert (Hdone : pagesDone ([EvPageStart (i + 1) N] ++ evsr ++
              [EvNotify (notifyMessage (i + 1)); EvHalt (i + 1) lastError]) = []).
    { unfold pagesDone in *. rewrite !omap_app, Hdr. reflexivity. }
    assert (Hstart : pagesStarted ([EvPageStart (i + 1) N] ++ evsr ++
              [EvNotify (notifyMessage (i + 1)); EvHalt (i + 1) lastError]) = [i + 1]).
    { unfold pagesStarted in *. rewrite !omap_app, Hsr. reflexivity. }
    assert (Hrec : recognitions ([EvPageStart (i + 1) N] ++ evsr ++
              [EvNotify (notifyMessage (i + 1)); EvHalt (i + 1) lastError])
                   = recognitions evsr).
    { unfold recognitions. rewrite !omap_app. simpl. apply app_nil_r. }
    rewrite Hdone, Hstart, Hrec. cbn [length recordAll fold_left].
    split. { unfold sendPushoverNotification, bind, emit. simpl.
             rewrite Hlr. unfold w1. simpl. now rewrite <- !app_assoc. }
    split; [exact Hmr|]. split; [reflexivity|].
    split. { intros f H1 H2 _. change (dir w2 !! f = dir w !! f).
             destruct (string_dec f (pageTexPath (i + 1))) as [->|Hne];
               [exact Hpr | now apply Hfr]. }
    split; [intros q []|].
    split; [simpl; lia|]. split; [lia|]. split; [lia|]. split; [lia|].
    split; [lia|]. split; [lia | reflexivity].
  - (* the script has ended *)
    destruct Hres as (Hdr & Hmr & Hpr).
    injection H as <- <-.
    exists ([EvPageStart (i + 1) N] ++ evsr).
    assert (Hdone : pagesDone ([EvPageStart (i + 1) N] ++ evsr) = []).
    { unfold pagesDone in *. rewrite !omap_app, Hdr. reflexivity. }
    assert (Hstart : pagesStarted ([EvPageStart (i + 1) N] ++ evsr) = [i + 1]).
    { unfold pagesStarted in *. rewrite !omap_app, Hsr. reflexivity. }
    assert (Hrec : recognitions ([EvPageStart (i + 1) N] ++ evsr) = recognitions evsr).
    { unfold recognitions. rewrite !omap_app. reflexivity. }
    rewrite Hdone, Hstart, Hrec. cbn [length recordAll fold_left].
    split. { rewrite Hlr. unfold w1. simpl. now rewrite <- !app_assoc. }
    split; [exact Hmr|]. split; [reflexivity|].
    split. { intros f H1 H2 _.
             destruct (string_dec f (pageTexPath (i + 1))) as [->|Hne];
               [exact Hpr | now apply Hfr]. }
    split; [intros q []|].
    split; [simpl; lia|]. split; [lia|]. split; [lia|]. split; [lia | exact I].
Qed.

Lemma afterSetup_main w : dir (afterSetup w) !! MAIN_TEX_PATH = Some (manifestAtStart w).
Proof.
  unfold afterSetup, manifestAtStart.
  destruct (dir w !! MAIN_TEX_PATH) eqn:E; simpl; [exact E | apply lookup_insert_eq].
Qed.

Lemma afterSetup_other w f : f <> MAIN_TEX_PATH -> dir (afterSetup w) !! f = dir w !! f.
Proof.
  intros Hf. unfold afterSetup. destruct (dir w !! MAIN_TEX_PATH); [reflexivity|].
  simpl. apply lookup_insert_ne. congruence.
Qed.

Lemma afterSetup_log w : log (afterSetup w) = log w.
Proof. unfold afterSetup. now destruct (dir w !! MAIN_TEX_PATH). Qed.

Lemma finalizeDocument_effect w content :
  dir w !! MAIN_TEX_PATH = Some content ->
  exists w',
    finalizeDocument w = (Ok tt, w') /\
    log w' = log w ++ [EvFinished] /\
    dir w' !! MAIN_TEX_PATH = Some (finalizeManifest content) /\
    (forall f, f <> MAIN_TEX_PATH -> dir w' !! f = dir w !! f).
Proof.
  intros Hc. rewrite (finalizeDocument_cases w content Hc). eexists.
  split; [reflexivity|]. split; [now destruct (JS.includes endDocument content)|].
  destruct (JS.includes endDocument content) eqn:E; simpl.
  - split; [|reflexivity]. now rewrite finalizeManifest_closed.
  - split; [apply lookup_insert_eq|]. intros f Hf. apply lookup_insert_ne. congruence.
Qed.

(** A run as a whole: which pages it records, what it makes of the
    manifest, which files it leaves alone, and how often it calls the
    service. *)
Lemma run_effect envs N w r w' :
  processPdfDocument envs N w = (r, w') ->
  exists l evs,
    r = Ok l /\
    log w' = log w ++ evs /\
    dir w' !! MAIN_TEX_PATH
    = Some (match l with
            | OutOfScript => recordAll (pagesDone evs) (manifestAtStart w)
            | _ => finalizeManifest (recordAll (pagesDone evs) (manifestAtStart w))
            end) /\
    pagesDone evs = pagesFrom (startPage (listing w)) (length (pagesDone evs)) /\
    (forall f, f <> MAIN_TEX_PATH -> (forall stem, f <> stem +:+ ".png") ->
               (forall q, In q (pagesDone evs) -> f <> pageTexPath q) ->
               dir w' !! f = dir w !! f) /\
    (forall q, In q (pagesDone evs) ->
               exists e, In e envs /\ apiKey e = true /\
                         dir w' !! pageTexPath q = Some (answerOf e)) /\
    (length (recognitions evs) <= 3 * length (pagesStarted evs))%nat /\
    (length (pagesDone evs) <= length (recognitions evs))%nat /\
    (length (pagesDone evs) <= length (pagesStarted evs))%nat /\
    (length (pagesStarted evs) <= Z.to_nat (N + 1 - startPage (listing w)))%nat /\
    match l with
    | AllPagesDone =>
        pagesStarted evs = pagesDone evs /\
        length (pagesDone evs) = Z.to_nat (N + 1 - startPage (listing w))
    | Halted p =>
        p = startPage (listing w) + Z.of_nat (length (pagesDone evs)) /\ p <= N /\
        pagesStarted evs = pagesDone evs ++ [p]
    | OutOfScript => True
    end.
Proof.
  rewrite processPdfDocument_unfold. cbv zeta. rewrite getLast_afterSetup.
  unfold startPage. set (last := getLastProcessedPageByTex (listing w)).
  assert (Hlast : 0 <= last) by apply getLast_nonneg.
  destruct (pageLoop (Z.to_nat (N - last)) envs N last (afterSetup w)) as [l w1] eqn:El.
  destruct (pageLoop_effect _ _ _ _ _ _ _ _ (afterSetup_main w) Hlast El)
    as (evs & Hl & Hm & Hd & Hf & Ha & Hc & Hg & Hds & Hs & Hres).
  rewrite afterSetup_log in Hl.
  replace (N + 1 - (last + 1)) with (N - last) by lia.
  assert (Hf0 : forall f, f <> MAIN_TEX_PATH -> (forall stem, f <> stem +:+ ".png") ->
                  (forall q, In q (pagesDone evs) -> f <> pageTexPath q) ->
                  dir w1 !! f = dir w !! f).
  { intros f H1 H2 H3. rewrite Hf by assumption. now apply afterSetup_other. }
  assert (Hend : forall l0, l0 <> OutOfScript ->
            match l0 with
            | AllPagesDone =>
                pagesStarted evs = pagesDone evs /\
                ((Z.to_nat (N - last) <= Z.to_nat (N - last))%nat ->
                 length (pagesDone evs) = Z.to_nat (N - last))
            | Halted p =>
                p = last + 1 + Z.of_nat (length (pagesDone evs)) /\ p <= N /\
                pagesStarted evs = pagesDone evs ++ [p]
            | OutOfScript => True
            end ->
            (let* _ := finalizeDocument in ret l0) w1 = (r, w') ->
            exists l1 evs1,
              r = Ok l1 /\ log w' = log w ++ evs1 /\
              dir w' !! MAIN_TEX_PATH
              = Some (match l1 with
                      | OutOfScript => recordAll (pagesDone evs1) (manifestAtStart w)
                      | _ => finalizeManifest
                               (recordAll (pagesDone evs1) (manifestAtStart w))
                      end) /\
              pagesDone evs1 = pagesFrom (last + 1) (length (pagesDone evs1)) /\
              (forall f, f <> MAIN_TEX_PATH -> (forall stem, f <> stem +:+ ".png") ->
                         (forall q, In q (pagesDone evs1) -> f <> pageTexPath q) ->
                         dir w' !! f = dir w !! f) /\
              (forall q, In q (pagesDone evs1) ->
                         exists e, In e envs /\ apiKey e = true /\
                                   dir w' !! pageTexPath q = Some (answerOf e)) /\
              (length (recognitions evs1) <= 3 * length (pagesStarted evs1))%nat /\
              (length (pagesDone evs1) <= length (recognitions evs1))%nat /\
              (length (pagesDone evs1) <= length (pagesStarted evs1))%nat /\
              (length (pagesStarted evs1) <= Z.to_nat (N - last))%nat /\
              match l1 with
              | AllPagesDone =>
                  pagesStarted evs1 = pagesDone evs1 /\
                  length (pagesDone evs1) = Z.to_nat (N - last)
              | Halted p =>
                  p = last + 1 + Z.of_nat (length (pagesDone evs1)) /\ p <= N /\
                  pagesStarted evs1 = pagesDone evs1 ++ [p]
              | OutOfScript => True
              end).
  { intros l0 Hl0 Hres0.
    destruct (finalizeDocument_effect w1 _ Hm) as (w2 & Hfin & Hl2 & Hm2 & Hf2).
    unfold bind, ret. rewrite Hfin. intros [= <- <-].
    assert (Hdone : pagesDone (evs ++ [EvFinished]) = pagesDone evs).
    { unfold pagesDone. rewrite omap_app. apply app_nil_r. }
    assert (Hstart : pagesStarted (evs ++ [EvFinished]) = pagesStarted evs).
    { unfold pagesStarted. rewrite omap_app. apply app_nil_r. }
    assert (Hrec : recognitions (evs ++ [EvFinished]) = recognitions evs).
    { unfold recognitions. rewrite omap_app. apply app_nil_r. }
    exists l0, (evs ++ [EvFinished]). rewrite Hdone, Hstart, Hrec.
    split; [reflexivity|]. split; [now rewrite Hl2, Hl, <- app_assoc|].
    split; [rewrite Hm2; now destruct l0|].
    split; [exact Hd|].
    split. { intros f H1 H2 H3. rewrite Hf2 by assumption. now apply Hf0. }
    split. { intros q Hq. destruct (Ha q Hq) as (e & He & Hk & Hq').
             exists e. split; [exact He|]. split; [exact Hk|].
             rewrite Hf2; [exact Hq' | apply pageTexPath_not_main]. }
    split; [exact Hc|]. split; [exact Hg|]. split; [exact Hds|]. split; [exact Hs|].
    destruct l0; [|exact Hres0|exact I].
    destruct Hres0 as (H1 & H2). split; [exact H1 | now apply H2]. }
  destruct l as [|p|]; [apply Hend; [discriminate | exact Hres] ..|].
  intros [= <- <-]. exists OutOfScript, evs.
  split; [reflexivity|]. split; [exact Hl|]. split; [exact Hm|].
  split; [exact Hd|]. split; [exact Hf0|]. split; [exact Ha|].
  split; [exact Hc|]. split; [exact Hg|]. split; [exact Hds|]. split; [exact Hs | exact I].
Qed.

End Effects.

(* ================================================================== *)
(** * Runs: what is recorded, what is kept, what is never done         *)
(* ================================================================== *)

Section Runs.

Lemma recordAll_snoc done q c :
  recordAll (done ++ [q]) c = updateManifest q (recordAll done c).
Proof. unfold recordAll. now rewrite fold_left_app. Qed.

Lemma recordAll_Manifest done : forall ps closed c,
  Manifest ps closed c -> Forall (fun q => 0 <= q) done ->
  Manifest (ps ++ done) closed (recordAll done c).
Proof.
  induction done as [|q done IH]; intros ps closed c Hm Hd.
  - now rewrite app_nil_r.
  - inversion Hd as [|? ? Hq Hd']; subst.
    replace (ps ++ q :: done) with ((ps ++ [q]) ++ done) by now rewrite <- app_assoc.
    apply (IH _ _ (updateManifest q c)); [|exact Hd'].
    now apply Manifest_update.
Qed.

Lemma manifestAtStart_Manifest w :
  Reachable w ->
  exists ps closed,
    Manifest ps closed (manifestAtStart w) /\
    includeRefs (manifestAtStart w) = ps /\ increasing ps /\
    Forall (fun p => p <= getLastProcessedPageByTex (listing w)) ps.
Proof.
  intros Hr. unfold manifestAtStart.
  destruct (dir w !! MAIN_TEX_PATH) as [c|] eqn:E; simpl.
  - destruct (Reachable_manifest _ _ Hr E) as (ps & closed & HA & Hm & Hi & _).
    exists ps, closed. split; [exact Hm|]. split; [exact Hi|].
    split; [apply HA | eapply Assembled_below_last, HA].
  - exists [], false. split; [apply Manifest_initial|].
    split; [reflexivity|]. split; constructor.
Qed.

Lemma pagesFrom_nonneg s n : 0 <= s -> Forall (fun q => 0 <= q) (pagesFrom s n).
Proof.
  intros Hs. apply List.Forall_forall. intros q Hq%pagesFrom_In. lia.
Qed.

Lemma startPage_pos files : 1 <= startPage files.
Proof. unfold startPage. pose proof (getLast_nonneg files). lia. Qed.

Lemma run_persists envs N w r w' :
  processPdfDocument envs N w = (r, w') -> persists w w'.
Proof.
  rewrite processPdfDocument_unfold. cbv zeta.
  destruct (pageLoop _ envs N _ (afterSetup w)) as [l w1] eqn:El.
  assert (H1 : persists w w1).
  { eapply persists_trans; [apply afterSetup_persists|].
    eapply pageLoop_persists, El. }
  assert (Hm : is_Some (dir w1 !! MAIN_TEX_PATH)).
  { eapply pageLoop_persists; [exact El|]. apply main_exists_afterSetup. }
  destruct (finalizeDocument_log w1 Hm) as (w2 & Hf & _ & H2).
  destruct l; unfold bind, ret; rewrite ?Hf; intros [= <- <-];
    first [exact H1 | eapply persists_trans; eauto].
Qed.

(** No page unit above the last one found exists. *)
Lemma no_fragment_above_last w q :
  getLastProcessedPageByTex (listing w) < q -> dir w !! pageTexPath q = None.
Proof.
  intros Hq. destruct (dir w !! pageTexPath q) eqn:E; [|reflexivity].
  exfalso. assert (Hq0 : 0 <= q) by (pose proof (getLast_nonneg (listing w)); lia).
  pose proof (getLast_upper (listing w) (pageTexPath q)) as H.
  rewrite pageNumberOf_pageTexPath in H by exact Hq0.
  assert (q <= getLastProcessedPageByTex (listing w)); [|lia].
  apply H; [|now apply isPageTex_pageTexPath].
  apply In_listing. now rewrite E.
Qed.

(** The last page unit after some consecutive pages above the old last
    one have got their fragments and no other page unit has changed. *)
Lemma getLast_after_pages w w' last n :
  getLastProcessedPageByTex (listing w) = last ->
  (forall f, isPageTex f = true ->
     (forall q, In q (pagesFrom (last + 1) n) -> f <> pageTexPath q) ->
     dir w' !! f = dir w !! f) ->
  (forall q, In q (pagesFrom (last + 1) n) -> is_Some (dir w' !! pageTexPath q)) ->
  getLastProcessedPageByTex (listing w') = last + Z.of_nat n.
Proof.
  intros Hlast Hframe Hnew.
  assert (H0 : 0 <= last) by (subst last; apply getLast_nonneg).
  apply Z.le_antisymm.
  - destruct (List.existsb isPageTex (listing w')) eqn:Ex.
    + apply existsb_exists in Ex as (f0 & Hin0 & Hp0).
      destruct (getLast_attained (listing w')) as (f & Hin & Hp & <-); [eauto|].
      destruct (in_dec string_dec f (List.map pageTexPath (pagesFrom (last + 1) n)))
        as [Hf|Hf].
      * apply in_map_iff in Hf as (q & <- & Hq). apply pagesFrom_In in Hq.
        rewrite pageNumberOf_pageTexPath; lia.
      * assert (Hsame : dir w' !! f = dir w !! f).
        { apply Hframe; [exact Hp|]. intros q Hq ->. apply Hf.
          now apply in_map. }
        apply In_listing in Hin. rewrite Hsame in Hin. apply In_listing in Hin.
        pose proof (getLast_upper _ _ Hin Hp). lia.
    + rewrite getLast_none; [lia|].
      intros f Hf. destruct (isPageTex f) eqn:E; [|reflexivity].
      assert (List.existsb isPageTex (listing w') = true); [|congruence].
      apply existsb_exists. eauto.
  - destruct n as [|n].
    + rewrite Z.add_0_r. subst last. apply getLast_le.
      intros f Hp Hin. apply In_listing. apply In_listing in Hin.
      rewrite Hframe; [exact Hin | exact Hp | intros q []].
    + assert (Hq : In (last + Z.of_nat (S n)) (pagesFrom (last + 1) (S n))).
      { apply pagesFrom_In. lia. }
      rewrite <- (pageNumberOf_pageTexPath (last + Z.of_nat (S n))) at 1 by lia.
      apply getLast_upper; [|apply isPageTex_pageTexPath; lia].
      apply In_listing. now apply Hnew.
Qed.

Lemma page_unit_frame f :
  isPageTex f = true -> f <> MAIN_TEX_PATH /\ forall stem, f <> stem +:+ ".png".
Proof.
  intros Hp. split.
  - intros ->. now rewrite isPageTex_main in Hp.
  - intros stem ->. now rewrite isPageTex_png in Hp.
Qed.

End Runs.

Section RunFacts.

(** The facts [run_effect] gives, for the trace of the run at hand. *)
Lemma run_effect_for envs N w l w' evs :
  processPdfDocument envs N w = (Ok l, w') ->
  log w' = log w ++ evs ->
  dir w' !! MAIN_TEX_PATH
  = Some (match l with
          | OutOfScript => recordAll (pagesDone evs) (manifestAtStart w)
          | _ => finalizeManifest (recordAll (pagesDone evs) (manifestAtStart w))
          end) /\
  pagesDone evs = pagesFrom (startPage (listing w)) (length (pagesDone evs)) /\
  (forall f, f <> MAIN_TEX_PATH -> (forall stem, f <> stem +:+ ".png") ->
             (forall q, In q (pagesDone evs) -> f <> pageTexPath q) ->
             dir w' !! f = dir w !! f) /\
  (forall q, In q (pagesDone evs) ->
             exists e, In e envs /\ apiKey e = true /\
                       dir w' !! pageTexPath q = Some (answerOf e)) /\
  (length (recognitions evs) <= 3 * length (pagesStarted evs))%nat /\
  (length (pagesDone evs) <= length (recognitions evs))%nat /\
  (length (pagesDone evs) <= length (pagesStarted evs))%nat /\
  (length (pagesStarted evs) <= Z.to_nat (N + 1 - startPage (listing w)))%nat /\
  match l with
  | AllPagesDone =>
      pagesStarted evs = pagesDone evs /\
      length (pagesDone evs) = Z.to_nat (N + 1 - startPage (listing w))
  | Halted p =>
      p = startPage (listing w) + Z.of_nat (length (pagesDone evs)) /\ p <= N /\
      pagesStarted evs = pagesDone evs ++ [p]
  | OutOfScript => True
  end.
Proof.
  intros Hrun Hlog.
  destruct (run_effect _ _ _ _ _ Hrun) as (l0 & evs0 & [= <-] & Hl0 & H).
  rewrite Hl0 in Hlog. apply app_inv_head in Hlog as ->. exact H.
Qed.

(** The pages a run records lie between its start page and the last
    page of the document. *)
Lemma run_done_range envs N w l w' evs q :
  processPdfDocument envs N w = (Ok l, w') ->
  log w' = log w ++ evs ->
  In q (pagesDone evs) -> startPage (listing w) <= q <= N.
Proof.
  intros Hrun Hlog Hq.
  destruct (run_effect_for _ _ _ _ _ _ Hrun Hlog)
    as (_ & Hd & _ & _ & _ & _ & Hds & Hs & _).
  rewrite Hd in Hq. apply pagesFrom_In in Hq. lia.
Qed.

End RunFacts.

(** X6.  In a run from a reachable state, the references the manifest
    gains are exactly the pages the run reports as recorded, in that
    order; these pages are consecutive from the start page, each has its
    fragment, which is the answer of the service in one of the attempts;
    a run that ends normally has recorded every page up to the last, and a
    run that halts at a page has recorded the pages before it and left no
    fragment of it. *)
Theorem X6_new_references_are_the_recorded_pages
    (w w' : World) (envs : list AttemptEnv) (totalPages : Z)
    (l : LoopEnd) (evs : list Event) :
  Reachable w ->
  processPdfDocument envs totalPages w = (Ok l, w') ->
  log w' = log w ++ evs ->
  let start := startPage (listing w) in
  exists m',
    dir w' !! MAIN_TEX_PATH = Some m' /\
    includeRefs m' = includeRefs (manifestAtStart w) ++ pagesDone evs /\
    pagesDone evs = pagesFrom start (length (pagesDone evs)) /\
    (forall q, In q (pagesDone evs) ->
       exists e, In e envs /\ dir w' !! pageTexPath q = Some (answerOf e)) /\
    (l = AllPagesDone ->
     length (pagesDone evs) = Z.to_nat (totalPages + 1 - start)) /\
    (forall p, l = Halted p ->
       p = start + Z.of_nat (length (pagesDone evs)) /\ p <= totalPages /\
       dir w' !! pageTexPath p = None).
Proof.
  intros Hr Hrun Hlog start.
  destruct (run_effect_for _ _ _ _ _ _ Hrun Hlog)
    as (Hm & Hd & Hf & Ha & _ & _ & _ & _ & Hres).
  destruct (manifestAtStart_Manifest w Hr) as (ps & closed & HM & Hps & _ & _).
  assert (Hnn : Forall (fun q => 0 <= q) (pagesDone evs)).
  { rewrite Hd. apply pagesFrom_nonneg. pose proof (startPage_pos (listing w)). lia. }
  pose proof (recordAll_Manifest _ _ _ _ HM Hnn) as HM'.
  eexists. split; [exact Hm|].
  split.
  { rewrite Hps. destruct l; rewrite ?includeRefs_finalizeManifest;
      apply (Manifest_includeRefs _ _ _ HM'). }
  split; [exact Hd|].
  split. { intros q Hq. destruct (Ha q Hq) as (e & He & _ & Hq'). eauto. }
  split. { intros ->. apply Hres. }
  intros p ->. destruct Hres as (Hp & HpN & _).
  split; [exact Hp|]. split; [exact HpN|].
  assert (Hnone : dir w !! pageTexPath p = None).
  { apply no_fragment_above_last. unfold startPage in Hp. lia. }
  rewrite <- Hnone. apply Hf.
  - apply pageTexPath_not_main.
  - intros stem E. symmetry in E. apply png_not_pageTexPath in E; [exact E|].
    pose proof (startPage_pos (listing w)). lia.
  - intros q Hq E. rewrite Hd in Hq. apply pagesFrom_In in Hq.
    pose proof (startPage_pos (listing w)).
    apply pageTexPath_inj in E; lia.
Qed.

Lemma X6_witness :
  exists m',
    dir worldAfterGap !! MAIN_TEX_PATH = Some m' /\
    includeRefs m' = includeRefs (manifestAtStart worldInterrupted) ++ [3].
Proof.
  destruct (X6_new_references_are_the_recorded_pages
              worldInterrupted worldAfterGap [okEnv "c"] 3 AllPagesDone
              [EvPageStart 3 3; EvRender 2; EvRender 3; EvRecognize ["PNG"; "PNG"];
               EvPageDone 3; EvFinished])
    as (m' & H1 & H2 & _).
  - apply Reachable_interrupted, Reachable_run, Reachable_empty.
  - vm_compute. reflexivity.
  - vm_compute. reflexivity.
  - exists m'. split; [exact H1 | exact H2].
Defined.

(** X7.  A run that has ended normally leaves nothing to do: a further
    run over the same document, whatever its environment, records no page,
    calls neither the renderer nor the service, writes no file, and only
    reports that it has finished. *)
Theorem X7_finished_document_is_left_alone
    (w w1 : World) (envs envs2 : list AttemptEnv) (totalPages : Z) :
  processPdfDocument envs totalPages w = (Ok AllPagesDone, w1) ->
  processPdfDocument envs2 totalPages w1
  = (Ok AllPagesDone, addEvents [EvFinished] w1).
Proof.
  intros Hrun.
  destruct (run_effect _ _ _ _ _ Hrun) as (l0 & evs & [= <-] & Hlog & H).
  destruct H as (Hm & Hd & Hf & Ha & _ & _ & _ & _ & _ & Hlen).
  pose proof (run_persists _ _ _ _ _ Hrun) as Hp.
  pose proof (startPage_pos (listing w)) as Hs.
  assert (Hlast : totalPages <= getLastProcessedPageByTex (listing w1)).
  { destruct (Z.le_gt_cases (startPage (listing w)) totalPages) as [Hle|Hgt].
    - assert (Hq : In totalPages (pagesDone evs)).
      { rewrite Hd. apply pagesFrom_In. lia. }
      destruct (Ha _ Hq) as (e & _ & _ & Hq').
      rewrite <- (pageNumberOf_pageTexPath totalPages) at 1 by lia.
      apply getLast_upper; [|apply isPageTex_pageTexPath; lia].
      apply In_listing. now rewrite Hq'.
    - transitivity (getLastProcessedPageByTex (listing w)).
      + unfold startPage in Hgt. lia.
      + apply getLast_le. intros f _ Hin. apply In_listing. apply Hp.
        now apply In_listing. }
  rewrite processPdfDocument_unfold. cbv zeta.
  assert (Hsetup : afterSetup w1 = w1).
  { unfold afterSetup. now rewrite Hm. }
  rewrite Hsetup.
  replace (Z.to_nat (totalPages - getLastProcessedPageByTex (listing w1))) with 0%nat
    by lia.
  cbn [pageLoop]. unfold bind, ret.
  rewrite (finalizeDocument_cases _ _ Hm), finalizeManifest_includes. reflexivity.
Qed.

Lemma X7_witness :
  processPdfDocument [faultEnv] 2 worldTwoPages
  = (Ok AllPagesDone, addEvents [EvFinished] worldTwoPages).
Proof.
  apply (X7_finished_document_is_left_alone emptyWorld worldTwoPages
           [okEnv "a"; okEnv "b"] [faultEnv] 2).
  vm_compute. reflexivity.
Defined.

(** X8.  A run that has halted at a page has recorded the pages before
    it and nothing of the page itself: the page has no fragment, the
    resume tracker of the next run points to it, and the next run begins
    with it, with a fresh retry budget. *)
Theorem X8_halted_run_resumes_at_the_failed_page
    (w w1 : World) (envs : list AttemptEnv) (totalPages p : Z) :
  processPdfDocument envs totalPages w = (Ok (Halted p), w1) ->
  startPage (listing w) <= p <= totalPages /\
  dir w1 !! pageTexPath p = None /\
  startPage (listing w1) = p /\
  forall envs2 totalPages2, p <= totalPages2 ->
    exists evs2,
      log (snd (processPdfDocument envs2 totalPages2 w1))
      = log w1 ++ EvPageStart p totalPages2 :: evs2 /\
      countsFrom 1 (failedAttemptsOf p evs2).
Proof.
  intros Hrun.
  destruct (run_effect _ _ _ _ _ Hrun) as (l0 & evs & [= <-] & Hlog & H).
  destruct H as (Hm & Hd & Hf & Ha & _ & _ & _ & _ & Hp & HpN & _).
  pose proof (startPage_pos (listing w)) as Hs.
  set (n := length (pagesDone evs)) in *.
  assert (Hframe : forall f, isPageTex f = true ->
            (forall q, In q (pagesFrom (getLastProcessedPageByTex (listing w) + 1) n) ->
                       f <> pageTexPath q) ->
            dir w1 !! f = dir w !! f).
  { intros f Hpf Hq. destruct (page_unit_frame f Hpf) as (H1 & H2).
    apply Hf; [exact H1 | exact H2|]. intros q Hin. apply Hq.
    rewrite Hd in Hin. exact Hin. }
  assert (Hnew : forall q, In q (pagesFrom (getLastProcessedPageByTex (listing w) + 1) n) ->
                           is_Some (dir w1 !! pageTexPath q)).
  { intros q Hq. destruct (Ha q) as (e & _ & _ & Hq'); [now rewrite Hd|].
    now rewrite Hq'. }
  pose proof (getLast_after_pages w w1 _ n eq_refl Hframe Hnew) as Hlast.
  assert (Hstart : startPage (listing w1) = p).
  { unfold startPage in *. lia. }
  split; [lia|]. split.
  { apply no_fragment_above_last. unfold startPage in Hstart. lia. }
  split; [exact Hstart|].
  intros envs2 N2 HpN2.
  destruct (processPdfDocument envs2 N2 w1) as [r2 w2] eqn:Hrun2.
  destruct (processPdfDocument_trace _ _ _ _ _ Hrun2)
    as (l2 & evs2 & _ & Hlog2 & _ & _ & _ & Hfirst & _ & Hfail).
  rewrite Hstart in Hfirst. destruct (Hfirst HpN2) as (evs' & ->).
  exists evs'. split; [exact Hlog2|].
  specialize (Hfail p). unfold failedAttemptsOf in *. exact Hfail.
Qed.

Lemma X8_witness :
  startPage (listing (snd (processPdfDocument
                             [okEnv "a"; faultEnv; faultEnv; faultEnv] 3 emptyWorld)))
  = 2.
Proof.
  refine (proj1 (proj2 (proj2
    (X8_halted_run_resumes_at_the_failed_page emptyWorld _
       [okEnv "a"; faultEnv; faultEnv; faultEnv] 3 2 _)))).
  vm_compute. reflexivity.
Defined.

(** X9.  A run deletes no file, and the only files it creates or changes
    are the manifest, raster artifacts, and the fragments of pages from
    its start page up to the last page of the document: every other file,
    the fragments of earlier pages among them, is left as it was. *)
Theorem X9_run_changes_only_its_own_files
    (w w' : World) (envs : list AttemptEnv) (totalPages : Z)
    (r : Result LoopEnd) :
  processPdfDocument envs totalPages w = (r, w') ->
  (forall f, is_Some (dir w !! f) -> is_Some (dir w' !! f)) /\
  (forall f,
     f <> MAIN_TEX_PATH ->
     (forall stem, f <> stem +:+ ".png") ->
     (forall q, startPage (listing w) <= q <= totalPages -> f <> pageTexPath q) ->
     dir w' !! f = dir w !! f) /\
  (forall q, 0 <= q < startPage (listing w) ->
     dir w' !! pageTexPath q = dir w !! pageTexPath q).
Proof.
  intros Hrun. split; [exact (run_persists _ _ _ _ _ Hrun)|].
  destruct (run_effect _ _ _ _ _ Hrun) as (l & evs & -> & Hlog & H).
  pose proof (fun q => run_done_range _ _ _ _ _ _ q Hrun Hlog) as Hrange.
  destruct H as (_ & _ & Hf & _).
  assert (Hframe : forall f,
     f <> MAIN_TEX_PATH ->
     (forall stem, f <> stem +:+ ".png") ->
     (forall q, startPage (listing w) <= q <= totalPages -> f <> pageTexPath q) ->
     dir w' !! f = dir w !! f).
  { intros f H1 H2 H3. apply Hf; [exact H1 | exact H2|].
    intros q Hq. apply H3. now apply Hrange. }
  split; [exact Hframe|].
  intros q Hq. apply Hframe.
  - apply pageTexPath_not_main.
  - intros stem E. symmetry in E. apply png_not_pageTexPath in E; [exact E | lia].
  - intros q' Hq' E. apply pageTexPath_inj in E; lia.
Qed.

Lemma X9_witness :
  dir (snd (processPdfDocument [okEnv "k"] 12 dirC1)) !! "page5.tex.bak" = Some "x" /\
  dir (snd (processPdfDocument [okEnv "k"] 12 dirC1)) !! pageTexPath 10 = Some "j".
Proof.
  destruct (X9_run_changes_only_its_own_files dirC1 _ [okEnv "k"] 12 _
              (surjective_pairing _)) as (_ & H1 & H2).
  split.
  - rewrite (H1 "page5.tex.bak"); [vm_compute; reflexivity | intros E; discriminate E | |].
    + intros stem E.
      assert (Hl : String.length "page5.tex.bak" = String.length (stem +:+ ".png"))
        by now rewrite <- E.
      rewrite length_app_s in Hl. simpl in Hl.
      destruct stem as [|c1 [|c2 [|c3 [|c4 [|c5 [|c6 [|c7 [|c8 [|c9 [|c10 s]]]]]]]]]];
        simpl in Hl; try lia; discriminate.
    + intros q Hq E.
      assert (Hp : isPageTex (pageTexPath q) = true)
        by (apply isPageTex_pageTexPath; pose proof (startPage_pos (listing dirC1)); lia).
      now rewrite <- E in Hp.
  - rewrite (H2 10); [vm_compute; reflexivity|].
    split; [lia|]. vm_compute. reflexivity.
Defined.

(** X10.  The service is called at most three times for a page, whatever
    the environment does: a run calls it at most three times as often as
    it begins pages, it begins at most the pages from its start page to
    the last page of the document, and every page it records has cost at
    least one call. *)
Theorem X10_service_calls_are_bounded
    (w w' : World) (envs : list AttemptEnv) (totalPages : Z)
    (r : Result LoopEnd) (evs : list Event) :
  processPdfDocument envs totalPages w = (r, w') ->
  log w' = log w ++ evs ->
  (length (recognitions evs) <= 3 * length (pagesStarted evs))%nat /\
  (length (pagesStarted evs)
   <= Z.to_nat (totalPages + 1 - startPage (listing w)))%nat /\
  (length (pagesDone evs) <= length (recognitions evs))%nat /\
  (forall n c0 last w0 rr rest w1 evs1,
     dir w0 !! MAIN_TEX_PATH = Some c0 -> 0 <= n ->
     retryLoop envs totalPages n 1 last w0 = (rr, rest, w1) ->
     log w1 = log w0 ++ evs1 ->
     (length (recognitions evs1) <= 3)%nat).
Proof.
  intros Hrun Hlog.
  destruct (run_effect _ _ _ _ _ Hrun) as (l & evs0 & -> & Hlog0 & H).
  rewrite Hlog0 in Hlog. apply app_inv_head in Hlog as <-.
  destruct H as (_ & _ & _ & _ & Hc & Hg & _ & Hs & _).
  split; [exact Hc|]. split; [exact Hs|]. split; [exact Hg|].
  intros n c0 last w0 rr rest w1 evs1 Hm Hn Hloop Hl1.
  destruct (retryLoop_effect _ _ _ _ _ _ _ _ _ _ Hm Hn Hloop)
    as (evs2 & Hl2 & _ & Hb & _).
  rewrite Hl2 in Hl1. apply app_inv_head in Hl1 as <-. exact Hb.
Qed.

Lemma X10_witness :
  (length (recognitions
     (log (snd (processPdfDocument
                  [okEnv "a"; faultEnv; faultEnv; okEnv "b"; okEnv "c"] 3 emptyWorld))))
   <= 3 * 3)%nat.
Proof.
  destruct (X10_service_calls_are_bounded emptyWorld _
              [okEnv "a"; faultEnv; faultEnv; okEnv "b"; okEnv "c"] 3 _
              (log (snd (processPdfDocument
                           [okEnv "a"; faultEnv; faultEnv; okEnv "b"; okEnv "c"] 3
                           emptyWorld)))
              (surjective_pairing _) eq_refl) as (H1 & _).
  etransitivity; [exact H1|]. vm_compute. lia.
Defined.

Section CleanRun.






End CleanRun.



Section NoKey.

Lemma render_only_reported evs :
  Forall (fun ev => isRenderEvent ev = true) evs -> reportedFailures evs = [].
Proof.
  induction 1 as [|ev evs Hev _ IH]; [reflexivity|].
  destruct ev; try discriminate. exact IH.
Qed.

(** Without the key an attempt fails before the service is called. *)
Lemma attemptBody_no_key e N n w c0 r w' :
  apiKey e = false -> dir w !! MAIN_TEX_PATH = Some c0 ->
  attemptBody e N n w = (r, w') ->
  exists err, r = Throw err /\ rasterOnly w w'.
Proof.
  intros Hk Hm Hb.
  destruct (attemptBody_effect _ _ _ _ _ _ _ Hm Hb)
    as (w1 & Hr & [(err & -> & -> & _)|[(imgs & _ & Hk' & _)|(imgs & _ & Hk' & _)]]);
    [eauto | congruence | congruence].
Qed.

(** Without the key, the attempt of a page the renderer has an image of
    fails with the missing-key error. *)
Lemma attemptBody_no_key_error e N n w :
  apiKey e = false -> renders e n -> 1 <= n <= N ->
  attemptBody e N n w = (Throw errApiKey, snd (contextWindow e N n w)) /\
  rasterOnly w (snd (contextWindow e N n w)).
Proof.
  intros Hk (Hno & (c & Hc)) Hn.
  pose proof (contextWindow_no_throw e N n w Hn Hno) as Ew. cbv zeta in Ew.
  rewrite Hc in Ew. rewrite Ew. cbn [snd].
  split; [|eapply contextWindow_rasterOnly, Ew].
  rewrite (attemptBody_window _ _ _ _ _ _ _ _ Ew), Hk. reflexivity.
Qed.

Lemma retryLoop_no_key envs N n : forall a last w c0 r rest w',
  Forall (fun e => apiKey e = false) envs ->
  dir w !! MAIN_TEX_PATH = Some c0 ->
  retryLoop envs N n a last w = (r, rest, w') ->
  r <> PageSucceeded /\
  Forall (fun e => apiKey e = false) rest /\
  dir w' !! MAIN_TEX_PATH = Some c0 /\
  exists evs, log w' = log w ++ evs /\ recognitions evs = [].
Proof.
  induction envs as [|e envs IH]; intros a last w c0 r rest w' Hk Hm H;
    cbn [retryLoop] in H; destruct (Z.leb_spec a MAX_RETRIES) as [Ha|Ha].
  1,2,4: injection H as <- <- <-; split; [discriminate|]; split; [exact Hk|];
    split; [exact Hm|]; exists []; now rewrite app_nil_r.
  inversion Hk as [|? ? Hke Hk']; subst.
  destruct (attemptBody e N n w) as [rb w1] eqn:Eb.
  destruct (attemptBody_no_key _ _ _ _ _ _ _ Hke Hm Eb) as (err & -> & Hr).
  pose proof Hr as (_ & _ & evs1 & Hl1 & Hev1).
  destruct (render_only_projections _ Hev1) as (_ & _ & Hc1 & _ & _).
  assert (Hm1 : dir w1 !! MAIN_TEX_PATH = Some c0) by now rewrite (rasterOnly_main _ _ Hr).
  destruct (isQuotaError err).
  - destruct (IH _ _ _ _ _ _ _ Hk' Hm1 H) as (Hne & Hrest & Hm' & evs2 & Hl2 & Hc2).
    split; [exact Hne|]. split; [exact Hrest|]. split; [exact Hm'|].
    exists (evs1 ++ evs2). rewrite Hl2, Hl1, <- app_assoc. split; [reflexivity|].
    unfold recognitions in *. now rewrite omap_app, Hc1, Hc2.
  - unfold emit in H. cbn [snd] in H.
    match type of H with retryLoop _ _ _ _ _ ?wx = _ =>
      assert (Hm1' : dir wx !! MAIN_TEX_PATH = Some c0) by exact Hm1 end.
    destruct (IH _ _ _ _ _ _ _ Hk' Hm1' H) as (Hne & Hrest & Hm' & evs2 & Hl2 & Hc2).
    split; [exact Hne|]. split; [exact Hrest|]. split; [exact Hm'|].
    exists (evs1 ++ [EvAttemptFailed n a err] ++ evs2).
    rewrite Hl2. cbn [addEvents log]. rewrite Hl1, <- !app_assoc.
    split; [reflexivity|].
    unfold recognitions in *. now rewrite !omap_app, Hc1, Hc2.
Qed.

Lemma pageLoop_no_key fuel N envs i w c0 r w' :
  Forall (fun e => apiKey e = false) envs ->
  dir w !! MAIN_TEX_PATH = Some c0 ->
  pageLoop fuel envs N i w = (r, w') ->
  (exists evs, log w' = log w ++ evs /\ recognitions evs = []) /\
  ((0 < fuel)%nat -> i < N -> r = Halted (i + 1) \/ r = OutOfScript) /\
  ((0 < fuel)%nat -> i < N -> Forall plainRenderer envs -> (3 <= length envs)%nat ->
   r = Halted (i + 1)).
Proof.
  intros Hk Hm H. destruct fuel as [|fuel]; cbn [pageLoop] in H.
  { injection H as <- <-. split; [exists []; now rewrite app_nil_r|].
    split; intros; lia. }
  destruct (Z.ltb_spec i N) as [Hi|Hi].
  2:{ injection H as <- <-. split; [exists []; now rewrite app_nil_r|].
      split; intros; lia. }
  cbv zeta in H. unfold emit at 1 in H. cbn [snd] in H.
  set (w1 := addEvents [EvPageStart (i + 1) N] w) in *.
  destruct (retryLoop envs N (i + 1) 1 None w1) as [[rr envs'] w2] eqn:Er.
  assert (Hm1 : dir w1 !! MAIN_TEX_PATH = Some c0) by exact Hm.
  destruct (retryLoop_no_key _ _ _ _ _ _ _ _ _ _ Hk Hm1 Er)
    as (Hne & _ & _ & evsr & Hlr & Hcr).
  destruct rr as [|lastError|]; [now contradiction Hne| |].
  - injection H as <- <-. split; [|split; auto].
    exists ([EvPageStart (i + 1) N] ++ evsr ++
            [EvNotify (notifyMessage (i + 1)); EvHalt (i + 1) lastError]).
    split.
    + unfold sendPushoverNotification, bind, emit. simpl.
      rewrite Hlr. unfold w1. simpl. now rewrite <- !app_assoc.
    + unfold recognitions in *. now rewrite !omap_app, Hcr.
  - injection H as <- <-. split; [|split; [auto|]].
    + exists ([EvPageStart (i + 1) N] ++ evsr). split.
      * rewrite Hlr. unfold w1. simpl. now rewrite <- !app_assoc.
      * unfold recognitions in *. now rewrite !omap_app, Hcr.
    + intros _ _ Hplain Hlen. exfalso.
      destruct (retryLoop_ends envs N (i + 1) 1 None w1 Hplain)
        as (r0 & rest0 & w0 & E0 & Hne0 & _).
      { change (Z.to_nat (MAX_RETRIES + 1 - 1)) with 3%nat. exact Hlen. }
      rewrite Er in E0. injection E0 as <- _ _. now apply Hne0.
Qed.

End NoKey.

(** X11.  Without the API key ([GEMINI_API_KEY] unset in every attempt)
    a run never calls the service and records no page: no fragment and no
    other file but the manifest and raster artifacts is written or
    changed.  If there is a page to process, the run ends at its start
    page; with a script of at least three attempts whose renderer errors
    do not read like quota errors it halts there after the failures 1, 2
    and 3; and if the renderer works, each of the three failures is the
    missing-key error. *)
Theorem X11_without_api_key_no_service_call
    (w w' : World) (envs : list AttemptEnv) (totalPages : Z)
    (l : LoopEnd) (evs : list Event) :
  Forall (fun e => apiKey e = false) envs ->
  processPdfDocument envs totalPages w = (Ok l, w') ->
  log w' = log w ++ evs ->
  recognitions evs = [] /\
  pagesDone evs = [] /\
  (forall f, f <> MAIN_TEX_PATH -> (forall stem, f <> stem +:+ ".png") ->
             dir w' !! f = dir w !! f) /\
  (startPage (listing w) <= totalPages ->
   l = Halted (startPage (listing w)) \/ l = OutOfScript) /\
  (startPage (listing w) <= totalPages ->
   Forall plainRenderer envs -> (3 <= length envs)%nat ->
   l = Halted (startPage (listing w)) /\
   failedAttemptsOf (startPage (listing w)) evs = [1; 2; 3]) /\
  (startPage (listing w) <= totalPages ->
   (3 <= length envs)%nat ->
   Forall (fun e => renders e (startPage (listing w))) envs ->
   l = Halted (startPage (listing w)) /\
   reportedFailures evs
   = [(startPage (listing w), 1, errApiKey);
      (startPage (listing w), 2, errApiKey);
      (startPage (listing w), 3, errApiKey)]).
Proof.
  intros Hk Hrun Hlog.
  destruct (run_effect_for _ _ _ _ _ _ Hrun Hlog)
    as (_ & _ & Hf & _ & _ & Hg & _ & _ & _).
  pose proof Hrun as Hrun0.
  rewrite processPdfDocument_unfold in Hrun. cbv zeta in Hrun.
  rewrite getLast_afterSetup in Hrun. unfold startPage.
  set (last := getLastProcessedPageByTex (listing w)) in *.
  destruct (pageLoop (Z.to_nat (totalPages - last)) envs totalPages last (afterSetup w))
    as [l1 w1] eqn:El.
  destruct (pageLoop_no_key _ _ _ _ _ _ _ _ Hk (afterSetup_main w) El)
    as ((evs1 & Hl1 & Hc1) & Hend & Hhalt).
  rewrite afterSetup_log in Hl1.
  assert (Hm1 : is_Some (dir w1 !! MAIN_TEX_PATH)).
  { eapply pageLoop_persists; [exact El|]. apply main_exists_afterSetup. }
  destruct (finalizeDocument_log w1 Hm1) as (w2 & Hfin & Hl2 & _).
  assert (Hl : l = l1 /\ recognitions evs = [] /\
               (l1 <> OutOfScript -> evs = evs1 ++ [EvFinished])).
  { destruct l1; unfold bind, ret in Hrun; rewrite ?Hfin in Hrun;
      injection Hrun as <- <-.
    1,2: rewrite Hl2, Hl1, <- app_assoc in Hlog; apply app_inv_head in Hlog as <-;
      (split; [reflexivity|]); (split; [|reflexivity]);
      unfold recognitions in *; now rewrite omap_app, Hc1.
    rewrite Hl1 in Hlog. apply app_inv_head in Hlog as <-.
    split; [reflexivity|]. split; [exact Hc1|]. intros H. now contradiction H. }
  destruct Hl as (-> & Hrec & Hevs).
  assert (Hdone : pagesDone evs = []).
  { rewrite Hrec in Hg. simpl in Hg. destruct (pagesDone evs); [reflexivity|].
    simpl in Hg. lia. }
  split; [exact Hrec|]. split; [exact Hdone|].
  split.
  { intros f H1 H2. apply Hf; [exact H1 | exact H2|]. rewrite Hdone. intros q []. }
  split.
  { intros Hs. apply Hend; lia. }
  split.
  { intros Hs Hplain Hlen.
    assert (Hl : l1 = Halted (last + 1)) by (apply Hhalt; [lia | lia | exact Hplain | exact Hlen]).
    split; [exact Hl|]. subst l1.
    destruct (run_failures _ _ _ _ _ _ Hrun0 Hlog) as (_ & Hh). now apply Hh. }
  intros Hs Hlen Hren.
  destruct envs as [|e1 [|e2 [|e3 rest]]]; try (simpl in Hlen; lia).
  inversion Hk as [|? ? Hk1 Hk']; subst. inversion Hk' as [|? ? Hk2 Hk'']; subst.
  inversion Hk'' as [|? ? Hk3 _]; subst.
  inversion Hren as [|? ? Hr1 Hren']; subst. inversion Hren' as [|? ? Hr2 Hren'']; subst.
  inversion Hren'' as [|? ? Hr3 _]; subst.
  assert (Hn : 1 <= last + 1 <= totalPages) by (pose proof (getLast_nonneg (listing w)); lia).
  set (n := last + 1) in *.
  set (wa := addEvents [EvPageStart n totalPages] (afterSetup w)).
  destruct (attemptBody_no_key_error e1 totalPages n wa Hk1 Hr1 Hn) as (Hb1 & Hw1).
  set (wb := addEvents [EvAttemptFailed n 1 errApiKey] (snd (contextWindow e1 totalPages n wa))) in *.
  destruct (attemptBody_no_key_error e2 totalPages n wb Hk2 Hr2 Hn) as (Hb2 & Hw2).
  set (wc := addEvents [EvAttemptFailed n 2 errApiKey] (snd (contextWindow e2 totalPages n wb))) in *.
  destruct (attemptBody_no_key_error e3 totalPages n wc Hk3 Hr3 Hn) as (Hb3 & Hw3).
  set (wd := addEvents [EvAttemptFailed n 3 errApiKey] (snd (contextWindow e3 totalPages n wc))) in *.
  assert (Hloop : retryLoop (e1 :: e2 :: e3 :: rest) totalPages n 1 None wa
                  = (PageFailed (Some errApiKey), rest, wd)).
  { rewrite (retryLoop_counted _ _ _ _ _ _ _ _ _ Hb1 errApiKey_not_quota)
      by (unfold MAX_RETRIES; lia).
    rewrite (retryLoop_counted _ _ _ _ _ _ _ _ _ Hb2 errApiKey_not_quota)
      by (unfold MAX_RETRIES; lia).
    rewrite (retryLoop_counted _ _ _ _ _ _ _ _ _ Hb3 errApiKey_not_quota)
      by (unfold MAX_RETRIES; lia).
    apply retryLoop_over. unfold MAX_RETRIES. lia. }
  assert (Hfuel : exists fuel, Z.to_nat (totalPages - last) = S fuel).
  { exists (Z.to_nat (totalPages - last) - 1)%nat. lia. }
  destruct Hfuel as (fuel & Hfuel). rewrite Hfuel in El.
  rewrite (pageLoop_halts fuel _ totalPages last (afterSetup w) _ _ _ ltac:(lia) Hloop) in El.
  injection El as <- <-.
  split; [reflexivity|].
  rewrite (Hevs ltac:(discriminate)).
  destruct Hw1 as (_ & _ & ev1 & Hlog1 & Hre1).
  destruct Hw2 as (_ & _ & ev2 & Hlog2 & Hre2).
  destruct Hw3 as (_ & _ & ev3 & Hlog3 & Hre3).
  assert (Hev : evs1 = [EvPageStart n totalPages] ++ ev1 ++ [EvAttemptFailed n 1 errApiKey]
                       ++ ev2 ++ [EvAttemptFailed n 2 errApiKey]
                       ++ ev3 ++ [EvAttemptFailed n 3 errApiKey]
                       ++ [EvNotify (notifyMessage n); EvHalt n (Some errApiKey)]).
  { apply (app_inv_head (log w)). rewrite <- Hl1. unfold wd, wc, wb, wa. simpl.
    unfold wc, wb, wa in Hlog3. unfold wb, wa in Hlog2. unfold wa in Hlog1.
    simpl in Hlog1, Hlog2, Hlog3.
    rewrite Hlog3, Hlog2, Hlog1, afterSetup_log. now rewrite <- !app_assoc. }
  rewrite Hev. unfold reportedFailures. rewrite !omap_app.
  fold (reportedFailures ev1). fold (reportedFailures ev2). fold (reportedFailures ev3).
  rewrite (render_only_reported _ Hre1), (render_only_reported _ Hre2),
    (render_only_reported _ Hre3). reflexivity.
Qed.

Lemma X11_witness :
  recognitions (log (snd (processPdfDocument [noKeyEnv; noKeyEnv; noKeyEnv] 2 emptyWorld)))
  = [] /\
  reportedFailures
    (log (snd (processPdfDocument [noKeyEnv; noKeyEnv; noKeyEnv] 2 emptyWorld)))
  = [(1, 1, errApiKey); (1, 2, errApiKey); (1, 3, errApiKey)].
Proof.
  destruct (X11_without_api_key_no_service_call emptyWorld
              (snd (processPdfDocument [noKeyEnv; noKeyEnv; noKeyEnv] 2 emptyWorld))
              [noKeyEnv; noKeyEnv; noKeyEnv] 2 (Halted 1)
              (log (snd (processPdfDocument [noKeyEnv; noKeyEnv; noKeyEnv] 2 emptyWorld))))
    as (H1 & _ & _ & _ & _ & H6).
  - repeat constructor.
  - vm_compute. reflexivity.
  - reflexivity.
  - split; [exact H1|]. apply H6.
    + vm_compute. discriminate.
    + simpl. lia.
    + repeat constructor; try (intros j err; discriminate); simpl; eauto.
Defined.

Section RenderQuota.

(** An attempt whose renderer is out of quota fails at its first render
    request, with an error that passes the quota test. *)
Lemma attemptBody_renderer_out_of_quota e N n w :
  rendererOutOfQuota e -> 1 <= n <= N ->
  exists err j,
    attemptBody e N n w = (Throw err, addEvents [EvRender j] w) /\
    isQuotaError err = true.
Proof.
  intros He Hn.
  destruct (Z.le_gt_cases 1 (n - 1)) as [Hp|Hp].
  - destruct (He (n - 1)) as (err & Hc & Hq). exists err, (n - 1).
    split; [|exact Hq]. apply attemptBody_throw_window.
    unfold contextWindow. unfold bind at 1.
    rewrite getImageBuffer_in by lia. now rewrite Hc.
  - destruct (He n) as (err & Hc & Hq). exists err, n.
    split; [|exact Hq]. apply attemptBody_throw_window.
    unfold contextWindow. unfold bind at 1.
    rewrite getImageBuffer_out by lia. unfold bind at 1.
    rewrite getImageBuffer_in by lia. now rewrite Hc.
Qed.

End RenderQuota.

(** X12.  An error of the renderer whose text passes the quota test
    (lines 315-321) takes the attempt back without any wait: as long as
    the renderer fails so, the retry loop of a page goes on with the same
    attempt number, however many attempts are made; it reports no failure,
    waits for nothing, writes nothing, and the page neither fails nor
    succeeds.  A run with such a renderer never gets past its start
    page. *)
Theorem X12_quota_like_render_error_is_retried_without_end
    (envs : list AttemptEnv) (totalPages n a : Z) (last : option string)
    (w : World) :
  1 <= n <= totalPages ->
  a <= MAX_RETRIES ->
  Forall rendererOutOfQuota envs ->
  (exists w' evs,
     retryLoop envs totalPages n a last w = (ScriptEnded, [], w') /\
     log w' = log w ++ evs /\
     dir w' = dir w /\
     length evs = length envs /\
     Forall (fun ev => isRenderEvent ev = true) evs) /\
  (forall w0, startPage (listing w0) <= totalPages ->
     fst (processPdfDocument envs totalPages w0) = Ok OutOfScript).
Proof.
  intros Hn Ha Henvs.
  assert (Hloop : forall envs0 a0 n0 last0 w0,
            a0 <= MAX_RETRIES ->
            1 <= n0 <= totalPages -> Forall rendererOutOfQuota envs0 ->
            exists w' evs,
              retryLoop envs0 totalPages n0 a0 last0 w0 = (ScriptEnded, [], w') /\
              log w' = log w0 ++ evs /\ dir w' = dir w0 /\
              length evs = length envs0 /\
              Forall (fun ev => isRenderEvent ev = true) evs).
  { clear. induction envs0 as [|e envs0 IH]; intros a0 n0 last0 w0 Ha0 Hn0 Henvs0.
    - exists w0, []. rewrite app_nil_r. cbn [retryLoop].
      destruct (Z.leb_spec a0 MAX_RETRIES); [|lia]. repeat split. constructor.
    - inversion Henvs0 as [|? ? He Henvs0']; subst.
      destruct (attemptBody_renderer_out_of_quota e totalPages n0 w0 He Hn0)
        as (err & j & Hb & Hq).
      rewrite (retryLoop_uncounted _ _ _ _ _ _ _ _ _ Hb Hq Ha0).
      destruct (IH a0 n0 (Some err) (addEvents [EvRender j] w0) Ha0 Hn0 Henvs0')
        as (w' & evs & Hr & Hl & Hd & Hlen & Hev).
      exists w', (EvRender j :: evs). split; [exact Hr|].
      split; [rewrite Hl; simpl; now rewrite <- app_assoc|].
      split; [exact Hd|]. split; [simpl; now rewrite Hlen|].
      constructor; [reflexivity | exact Hev]. }
  split; [now apply Hloop|].
  intros w0 Hs. rewrite processPdfDocument_unfold. cbv zeta.
  rewrite getLast_afterSetup. unfold startPage in Hs.
  set (last0 := getLastProcessedPageByTex (listing w0)) in *.
  assert (H0 : 0 <= last0) by apply getLast_nonneg.
  assert (Hfuel : exists fuel, Z.to_nat (totalPages - last0) = S fuel).
  { exists (Z.to_nat (totalPages - last0) - 1)%nat. lia. }
  destruct Hfuel as (fuel & ->). cbn [pageLoop].
  destruct (Z.ltb_spec last0 totalPages); [|lia].
  cbv zeta. unfold emit at 1. cbn [snd].
  destruct (Hloop envs 1 (last0 + 1) None
              (addEvents [EvPageStart (last0 + 1) totalPages] (afterSetup w0)))
    as (w' & evs & -> & _); [unfold MAX_RETRIES; lia | lia | exact Henvs|].
  reflexivity.
Qed.

Lemma X12_witness :
  fst (fst (retryLoop [quotaRenderEnv; quotaRenderEnv; quotaRenderEnv; quotaRenderEnv;
                       quotaRenderEnv] 2 1 1 None emptyWorld))
  = ScriptEnded.
Proof.
  destruct (X12_quota_like_render_error_is_retried_without_end
              [quotaRenderEnv; quotaRenderEnv; quotaRenderEnv; quotaRenderEnv;
               quotaRenderEnv] 2 1 1 None emptyWorld) as ((w' & evs & -> & _) & _).
  - lia.
  - unfold MAX_RETRIES. lia.
  - repeat constructor; intros j; exists quotaErrorText; split; reflexivity.
  - reflexivity.
Defined.

Section RetryDelay.












End RetryDelay.



(* ================================================================== *)
(** * Workspace, names, notification, script                           *)
(* ================================================================== *)


Section Names.




End Names.



(** X14.  [sendPushoverNotification] never throws, whatever the
    credentials and the network do.  It sends one request, with the
    message and with token and user key in their places, when both
    credentials are set and not empty, and none otherwise, when it only
    warns; a request that is rejected is reported and not passed on. *)
Theorem X14_notification_never_throws (env : Pushover.Env) (message : string) :
  fst (Pushover.sendPushoverNotification env message) = Ok tt /\
  Pushover.posts (snd (Pushover.sendPushoverNotification env message))
  = (if Pushover.truthy (Pushover.PUSHOVER_USER_KEY env)
        && Pushover.truthy (Pushover.PUSHOVER_API_TOKEN env)
     then [("https://api.pushover.net/1/messages.json",
            default EmptyString (Pushover.PUSHOVER_API_TOKEN env),
            default EmptyString (Pushover.PUSHOVER_USER_KEY env),
            message)]
     else []) /\
  (Pushover.truthy (Pushover.PUSHOVER_USER_KEY env)
   && Pushover.truthy (Pushover.PUSHOVER_API_TOKEN env) = false ->
   snd (Pushover.sendPushoverNotification env message)
   = [Pushover.Warn "Pushover credentials not set in environment variables."]) /\
  (forall err,
     Pushover.truthy (Pushover.PUSHOVER_USER_KEY env)
     && Pushover.truthy (Pushover.PUSHOVER_API_TOKEN env) = true ->
     Pushover.post env = Pushover.PostRejects err ->
     exists request,
       snd (Pushover.sendPushoverNotification env message)
       = [request; Pushover.Error "Failed to send Pushover notification:" err]).
Proof.
  unfold Pushover.sendPushoverNotification, Pushover.axiosPost.
  destruct (Pushover.truthy (Pushover.PUSHOVER_USER_KEY env));
    destruct (Pushover.truthy (Pushover.PUSHOVER_API_TOKEN env));
    cbn [negb orb andb]; try (repeat split; try discriminate; reflexivity).
  destruct (Pushover.post env) as [|err0]; cbn [fst snd app Pushover.posts omap list_omap];
    (split; [reflexivity|]); (split; [reflexivity|]); (split; [discriminate|]);
    intros err _ [=]. subst. eexists. reflexivity.
Qed.


(* ================================================================== *)
(** * The resume tracker of the earlier revision                       *)
(* ================================================================== *)

Section ManifestTracker.

Lemma pageOfInclude_match s p len :
  matchInclude s = Some (p, len) -> pageOfInclude (JS.take len s) = p.
Proof.
  unfold matchInclude.
  destruct (JS.stripPrefix "\include{page" s) as [rest|] eqn:E; [|discriminate].
  apply stripPrefix_Some in E. subst s.
  destruct (JS.nonEmpty (JS.takeDigits rest)
            && JS.startsWith "}" (JS.dropDigits rest)) eqn:H; [|discriminate].
  intros [= <- <-]. apply andb_true_iff in H as [Hne Hb].
  unfold JS.startsWith in Hb.
  destruct (JS.stripPrefix "}" (JS.dropDigits rest)) as [t|] eqn:Et; [|discriminate].
  apply stripPrefix_Some in Et.
  pose proof (takeDigits_dropDigits rest) as Hr. rewrite Et in Hr.
  pose proof (allDigits_takeDigits rest) as Hd.
  set (ds := JS.takeDigits rest) in *. rewrite <- Hr.
  replace ("\include{page" +:+ ds +:+ "}" +:+ t)
    with (("\include{page" +:+ ds +:+ "}") +:+ t)
    by now rewrite !app_assoc_s.
  match goal with
  | |- pageOfInclude (JS.take ?n _) = _ =>
      replace n with (String.length ("\include{page" +:+ ds +:+ "}"))
        by (rewrite !length_app_s; cbn [String.length]; lia)
  end.
  rewrite take_app_length.
  unfold pageOfInclude. cbn [String.append JS.nonEmpty negb JS.firstDigitRun].
  change (JS.isDigit "\") with false. change (JS.isDigit "i") with false.
  change (JS.isDigit "n") with false. change (JS.isDigit "c") with false.
  change (JS.isDigit "l") with false. change (JS.isDigit "u") with false.
  change (JS.isDigit "d") with false. change (JS.isDigit "e") with false.
  change (JS.isDigit "{") with false. change (JS.isDigit "p") with false.
  change (JS.isDigit "a") with false. change (JS.isDigit "g") with false.
  cbv iota.
  rewrite firstDigitRun_digits by assumption.
  rewrite takeDigits_app by (exact Hd || reflexivity).
  now rewrite Hne.
Qed.

Lemma includeStatements_refs s : forall k,
  List.map pageOfInclude (includeStatementsFrom k s) = includeRefsFrom k s.
Proof.
  induction s as [|c s IH]; intros k; [reflexivity|].
  cbn [includeStatementsFrom includeRefsFrom].
  destruct k as [|k]; [|apply IH].
  destruct (matchInclude (String c s)) as [[p len]|] eqn:E; [|apply IH].
  cbn [List.map]. f_equal; [now apply pageOfInclude_match | apply IH].
Qed.

Lemma getLastProcessedPage_cases w :
  getLastProcessedPage w
  = (Ok (default 0 (last (includeRefs (manifestAtStart w)))), w).
Proof.
  unfold getLastProcessedPage, tryCatch, bind, Fs.readFile, manifestAtStart.
  destruct (dir w !! MAIN_TEX_PATH) as [c|]; [|reflexivity].
  change (default initialContent (Some c)) with c.
  unfold includeRefs. rewrite <- includeStatements_refs.
  change (List.map pageOfInclude (includeStatementsFrom 0 c))
    with (pageOfInclude <$> includeStatementsFrom 0 c).
  rewrite fmap_last.
  destruct (last (includeStatementsFrom 0 c)); reflexivity.
Qed.

Lemma last_pagesFrom s n :
  last (pagesFrom s (S n)) = Some (s + Z.of_nat n).
Proof. rewrite pagesFrom_snoc. apply last_snoc. Qed.

(** A run moves the last page unit up by the number of pages it
    records. *)
Lemma run_last envs N w l w' evs :
  processPdfDocument envs N w = (Ok l, w') ->
  log w' = log w ++ evs ->
  getLastProcessedPageByTex (listing w')
  = getLastProcessedPageByTex (listing w) + Z.of_nat (length (pagesDone evs)).
Proof.
  intros Hrun Hlog.
  destruct (run_effect_for _ _ _ _ _ _ Hrun Hlog)
    as (_ & Hd & Hf & Ha & _).
  apply (getLast_after_pages w w' _ _ eq_refl).
  - intros f Hpf Hq. destruct (page_unit_frame f Hpf) as (H1 & H2).
    apply Hf; [exact H1 | exact H2|]. intros q Hin. apply Hq.
    rewrite Hd in Hin. exact Hin.
  - intros q Hq. destruct (Ha q) as (e & _ & _ & Hq'); [now rewrite Hd|].
    now rewrite Hq'.
Qed.

End ManifestTracker.

(** X16.  The resume tracker of the earlier revision,
    [getLastProcessedPage], reads the manifest where the present one lists
    the page units.  It never throws and changes nothing; its result is
    the number of the last inclusion reference of the manifest, and [0]
    where there is no manifest or no reference.  In a reachable state it is
    never ahead of the present tracker, and where the two agree before a
    run they agree after it. *)
Theorem X16_manifest_tracker_is_never_ahead (w : World) :
  Reachable w ->
  exists n,
    getLastProcessedPage w = (Ok n, w) /\
    n = default 0 (last (includeRefs (manifestAtStart w))) /\
    (dir w !! MAIN_TEX_PATH = None -> n = 0) /\
    n <= getLastProcessedPageByTex (listing w) /\
    forall envs totalPages l w',
      n = getLastProcessedPageByTex (listing w) ->
      processPdfDocument envs totalPages w = (Ok l, w') ->
      getLastProcessedPage w' = (Ok (getLastProcessedPageByTex (listing w')), w').
Proof.
  intros Hr. eexists. split; [apply getLastProcessedPage_cases|].
  split; [reflexivity|].
  destruct (manifestAtStart_Manifest w Hr) as (ps & closed & HM & Hps & _ & Hle).
  split. { intros Hn. unfold manifestAtStart. now rewrite Hn. }
  split.
  { rewrite Hps. destruct (last ps) as [p|] eqn:El; cbn [default].
    - rewrite List.Forall_forall in Hle. apply Hle.
      apply last_Some in El as (l' & ->). apply in_or_app. right. now left.
    - apply getLast_nonneg. }
  intros envs N l w' Hagree Hrun.
  destruct (processPdfDocument_trace _ _ _ _ _ Hrun) as (l0 & evs & _ & Hlog & _).
  rewrite getLastProcessedPage_cases. f_equal. f_equal.
  rewrite (run_last _ _ _ _ _ _ Hrun Hlog).
  destruct (run_effect_for _ _ _ _ _ _ Hrun Hlog) as (Hm & Hd & _).
  assert (Hnn : Forall (fun q => 0 <= q) (pagesDone evs)).
  { rewrite Hd. apply pagesFrom_nonneg. pose proof (startPage_pos (listing w)). lia. }
  pose proof (recordAll_Manifest _ _ _ _ HM Hnn) as HM'.
  assert (Hrefs : includeRefs (manifestAtStart w') = ps ++ pagesDone evs).
  { unfold manifestAtStart at 1. rewrite Hm. cbn [from_option id].
    destruct l; rewrite ?includeRefs_finalizeManifest;
      apply (Manifest_includeRefs _ _ _ HM'). }
  rewrite Hrefs, Hd, pagesFrom_length. rewrite Hps in Hagree.
  destruct (length (pagesDone evs)) as [|k].
  - cbn [pagesFrom seq List.map]. rewrite app_nil_r. lia.
  - rewrite last_app, last_pagesFrom. cbn [from_option id]. unfold startPage. lia.
Qed.

Lemma X16_witness :
  getLastProcessedPage worldInterrupted = (Ok 1, worldInterrupted) /\
  getLastProcessedPageByTex (listing worldInterrupted) = 2 /\
  getLastProcessedPage worldTwoPages = (Ok 2, worldTwoPages).
Proof.
  destruct (X16_manifest_tracker_is_never_ahead emptyWorld Reachable_empty)
    as (n & H1 & -> & _ & _ & H2).
  split; [vm_compute; reflexivity|]. split; [vm_compute; reflexivity|].
  specialize (H2 [okEnv "a"; okEnv "b"] 2 AllPagesDone worldTwoPages).
  rewrite H2; [vm_compute; reflexivity | vm_compute; reflexivity | vm_compute; reflexivity].
Defined.

(* ================================================================== *)
(** * The driver of the earlier revision                               *)
(* ================================================================== *)

Section EarlierDriver.

(** A render request that does not throw: the slot, and no change but to
    raster artifacts. *)
Lemma earlier_getImageBuffer_ok e N j w :
  (forall err, converter e j <> RenderThrows err) ->
  exists w1,
    Earlier.getImageBuffer e N j w
    = (Ok (if (1 <=? j) && (j <=? N) then slotOf (converter e j) else None), w1) /\
    (forall f, (forall stem, f <> stem +:+ ".png") -> dir w1 !! f = dir w !! f).
Proof.
  intros Hno. unfold Earlier.getImageBuffer.
  destruct (Z.ltb_spec j 1) as [H1|H1]; destruct (Z.leb_spec 1 j) as [H1'|H1'];
    try lia; cbn [orb andb].
  { exists w. split; reflexivity. }
  destruct (Z.gtb_spec j N) as [H2|H2]; destruct (Z.leb_spec j N) as [H2'|H2'];
    try lia.
  { exists w. split; reflexivity. }
  unfold bind, emit, throw, ret.
  destruct (converter e j) as [err| |stem buf] eqn:Ec.
  - exfalso. now apply (Hno err).
  - eexists. split; reflexivity.
  - unfold Fs.writeFile, tryCatch, Earlier.unlinkSync. cbn [dir putFile addEvents log].
    rewrite lookup_insert_eq. eexists. split; [reflexivity|].
    intros f Hf. cbn [dir].
    rewrite lookup_delete_ne, lookup_insert_ne by (intros E; exact (Hf stem (eq_sym E))).
    reflexivity.
Qed.

Lemma earlier_contextWindow_ok e N n w :
  1 <= n <= N ->
  (forall j err, converter e j <> RenderThrows err) ->
  exists prev next w1,
    Earlier.contextWindow e N n w = (Ok (prev, slotOf (converter e n), next), w1) /\
    (forall f, (forall stem, f <> stem +:+ ".png") -> dir w1 !! f = dir w !! f).
Proof.
  intros Hn Hno. unfold Earlier.contextWindow, bind, ret.
  destruct (earlier_getImageBuffer_ok e N (n - 1) w (Hno _)) as (wa & -> & Ha).
  destruct (earlier_getImageBuffer_ok e N n wa (Hno _)) as (wb & -> & Hb).
  destruct (earlier_getImageBuffer_ok e N (n + 1) wb (Hno _)) as (wc & -> & Hc).
  destruct (Z.leb_spec 1 n); [|lia]. destruct (Z.leb_spec n N); [|lia].
  cbn [andb]. eexists _, _, _. split; [reflexivity|].
  intros f Hf. now rewrite Hc, Hb, Ha.
Qed.

(** A page without image is passed over: nothing is thrown, and nothing
    changes but raster artifacts. *)
Lemma earlier_pageBody_without_image e N n w :
  1 <= n <= N -> withoutImage e n ->
  exists w1,
    Earlier.pageBody e N n w = (Ok Earlier.PagePassedOver, w1) /\
    (forall f, (forall stem, f <> stem +:+ ".png") -> dir w1 !! f = dir w !! f).
Proof.
  intros Hn (Hno & Hs).
  destruct (earlier_contextWindow_ok e N n w Hn Hno) as (prev & next & w1 & Ew & Hf).
  exists w1. split; [|exact Hf].
  unfold Earlier.pageBody. unfold bind at 1. rewrite Ew, Hs. reflexivity.
Qed.

(** A page for which nothing fails is recorded. *)
Lemma earlier_pageBody_succeeds e N n w c0 :
  1 <= n <= N -> succeeds e n -> dir w !! MAIN_TEX_PATH = Some c0 ->
  exists w1,
    Earlier.pageBody e N n w = (Ok Earlier.PageRecorded, w1) /\
    dir w1 !! MAIN_TEX_PATH = Some (updateManifest n c0) /\
    dir w1 !! pageTexPath n = Some (answerOf e) /\
    (forall f, f <> MAIN_TEX_PATH -> f <> pageTexPath n ->
               (forall stem, f <> stem +:+ ".png") -> dir w1 !! f = dir w !! f).
Proof.
  intros Hn (Hk & Hno & (c & Hc) & (v & Hv)) Hm.
  destruct (earlier_contextWindow_ok e N n w Hn Hno) as (prev & next & w1 & Ew & Hf).
  assert (Hm1 : dir w1 !! MAIN_TEX_PATH = Some c0).
  { rewrite Hf; [exact Hm|]. intros stem E. symmetry in E. now apply png_not_main in E. }
  unfold Earlier.pageBody. unfold bind at 1. rewrite Ew, Hc.
  unfold Earlier.processPageWithGemini. rewrite Hk, Hv. cbn [negb].
  unfold bind, tryCatch, emit, ret, Fs.writeFile.
  set (w2 := putFile _ _ _).
  assert (Hm2 : dir w2 !! MAIN_TEX_PATH = Some c0).
  { unfold w2. cbn [dir putFile addEvents].
    rewrite lookup_insert_ne; [exact Hm1|]. apply pageTexPath_not_main. }
  rewrite (recordInManifest_some n w2 c0 Hm2).
  eexists. split; [reflexivity|]. cbn [dir putFile addEvents].
  split; [apply lookup_insert_eq|].
  split.
  { rewrite lookup_insert_ne by (apply not_eq_sym, pageTexPath_not_main).
    unfold w2. cbn [dir putFile addEvents]. rewrite lookup_insert_eq.
    unfold answerOf. now rewrite Hv. }
  intros f H1 H2 H3. rewrite lookup_insert_ne by congruence.
  unfold w2. cbn [dir putFile addEvents]. rewrite lookup_insert_ne by congruence.
  now apply Hf.
Qed.

Lemma earlier_processPdfDocument_unfold envs N w :
  Earlier.processPdfDocument envs N w =
  let ws := afterSetup w in
  let last := getLastProcessedPageByTex (listing ws) in
  match Earlier.pageLoop (Z.to_nat (N - last)) envs N last ws with
  | (OutOfScript, w') => (Ok OutOfScript, w')
  | (r, w') => (let* _ := finalizeDocument in ret r) w'
  end.
Proof.
  unfold Earlier.processPdfDocument. unfold bind at 1. rewrite setupWorkspace_cases.
  reflexivity.
Qed.

(** An attempt of the present revision for a page without image. *)
Lemma attemptBody_without_image e N n w :
  1 <= n <= N -> withoutImage e n ->
  attemptBody e N n w = (Throw errNoImage, snd (contextWindow e N n w)).
Proof.
  intros Hn (Hno & Hs).
  pose proof (contextWindow_no_throw e N n w Hn Hno) as Ew. cbv zeta in Ew.
  rewrite Hs in Ew. rewrite Ew. cbn [snd].
  rewrite (attemptBody_window _ _ _ _ _ _ _ _ Ew). reflexivity.
Qed.

(** A run of the present revision leaves the fragments of the pages
    before its start page as they are, also where there is none. *)
Lemma run_keeps_earlier_pages envs N w q :
  0 <= q < startPage (listing w) ->
  dir (snd (processPdfDocument envs N w)) !! pageTexPath q = dir w !! pageTexPath q.
Proof.
  intros Hq. destruct (processPdfDocument envs N w) as [r w'] eqn:Hrun. cbn [snd].
  destruct (run_effect _ _ _ _ _ Hrun) as (l & evs & -> & Hlog & H).
  pose proof (fun q => run_done_range _ _ _ _ _ _ q Hrun Hlog) as Hrange.
  destruct H as (_ & _ & Hf & _). apply Hf.
  - apply pageTexPath_not_main.
  - intros stem E. symmetry in E. apply png_not_pageTexPath in E; [exact E | lia].
  - intros q' Hq' E. apply Hrange in Hq'. apply pageTexPath_inj in E; lia.
Qed.

End EarlierDriver.

(** X17.  The driver of the earlier revision passed over a page for which
    the renderer yields no image: nothing is thrown and the loop goes on
    with the next page.  Where the next page, the last of the document, is
    recorded, the run ends normally with a manifest that refers to the
    next page only; the page passed over has no fragment, the resume
    tracker points behind both pages, and no later run of the present
    revision makes up for the page.  The present revision, in the same
    state and with such a renderer in three attempts, halts at the page
    instead. *)
Theorem X17_earlier_revision_passes_over_a_page_without_image
    (w : World) (e1 e2 : AttemptEnv) (envs : list AttemptEnv) :
  withoutImage e1 (startPage (listing w)) ->
  succeeds e2 (startPage (listing w) + 1) ->
  let n := startPage (listing w) in
  exists w',
    Earlier.processPdfDocument (e1 :: e2 :: envs) (n + 1) w = (Ok AllPagesDone, w') /\
    dir w' !! pageTexPath n = None /\
    dir w' !! pageTexPath (n + 1) = Some (answerOf e2) /\
    dir w' !! MAIN_TEX_PATH
    = Some (finalizeManifest (updateManifest (n + 1) (manifestAtStart w))) /\
    startPage (listing w') = n + 2 /\
    (forall envs' totalPages',
       dir (snd (processPdfDocument envs' totalPages' w')) !! pageTexPath n = None) /\
    exists w'', processPdfDocument [e1; e1; e1] (n + 1) w = (Ok (Halted n), w'') /\
                dir w'' !! pageTexPath n = None.
Proof.
  intros H1 H2 n.
  pose proof (startPage_pos (listing w)) as Hpos. fold n in Hpos.
  assert (Hlast : getLastProcessedPageByTex (listing (afterSetup w)) = n - 1).
  { rewrite getLast_afterSetup. unfold n, startPage. lia. }
  assert (Hnone : dir w !! pageTexPath n = None).
  { apply no_fragment_above_last. unfold n, startPage. lia. }
  assert (Hafter : forall q, dir (afterSetup w) !! pageTexPath q = dir w !! pageTexPath q).
  { intros q. apply afterSetup_other, pageTexPath_not_main. }
  assert (Hpng : forall q, 0 <= q -> forall stem, pageTexPath q <> stem +:+ ".png").
  { intros q Hq stem E. symmetry in E. now apply png_not_pageTexPath in E. }
  (* the earlier revision *)
  rewrite earlier_processPdfDocument_unfold. cbv zeta. rewrite Hlast.
  replace (Z.to_nat (n + 1 - (n - 1))) with 2%nat by lia.
  cbn [Earlier.pageLoop]. destruct (Z.ltb_spec (n - 1) (n + 1)); [|lia].
  cbv zeta. unfold emit at 1. cbn [snd].
  replace (n - 1 + 1) with n by lia.
  set (w0 := addEvents _ (afterSetup w)).
  destruct (earlier_pageBody_without_image e1 (n + 1) n w0 ltac:(lia) H1)
    as (w1 & -> & Hf1).
  destruct (Z.ltb_spec n (n + 1)); [|lia]. unfold emit at 1. cbn [snd].
  set (w1' := addEvents _ w1).
  assert (Hm1 : dir w1' !! MAIN_TEX_PATH = Some (manifestAtStart w)).
  { unfold w1'. cbn [dir addEvents]. rewrite Hf1.
    - unfold w0. cbn [dir addEvents]. apply afterSetup_main.
    - intros stem E. symmetry in E. now apply png_not_main in E. }
  destruct (earlier_pageBody_succeeds e2 (n + 1) (n + 1) w1' _ ltac:(lia) H2 Hm1)
    as (w2 & -> & Hm2 & Hp2 & Hf2).
  destruct (finalizeDocument_effect w2 _ Hm2) as (w3 & Hfin & _ & Hm3 & Hf3).
  unfold bind, ret. rewrite Hfin.
  assert (Hframe : forall f, f <> MAIN_TEX_PATH -> f <> pageTexPath (n + 1) ->
            (forall stem, f <> stem +:+ ".png") -> dir w3 !! f = dir w !! f).
  { intros f Ha Hb Hc. rewrite Hf3 by exact Ha. rewrite Hf2 by assumption.
    unfold w1'. cbn [dir addEvents]. rewrite Hf1 by exact Hc.
    unfold w0. cbn [dir addEvents]. now apply afterSetup_other. }
  assert (Hn3 : dir w3 !! pageTexPath n = None).
  { rewrite Hframe; [exact Hnone | apply pageTexPath_not_main | | apply Hpng; lia].
    intros E. apply pageTexPath_inj in E; lia. }
  assert (Hp3 : dir w3 !! pageTexPath (n + 1) = Some (answerOf e2)).
  { rewrite Hf3 by apply pageTexPath_not_main. exact Hp2. }
  assert (Hstart : startPage (listing w3) = n + 2).
  { unfold startPage. enough (getLastProcessedPageByTex (listing w3) = n + 1) by lia.
    apply Z.le_antisymm.
    - destruct (getLast_attained (listing w3)) as (f & Hin & Hp & <-).
      { exists (pageTexPath (n + 1)). split.
        - apply In_listing. now rewrite Hp3.
        - apply isPageTex_pageTexPath. lia. }
      destruct (string_dec f (pageTexPath (n + 1))) as [->|Hne].
      { rewrite pageNumberOf_pageTexPath; lia. }
      destruct (page_unit_frame f Hp) as (Ha & Hc).
      apply In_listing in Hin. rewrite (Hframe f Ha Hne Hc) in Hin.
      apply In_listing in Hin. pose proof (getLast_upper _ _ Hin Hp).
      unfold n, startPage. lia.
    - rewrite <- (pageNumberOf_pageTexPath (n + 1)) at 1 by lia.
      apply getLast_upper; [|apply isPageTex_pageTexPath; lia].
      apply In_listing. now rewrite Hp3. }
  exists w3. split; [reflexivity|]. split; [exact Hn3|]. split; [exact Hp3|].
  split; [exact Hm3|]. split; [exact Hstart|]. split.
  { intros envs' N'. rewrite run_keeps_earlier_pages; [exact Hn3|]. lia. }
  (* the present revision *)
  assert (Hq : isQuotaError errNoImage = false) by (vm_compute; reflexivity).
  rewrite processPdfDocument_unfold. cbv zeta. rewrite Hlast.
  replace (Z.to_nat (n + 1 - (n - 1))) with 2%nat by lia.
  assert (Hloop : exists v,
            retryLoop [e1; e1; e1] (n + 1) (n - 1 + 1) 1 None
              (addEvents [EvPageStart (n - 1 + 1) (n + 1)] (afterSetup w))
            = (PageFailed (Some errNoImage), [], v) /\
            (forall f, (forall stem, f <> stem +:+ ".png") ->
                       dir v !! f = dir (afterSetup w) !! f)).
  { replace (n - 1 + 1) with n by lia.
    set (v0 := addEvents [EvPageStart n (n + 1)] (afterSetup w)).
    cbn [retryLoop]. change (1 <=? MAX_RETRIES) with true. cbv iota.
    rewrite (attemptBody_without_image e1 (n + 1) n v0 ltac:(lia) H1), Hq.
    unfold emit. cbn [snd]. set (v1 := addEvents _ (snd _)).
    change (1 + 1 <=? MAX_RETRIES) with true. cbv iota.
    rewrite (attemptBody_without_image e1 (n + 1) n v1 ltac:(lia) H1), Hq.
    cbn [snd]. set (v2 := addEvents _ (snd _)).
    change (1 + 1 + 1 <=? MAX_RETRIES) with true. cbv iota.
    rewrite (attemptBody_without_image e1 (n + 1) n v2 ltac:(lia) H1), Hq.
    cbn [snd]. set (v3 := addEvents _ (snd _)).
    change (1 + 1 + 1 + 1 <=? MAX_RETRIES) with false. cbv iota.
    exists v3. split; [reflexivity|]. intros f Hf.
    pose proof (fun v => proj1 (contextWindow_rasterOnly e1 (n + 1) n v _ _
                                  (surjective_pairing _)) f Hf) as Hcw.
    unfold v3, v2, v1, v0.
    repeat (cbn [dir addEvents]; rewrite Hcw). reflexivity. }
  destruct Hloop as (v & Hv & Hfv).
  rewrite (pageLoop_halts 1 _ (n + 1) (n - 1) _ _ _ _ ltac:(lia) Hv).
  replace (n - 1 + 1) with n by lia.
  set (v' := addEvents _ (addEvents _ v)).
  assert (Hmv : dir v' !! MAIN_TEX_PATH = Some (manifestAtStart w)).
  { unfold v'. cbn [dir addEvents]. rewrite Hfv; [apply afterSetup_main|].
    intros stem E. symmetry in E. now apply png_not_main in E. }
  destruct (finalizeDocument_effect v' _ Hmv) as (v'' & Hfin' & _ & _ & Hf'').
  unfold bind, ret. rewrite Hfin'. exists v''. split; [reflexivity|].
  rewrite Hf'' by apply pageTexPath_not_main. unfold v'. cbn [dir addEvents].
  rewrite Hfv by (apply Hpng; lia). rewrite Hafter. exact Hnone.
Qed.

Lemma X17_witness :
  exists w',
    Earlier.processPdfDocument [emptyImageEnv [1] "a"; okEnv "b"] 2 emptyWorld
    = (Ok AllPagesDone, w') /\
    dir w' !! pageTexPath 1 = None /\
    dir w' !! pageTexPath 2 = Some "b" /\
    startPage (listing w') = 3.
Proof.
  destruct (X17_earlier_revision_passes_over_a_page_without_image
              emptyWorld (emptyImageEnv [1] "a") (okEnv "b") [])
    as (w' & H1 & H2 & H3 & _ & H4 & _).
  - split; [intros j err; unfold emptyImageEnv; cbn [converter];
            destruct (existsb (Z.eqb j) [1]); discriminate | reflexivity].
  - split; [reflexivity|]. split; [intros j err; discriminate|].
    split; [eexists; reflexivity | eexists; reflexivity].
  - exists w'. split; [exact H1|]. split; [exact H2|]. split; [exact H3 | exact H4].
Defined.
